(** * The tile plugin of osrm-backend: [src/engine/plugins/tile.cpp]

    A shallow embedding of [TilePlugin::HandleRequest] and of the helpers of
    namespace [detail], followed by the properties of the vector tile it
    writes.

    Conventions of the embedding.
    - C++ integers are [Z]; a conversion to a narrower or unsigned type is
      written out as a reduction modulo a power of two.
    - [double] is binary64, computed with the executable operations of
      [SpecFloat].
    - An execution either returns, or stops at a failed [BOOST_ASSERT], or
      has undefined behaviour (an index outside a vector, [front] of an empty
      vector, a floating value converted to an integer type that cannot hold
      it): see [outcome].
    - A [protozero::pbf_writer] is the list of the fields written through it;
      [pbf_bytes] gives the bytes protozero appends to the buffer.
    - A [std::unordered_map] is a finite map.  The order in which one is
      iterated is not fixed by C++: it is a parameter of the embedding
      ([iteration_order]), of which only that it goes through every entry
      once is known. *)

From Stdlib Require Import ZArith List Bool String Ascii Lia.
From Stdlib Require Import Floats.SpecFloat.
From stdpp Require Import gmap list strings.

Local Open Scope Z_scope.

(** ** Machine integers *)

Module Int.

Definition uint32 (z : Z) : Z := z mod 2 ^ 32.
Definition uint64 (z : Z) : Z := z mod 2 ^ 64.

(** Two's complement reduction to [std::int32_t] / [int]. *)
Definition int32 (z : Z) : Z := (z + 2 ^ 31) mod 2 ^ 32 - 2 ^ 31.

Definition in_int32 (z : Z) : bool := (- 2 ^ 31 <=? z) && (z <? 2 ^ 31).
Definition in_uint32 (z : Z) : bool := (0 <=? z) && (z <? 2 ^ 32).
Definition in_uint64 (z : Z) : bool := (0 <=? z) && (z <? 2 ^ 64).

(** [std::size_t] subtraction, as in [v.size() - 1]. *)
Definition size_sub (a b : Z) : Z := uint64 (a - b).

End Int.

(** ** Outcomes of an execution *)

Inductive outcome (A : Type) : Type :=
| Returns (a : A)
| Aborts
| Undefined.

Arguments Returns {A} a.
Arguments Aborts {A}.
Arguments Undefined {A}.

Definition obind {A B : Type} (m : outcome A) (k : A -> outcome B) : outcome B :=
  match m with
  | Returns a => k a
  | Aborts => Aborts
  | Undefined => Undefined
  end.

Declare Scope outcome_scope.
Delimit Scope outcome_scope with outcome.

Notation "'let!' x ':=' m 'in' k" := (obind m (fun x => k))
  (at level 10, x name, m at level 200, k at level 200) : outcome_scope.
Notation "'let!' ' pat ':=' m 'in' k" := (obind m (fun x => match x with pat => k end))
  (at level 10, pat pattern, m at level 200, k at level 200) : outcome_scope.

Local Open Scope outcome_scope.

(** A loop over a container whose body may fail. *)
Fixpoint ofold {A S : Type} (body : A -> S -> outcome S) (l : list A) (s : S) : outcome S :=
  match l with
  | [] => Returns s
  | a :: l' => let! s' := body a s in ofold body l' s'
  end.

(** [v[i]] on a [std::vector]: no bounds check, undefined outside. *)
Definition vec_at {A : Type} (v : list A) (i : Z) : outcome A :=
  if i <? 0 then Undefined
  else match v !! Z.to_nat i with
       | Some a => Returns a
       | None => Undefined
       end.

(** [v.front()]. *)
Definition vec_front {A : Type} (v : list A) : outcome A :=
  match v with
  | a :: _ => Returns a
  | [] => Undefined
  end.

Definition vec_size {A : Type} (v : list A) : Z := Z.of_nat (length v).

(** ** Doubles *)

Module Double.

Definition double : Type := spec_float.

Definition prec : Z := 53.
Definition emax : Z := 1024.

Definition add : double -> double -> double := SFadd prec emax.
Definition sub : double -> double -> double := SFsub prec emax.
Definition mul : double -> double -> double := SFmul prec emax.
Definition div : double -> double -> double := SFdiv prec emax.

(** Conversion of an integer to [double] (round to nearest even). *)
Definition of_int (z : Z) : double := binary_normalize prec emax z 0 false.

(** The literal [3.6]: 0x1CCCCCCCCCCCCD * 2^-51. *)
Definition lit_3_6 : double := S754_finite false 8106479329266893 (-51).

(** Magnitude of [m * 2^e] rounded to the nearest integer, halfway cases
    away from zero. *)
Definition round_magnitude (m : positive) (e : Z) : Z :=
  if 0 <=? e then Z.pos m * 2 ^ e
  else
    let d := 2 ^ (- e) in
    let q := Z.pos m / d in
    let r := Z.pos m mod d in
    if d <=? 2 * r then q + 1 else q.

(** [std::round]. *)
Definition round (x : double) : double :=
  match x with
  | S754_finite s m e =>
      binary_normalize prec emax (cond_Zopp s (round_magnitude m e)) 0 s
  | _ => x
  end.

(** The integer part of a finite double (truncation toward zero). *)
Definition truncate (x : double) : option Z :=
  match x with
  | S754_zero _ => Some 0
  | S754_finite s m e =>
      Some (cond_Zopp s (if 0 <=? e then Z.pos m * 2 ^ e else Z.pos m / 2 ^ (- e)))
  | _ => None
  end.

(** A floating-integral conversion truncates; the behaviour is undefined
    when the truncated value does not fit the destination type. *)
Definition to_integral (fits : Z -> bool) (x : double) : outcome Z :=
  match truncate x with
  | Some z => if fits z then Returns z else Undefined
  | None => Undefined
  end.

Definition to_int32 : double -> outcome Z := to_integral Int.in_int32.
Definition to_uint32 : double -> outcome Z := to_integral Int.in_uint32.
Definition to_uint64 : double -> outcome Z := to_integral Int.in_uint64.

(** The 64 bits of the IEEE 754 interchange format. *)
Definition bits (x : double) : Z :=
  let sign (s : bool) := if s then 2 ^ 63 else 0 in
  match x with
  | S754_zero s => sign s
  | S754_infinity s => sign s + 2047 * 2 ^ 52
  | S754_nan => 2047 * 2 ^ 52 + 2 ^ 51
  | S754_finite s m e =>
      sign s + (if 2 ^ 52 <=? Z.pos m
                then (e + 1075) * 2 ^ 52 + (Z.pos m - 2 ^ 52)
                else Z.pos m)
  end.

End Double.

Import Double(double).

(** ** The protozero writer

    protozero is a library outside the repository.  A writer is modelled by
    the record of the calls made on it, in order; [Wire] gives the protobuf
    encoding protozero produces for each of them. *)

#[local] Unset Elimination Schemes.

Inductive pbf_field : Type :=
| add_uint32 (tag v : Z)
| add_uint64 (tag v : Z)
| add_enum (tag v : Z)
| add_bool (tag : Z) (b : bool)
| add_string (tag : Z) (s : string)
| add_double (tag : Z) (d : double)
| packed_field_uint32 (tag : Z) (elements : list Z)
| pbf_writer (tag : Z) (fields : list pbf_field).

#[local] Set Elimination Schemes.

Module Wire.

(** [protozero::write_varint]: seven bits at a time, low group first; an
    unsigned 64-bit value takes at most ten bytes. *)
Fixpoint varint (fuel : nat) (value : Z) : list Z :=
  match fuel with
  | O => []
  | S fuel' =>
      if value <? 128 then [value]
      else Z.lor (Z.land value 127) 128 :: varint fuel' (Z.shiftr value 7)
  end.

Definition write_varint (value : Z) : list Z := varint 10 (Int.uint64 value).

(** The key of a field: [(tag << 3) | wire_type], a 32-bit varint. *)
Definition key (tag wire_type : Z) : list Z :=
  write_varint (Int.uint32 (Z.lor (Z.shiftl tag 3) wire_type)).

(** A submessage or packed field.  protozero reserves room for the length
    when the field is opened and writes it, as a 32-bit value, when the
    field is closed; a field closed with nothing in it is rolled back. *)
Definition length_delimited (tag : Z) (payload : list Z) : list Z :=
  match payload with
  | [] => []
  | _ => key tag 2 ++ write_varint (Int.uint32 (vec_size payload)) ++ payload
  end.

Definition string_bytes (s : string) : list Z :=
  map (fun c => Z.of_nat (nat_of_ascii c)) (list_ascii_of_string s).

Definition le64 (z : Z) : list Z :=
  map (fun i => Z.land (Z.shiftr z (8 * Z.of_nat i)) 255) (seq 0 8).

Fixpoint field_bytes (f : pbf_field) : list Z :=
  match f with
  | add_uint32 tag v => key tag 0 ++ write_varint v
  | add_uint64 tag v => key tag 0 ++ write_varint v
  | add_enum tag v => key tag 0 ++ write_varint v
  | add_bool tag b => key tag 0 ++ [if b then 1 else 0]
  | add_string tag s =>
      key tag 2 ++ write_varint (Int.uint32 (vec_size (string_bytes s))) ++ string_bytes s
  | add_double tag d => key tag 1 ++ le64 (Double.bits d)
  | packed_field_uint32 tag elements =>
      length_delimited tag (concat (map write_varint elements))
  | pbf_writer tag fields =>
      length_delimited tag
        ((fix all (fs : list pbf_field) : list Z :=
            match fs with
            | [] => []
            | f' :: fs' => field_bytes f' ++ all fs'
            end) fields)
  end.

Definition pbf_bytes (fields : list pbf_field) : list Z :=
  concat (map field_bytes fields).

(** *** Reading the wire format back *)

Inductive wire_value : Type :=
| wire_varint (v : Z)
| wire_fixed64 (bytes : list Z)
| wire_bytes (bytes : list Z).

Fixpoint read_varint (fuel : nat) (bytes : list Z) : option (Z * list Z) :=
  match fuel, bytes with
  | S fuel', b :: rest =>
      if b <? 128 then Some (b, rest)
      else match read_varint fuel' rest with
           | Some (v, rest') => Some (Z.lor (Z.land b 127) (Z.shiftl v 7), rest')
           | None => None
           end
  | _, _ => None
  end.

(** One field: its tag, its value and the bytes that follow it. *)
Definition read_field (bytes : list Z) : option (Z * wire_value * list Z) :=
  match read_varint 10 bytes with
  | None => None
  | Some (k, rest) =>
      let tag := Z.shiftr k 3 in
      match Z.land k 7 with
      | 0 => match read_varint 10 rest with
             | Some (v, rest') => Some (tag, wire_varint v, rest')
             | None => None
             end
      | 1 => if 8 <=? vec_size rest
             then Some (tag, wire_fixed64 (take 8 rest), drop 8 rest)
             else None
      | 2 => match read_varint 10 rest with
             | Some (len, rest') =>
                 if len <=? vec_size rest'
                 then Some (tag, wire_bytes (take (Z.to_nat len) rest'),
                            drop (Z.to_nat len) rest')
                 else None
             | None => None
             end
      | _ => None
      end
  end.

(** All the fields of a message; every field consumes at least one byte,
    so [length bytes] steps are enough. *)
Fixpoint read_fields (fuel : nat) (bytes : list Z) : option (list (Z * wire_value)) :=
  match bytes with
  | [] => Some []
  | _ :: _ =>
      match fuel with
      | O => None
      | S fuel' =>
          match read_field bytes with
          | Some (tag, v, rest) =>
              match read_fields fuel' rest with
              | Some fs => Some ((tag, v) :: fs)
              | None => None
              end
          | None => None
          end
      end
  end.

Definition read_message (bytes : list Z) : option (list (Z * wire_value)) :=
  read_fields (length bytes) bytes.

End Wire.

(** ** Constants of the vector tile format

    Modelled from the spec: [util/vector_tile.hpp], which declares these
    constants, is not among the sources.  The numbers are those the comments
    of [tile.cpp] and section 6 of the specification give (the tag
    assignment of the Mapbox vector tile specification 2.1). *)

Module vector_tile.

Definition ID_TAG : Z := 1.
Definition NAME_TAG : Z := 1.
Definition FEATURE_TAG : Z := 2.
Definition LAYER_TAG : Z := 3.
Definition GEOMETRY_TAG : Z := 3.
Definition KEY_TAG : Z := 3.
Definition VARIANT_TAG : Z := 4.
Definition EXTENT_TAG : Z := 5.
Definition VERSION_TAG : Z := 15.

Definition FEATURE_ATTRIBUTES_TAG : Z := 2.
Definition FEATURE_GEOMETRIES_TAG : Z := 4.

Definition GEOMETRY_TYPE_POINT : Z := 1.
Definition GEOMETRY_TYPE_LINE : Z := 2.

Definition VARIANT_TYPE_STRING : Z := 1.
Definition VARIANT_TYPE_DOUBLE : Z := 3.
Definition VARIANT_TYPE_UINT64 : Z := 5.
Definition VARIANT_TYPE_BOOL : Z := 7.

Definition EXTENT : Z := 4096.

End vector_tile.

(** ** Data model *)

(** [util::Coordinate]: fixed-point longitude and latitude. *)
Record Coordinate : Type := { lon : Z; lat : Z }.

Module SegmentID.
Record t : Type := { id : Z; enabled : bool }.
End SegmentID.

(** The leaves of the R-tree, which [GetEdgesInBox] returns: one segment of a
    node-based edge, with the data of both directions. *)
Module Edge.
Record t : Type := {
  forward_segment_id : SegmentID.t;
  reverse_segment_id : SegmentID.t;
  u : Z;
  v : Z;
  forward_packed_geometry_id : Z;
  reverse_packed_geometry_id : Z;
  is_tiny : bool;
  fwd_segment_position : Z;
}.
End Edge.

(** [contractor::QueryEdge::EdgeData], the fields the plugin reads. *)
Module EdgeData.
Record t : Type := { id : Z; distance : Z; forward : bool }.
End EdgeData.

(** [std::numeric_limits<unsigned>::max()]. *)
Definition SPECIAL_EDGEID : Z := 2 ^ 32 - 1.

Module TileParameters.
Record t : Type := { x : Z; y : Z; z : Z }.

(** Modelled from the spec: [api/tile_parameters.hpp], which defines
    [IsValid], is not among the sources.  Section 3 of the specification:
    x and y lie in [0, 2^z). *)
Definition IsValid (p : t) : bool :=
  (0 <=? x p) && (x p <? 2 ^ z p) && (0 <=? y p) && (y p <? 2 ^ z p).
End TileParameters.

(** Modelled from the spec: the enumeration [Status] is declared in
    [engine/status.hpp], which is not among the sources.  [tile.cpp] uses
    [Status::Ok]; section 7 of the specification names the two error
    signals. *)
Inductive Status : Type := Ok | InvalidArgument | DataInconsistency.

Module detail.

(** [FixedPoint = Point<std::int32_t>], [FloatPoint = Point<double>]. *)
Record Point (T : Type) : Type := { x : T; y : T }.
Arguments Build_Point {T} x y.
Arguments x {T} p.
Arguments y {T} p.

Definition FixedPoint : Type := Point Z.
Definition FloatPoint : Type := Point double.
Definition FixedLine : Type := list FixedPoint.
Definition FloatLine : Type := list FloatPoint.

Record BBox : Type := { minx : double; miny : double; maxx : double; maxy : double }.

Definition width (b : BBox) : double := Double.sub (maxx b) (minx b).
Definition height (b : BBox) : double := Double.sub (maxy b) (miny b).

Record TurnData : Type := {
  in_angle_offset : Z;
  out_angle_offset : Z;
  weight_offset : Z;
}.

(** The boost geometries: a point, a linestring, a box given by its
    minimal and maximal corners. *)
Definition point_t : Type := (double * double)%type.
Definition linestring_t : Type := list point_t.
Definition multi_linestring_t : Type := list linestring_t.
Definition box_t : Type := (point_t * point_t)%type.

End detail.

(** ** The collaborators of the plugin

    The data facade, the routing base and the helpers of [util] are parts of
    the program whose code is not in [tile.cpp]; boost geometry is a library.
    The plugin is parametrised by them. *)

Record DataFacade : Type := {
  GetEdgesInBox : Coordinate -> Coordinate -> list Edge.t;
  GetUncompressedWeights : Z -> list Z;
  GetUncompressedDatasources : Z -> list Z;
  GetUncompressedGeometry : Z -> list Z;
  GetCoordinateOfNode : Z -> Coordinate;
  GetAdjacentEdgeRange : Z -> list Z;
  GetEdgeData : Z -> EdgeData.t;
  GetTarget : Z -> Z;
  GetGeometryIndexForEdgeID : Z -> Z;
  GetDatasourceName : Z -> string;
}.

Record Collaborators : Type := {
  facade : DataFacade;
  (** [routing_base.UnpackEdgeToEdges (from, to, result)] *)
  UnpackEdgeToEdges : Z -> Z -> list EdgeData.t;
  (** [util::coordinate_calculation] *)
  bearing : Coordinate -> Coordinate -> double;
  haversineDistance : Coordinate -> Coordinate -> double;
  (** [util::web_mercator] *)
  xyzToWGS84 : Z -> Z -> Z -> double * double * double * double;
  xyzToMercator : Z -> Z -> Z -> double * double * double * double;
  latToY : double -> double;
  DEGREE_TO_PX : double;
  TILE_SIZE : double;
  (** [util::toFloating] and the constructor of [util::Coordinate] from
      floating degrees *)
  toFloating : Z -> double;
  toFixed : double -> Z;
  (** [util::vector_tile::BUFFER] *)
  BUFFER : double;
  (** [boost::geometry::intersection (box, linestring, result)] *)
  intersection : detail.box_t -> detail.linestring_t -> detail.multi_linestring_t;
  (** whether the build checks [BOOST_ASSERT] *)
  assertions_enabled : bool;
  (** the order in which the range-based [for] at line 369 visits the
      entries of the [std::unordered_map] built for an edge.  C++ leaves it
      unspecified (it follows the buckets, hence the hash and the order of
      the insertions); every entry is visited once. *)
  iteration_order : Edge.t -> gmap Z Z -> list (Z * Z);
  iteration_order_entries :
    forall edge c_nodes, iteration_order edge c_nodes ≡ₚ map_to_list c_nodes;
}.

(** ** Namespace [detail]: geometry encoding, projection and clipping *)

(** [protozero::encode_zigzag32]. *)
Definition encode_zigzag32 (value : Z) : Z :=
  Z.lxor (Int.uint32 (Z.shiftl value 1)) (Int.uint32 (Z.shiftr value 31)).

(** [detail::pbf::encode_length]. *)
Definition encode_length (len : Z) : Z := Int.uint32 (Z.lor (Z.shiftl len 3) 2).

(** [packed_field_uint32::add_element]: the argument is converted to
    [uint32_t] and appended. *)
Definition add_element (field : list Z) (value : Z) : list Z :=
  field ++ [Int.uint32 value].

(** [detail::encodeLinestring (line, geometry, start_x, start_y)]: the result
    is the returned flag, the elements of [geometry] and the final values of
    the two references. *)
Definition encodeLinestring (line : detail.FixedLine) (geometry : list Z)
    (start_x start_y : Z) : bool * list Z * Z * Z :=
  let line_size := vec_size line in
  if line_size <? 2 then (false, geometry, start_x, start_y)
  else
    match line with
    | [] => (false, geometry, start_x, start_y)
    | pt :: rest =>
        let line_to_length := Int.uint32 line_size - 1 in
        let geometry := add_element geometry 9 in
        let geometry :=
          add_element geometry (encode_zigzag32 (Int.int32 (detail.x pt - start_x))) in
        let geometry :=
          add_element geometry (encode_zigzag32 (Int.int32 (detail.y pt - start_y))) in
        let start_x := detail.x pt in
        let start_y := detail.y pt in
        let geometry := add_element geometry (encode_length line_to_length) in
        let '(geometry, start_x, start_y) :=
          fold_left
            (fun '(geometry, start_x, start_y) pt =>
               let dx := Int.int32 (detail.x pt - start_x) in
               let dy := Int.int32 (detail.y pt - start_y) in
               let geometry := add_element geometry (encode_zigzag32 dx) in
               let geometry := add_element geometry (encode_zigzag32 dy) in
               (geometry, detail.x pt, detail.y pt))
            rest (geometry, start_x, start_y) in
        (true, geometry, start_x, start_y)
    end.

(** [detail::encodePoint (pt, geometry)]. *)
Definition encodePoint (pt : detail.FixedPoint) (geometry : list Z) : bool * list Z :=
  let geometry := add_element geometry 9 in
  let dx := detail.x pt in
  let dy := detail.y pt in
  let geometry := add_element geometry (encode_zigzag32 dx) in
  let geometry := add_element geometry (encode_zigzag32 dy) in
  (true, geometry).

(** A loop that converts every element, stopping at the first failure. *)
Fixpoint otraverse {A B : Type} (f : A -> outcome B) (l : list A) : outcome (list B) :=
  match l with
  | [] => Returns []
  | a :: l' => let! b := f a in let! bs := otraverse f l' in Returns (b :: bs)
  end.

Section Geometry.

Variable env : Collaborators.

Definition EXTENT : double := Double.of_int vector_tile.EXTENT.

(** [detail::clip_box]: the tile, padded by [BUFFER] on every side. *)
Definition clip_box : detail.box_t :=
  ((SFopp (BUFFER env), SFopp (BUFFER env)),
   (Double.add EXTENT (BUFFER env), Double.add EXTENT (BUFFER env))).

(** Pixel abscissa and ordinate of a point given in degrees: the
    expression both [coordinatesToTileLine] and [coordinatesToTilePoint]
    round. *)
Definition tile_px (pt : detail.FloatPoint) (tile_bbox : detail.BBox) : double :=
  let px_merc := Double.mul (detail.x pt) (DEGREE_TO_PX env) in
  Double.round
    (Double.div
       (Double.mul
          (Double.div
             (Double.mul (Double.sub px_merc (detail.minx tile_bbox)) (TILE_SIZE env))
             (detail.width tile_bbox))
          EXTENT)
       (TILE_SIZE env)).

Definition tile_py (pt : detail.FloatPoint) (tile_bbox : detail.BBox) : double :=
  let py_merc := Double.mul (latToY env (detail.y pt)) (DEGREE_TO_PX env) in
  Double.round
    (Double.div
       (Double.mul
          (Double.div
             (Double.mul (Double.sub (detail.maxy tile_bbox) py_merc) (TILE_SIZE env))
             (detail.height tile_bbox))
          EXTENT)
       (TILE_SIZE env)).

(** [detail::coordinatesToTileLine (start, target, tile_bbox)]. *)
Definition coordinatesToTileLine (start target : Coordinate)
    (tile_bbox : detail.BBox) : outcome detail.FixedLine :=
  let geo_line : detail.FloatLine :=
    [ detail.Build_Point (toFloating env (lon start)) (toFloating env (lat start));
      detail.Build_Point (toFloating env (lon target)) (toFloating env (lat target)) ] in
  let unclipped_line : detail.linestring_t :=
    map (fun pt => (tile_px pt tile_bbox, tile_py pt tile_bbox)) geo_line in
  let clipped_line := intersection env clip_box unclipped_line in
  match clipped_line with
  | first :: _ =>
      if vec_size first =? 2
      then otraverse
             (fun p : detail.point_t =>
                let! px := Double.to_int32 (fst p) in
                let! py := Double.to_int32 (snd p) in
                Returns (detail.Build_Point px py))
             first
      else Returns []
  | [] => Returns []
  end.

(** [detail::coordinatesToTilePoint (point, tile_bbox)]. *)
Definition coordinatesToTilePoint (point : Coordinate)
    (tile_bbox : detail.BBox) : outcome detail.FixedPoint :=
  let geo_point : detail.FloatPoint :=
    detail.Build_Point (toFloating env (lon point)) (toFloating env (lat point)) in
  let! px := Double.to_int32 (tile_px geo_point tile_bbox) in
  let! py := Double.to_int32 (tile_py geo_point tile_bbox) in
  Returns (detail.Build_Point px py).

(** [boost::geometry::within (point, box)]: the interior of the box; a
    point on the border is not within it. *)
Definition within (p : detail.point_t) (box : detail.box_t) : bool :=
  SFltb (fst (fst box)) (fst p) && SFltb (fst p) (fst (snd box)) &&
  SFltb (snd (fst box)) (snd p) && SFltb (snd p) (snd (snd box)).

End Geometry.

(** ** [TilePlugin::HandleRequest] *)

(** The locals of [HandleRequest] that the two lambdas and the loops
    update. *)
Record Locals : Type := {
  used_line_ints : list Z;
  line_int_offsets : gmap Z Z;
  max_datasource_id : Z;
  used_point_ints : list Z;
  point_int_offsets : gmap Z Z;
  all_turn_data : list (list detail.TurnData);
}.

Definition initial_locals : Locals :=
  {| used_line_ints := []; line_int_offsets := ∅; max_datasource_id := 0;
     used_point_ints := []; point_int_offsets := ∅; all_turn_data := [] |}.

Definition set_line_table (used : list Z) (offsets : gmap Z Z) (st : Locals) : Locals :=
  {| used_line_ints := used; line_int_offsets := offsets;
     max_datasource_id := max_datasource_id st;
     used_point_ints := used_point_ints st;
     point_int_offsets := point_int_offsets st;
     all_turn_data := all_turn_data st |}.

Definition set_point_table (used : list Z) (offsets : gmap Z Z) (st : Locals) : Locals :=
  {| used_line_ints := used_line_ints st; line_int_offsets := line_int_offsets st;
     max_datasource_id := max_datasource_id st;
     used_point_ints := used; point_int_offsets := offsets;
     all_turn_data := all_turn_data st |}.

Definition set_max_datasource_id (m : Z) (st : Locals) : Locals :=
  {| used_line_ints := used_line_ints st; line_int_offsets := line_int_offsets st;
     max_datasource_id := m;
     used_point_ints := used_point_ints st;
     point_int_offsets := point_int_offsets st;
     all_turn_data := all_turn_data st |}.

Definition push_turn_data (edge_turn_data : list detail.TurnData) (st : Locals) : Locals :=
  {| used_line_ints := used_line_ints st; line_int_offsets := line_int_offsets st;
     max_datasource_id := max_datasource_id st;
     used_point_ints := used_point_ints st;
     point_int_offsets := point_int_offsets st;
     all_turn_data := all_turn_data st ++ [edge_turn_data] |}.

(** The lambda [use_line_value]: it returns nothing; the offset is read
    later from [line_int_offsets]. *)
Definition use_line_value (value : Z) (st : Locals) : Locals :=
  match line_int_offsets st !! value with
  | None =>
      let used := used_line_ints st ++ [value] in
      set_line_table used (<[value := vec_size used - 1]> (line_int_offsets st)) st
  | Some _ => st
  end.

(** The lambda [use_point_value]: it returns the offset. *)
Definition use_point_value (value : Z) (st : Locals) : Z * Locals :=
  match point_int_offsets st !! value with
  | None =>
      let used := used_point_ints st ++ [value] in
      let offset := vec_size used - 1 in
      (offset, set_point_table used (<[value := offset]> (point_int_offsets st)) st)
  | Some offset => (offset, st)
  end.

(** [std::unordered_map::emplace]: nothing is inserted when the key is
    already there. *)
Definition emplace (key value : Z) (m : gmap Z Z) : gmap Z Z :=
  match m !! key with
  | Some _ => m
  | None => <[key := value]> m
  end.

(** [std::unordered_map::operator[]]: a missing key is inserted with a
    value-initialised mapped value. *)
Definition subscript (key : Z) (m : gmap Z Z) : Z * gmap Z Z :=
  match m !! key with
  | Some value => (value, m)
  | None => (0, <[key := 0]> m)
  end.

(** [std::accumulate (first, last, 0)] on [int]. *)
Definition accumulate (v : list Z) : Z :=
  fold_left (fun sum w => Int.int32 (sum + w)) v 0.

Section HandleRequest.

Variable env : Collaborators.

Let F : DataFacade := facade env.

Definition BOOST_ASSERT (condition : bool) : outcome unit :=
  if assertions_enabled env && negb condition then Aborts else Returns tt.

(** Weight and datasource of the forward direction of a segment (lines
    285-294, and again 456-467); [None] when the edge has no forward
    geometry. *)
Definition forward_attributes (edge : Edge.t) : outcome (option (Z * Z)) :=
  if Edge.forward_packed_geometry_id edge =? SPECIAL_EDGEID then Returns None
  else
    let forward_weight_vector :=
      GetUncompressedWeights F (Edge.forward_packed_geometry_id edge) in
    let! forward_weight :=
      vec_at forward_weight_vector (Edge.fwd_segment_position edge) in
    let forward_datasource_vector :=
      GetUncompressedDatasources F (Edge.forward_packed_geometry_id edge) in
    let! forward_datasource :=
      vec_at forward_datasource_vector (Edge.fwd_segment_position edge) in
    Returns (Some (forward_weight, forward_datasource)).

(** Weight and datasource of the reverse direction (lines 387-404, and
    again 469-486): the arrays are read from their end. *)
Definition reverse_attributes (edge : Edge.t) : outcome (option (Z * Z)) :=
  if Edge.reverse_packed_geometry_id edge =? SPECIAL_EDGEID then Returns None
  else
    let reverse_weight_vector :=
      GetUncompressedWeights F (Edge.reverse_packed_geometry_id edge) in
    let! _ :=
      BOOST_ASSERT (Edge.fwd_segment_position edge <? vec_size reverse_weight_vector) in
    let! reverse_weight :=
      vec_at reverse_weight_vector
        (Int.size_sub
           (Int.size_sub (vec_size reverse_weight_vector) (Edge.fwd_segment_position edge))
           1) in
    let reverse_datasource_vector :=
      GetUncompressedDatasources F (Edge.reverse_packed_geometry_id edge) in
    let! reverse_datasource :=
      vec_at reverse_datasource_vector
        (Int.size_sub
           (Int.size_sub (vec_size reverse_datasource_vector)
              (Edge.fwd_segment_position edge))
           1) in
    Returns (Some (reverse_weight, reverse_datasource)).

(** The body of the loop over the adjacent shortcuts (lines 325-359). *)
Definition shortcut_turn (edge : Edge.t) (sum_node_weight : Z) (adj_shortcut : Z)
    (c_nodes : gmap Z Z) : outcome (gmap Z Z) :=
  if negb (EdgeData.forward (GetEdgeData F adj_shortcut)) then Returns c_nodes
  else
    let unpacked_shortcut :=
      UnpackEdgeToEdges env (SegmentID.id (Edge.forward_segment_id edge))
        (GetTarget F adj_shortcut) in
    if vec_size unpacked_shortcut <? 2 then Returns c_nodes
    else
      let! second := vec_at unpacked_shortcut 1 in
      let first_geometry_id := GetGeometryIndexForEdgeID F (EdgeData.id second) in
      let first_geometry_vector := GetUncompressedGeometry F first_geometry_id in
      let! first := vec_at unpacked_shortcut 0 in
      let sum_edge_weight := EdgeData.distance first in
      let turn_weight := Int.int32 (sum_edge_weight - sum_node_weight) in
      let! next_node := vec_front first_geometry_vector in
      Returns (emplace next_node turn_weight c_nodes).

(** The body of the loop over [c_nodes] (lines 369-382). *)
Definition turn_record (coord_b : Coordinate) (angle_in_offset : Z)
    (possible_next_node : Z * Z) (s : Locals * list detail.TurnData)
    : outcome (Locals * list detail.TurnData) :=
  let '(st, edge_turn_data) := s in
  let coord_c := GetCoordinateOfNode F (fst possible_next_node) in
  let! c_bearing := Double.to_uint64 (bearing env coord_b coord_c) in
  let '(angle_out_offset, st) := use_point_value (Int.int32 c_bearing) st in
  let '(angle_weight_offset, st) := use_point_value (snd possible_next_node) st in
  Returns
    (st,
     edge_turn_data ++
       [ {| detail.in_angle_offset := angle_in_offset;
            detail.out_angle_offset := angle_out_offset;
            detail.weight_offset := angle_weight_offset |} ]).

(** The turns at the intersection a last segment leads to (lines
    303-384).  The entries of [c_nodes] are visited in the order
    [iteration_order] gives for this edge and this map. *)
Definition intersection_turns (edge : Edge.t) (forward_weight_vector : list Z)
    (forward_node_vector : list Z) (st : Locals)
    : outcome (Locals * list detail.TurnData) :=
  let sum_node_weight := accumulate forward_weight_vector in
  let! before :=
    (if 1 <? vec_size forward_node_vector
     then vec_at forward_node_vector (Int.size_sub (vec_size forward_node_vector) 2)
     else Returns (Edge.u edge)) in
  let coord_a := GetCoordinateOfNode F before in
  let coord_b := GetCoordinateOfNode F (Edge.v edge) in
  let! c_nodes :=
    ofold (shortcut_turn edge sum_node_weight)
      (GetAdjacentEdgeRange F (SegmentID.id (Edge.forward_segment_id edge))) ∅ in
  let! angle_in := Double.to_uint64 (bearing env coord_a coord_b) in
  if 0 <? Z.of_nat (size c_nodes)
  then
    let '(angle_in_offset, st) := use_point_value (Int.int32 angle_in) st in
    ofold (turn_record coord_b angle_in_offset) (iteration_order env edge c_nodes)
      (st, [])
  else Returns (st, []).

(** Whether the segment is the last one of its node-based edge. *)
Definition last_segment (edge : Edge.t) (forward_node_vector : list Z) : bool :=
  Edge.fwd_segment_position edge =? Int.size_sub (vec_size forward_node_vector) 1.

(** The body of the first loop over the edges (lines 276-411). *)
Definition tally_edge (edge : Edge.t) (st : Locals) : outcome Locals :=
  let! forward := forward_attributes edge in
  let! '(forward_datasource, st, edge_turn_data) :=
    match forward with
    | None => Returns (0, st, [])
    | Some (forward_weight, forward_datasource) =>
        let st := use_line_value forward_weight st in
        let forward_node_vector :=
          GetUncompressedGeometry F (Edge.forward_packed_geometry_id edge) in
        if last_segment edge forward_node_vector
        then
          let! '(st, edge_turn_data) :=
            intersection_turns edge
              (GetUncompressedWeights F (Edge.forward_packed_geometry_id edge))
              forward_node_vector st in
          Returns (forward_datasource, st, edge_turn_data)
        else Returns (forward_datasource, st, [])
    end in
  let! reverse := reverse_attributes edge in
  let '(reverse_datasource, st) :=
    match reverse with
    | None => (0, st)
    | Some (reverse_weight, reverse_datasource) =>
        (reverse_datasource, use_line_value reverse_weight st)
    end in
  let st := set_max_datasource_id (Z.max (max_datasource_id st) forward_datasource) st in
  let st := set_max_datasource_id (Z.max (max_datasource_id st) reverse_datasource) st in
  Returns (push_turn_data edge_turn_data st).

(** The lambda [encode_tile_line] (lines 493-541).  It captures [edge], the
    feature counter [id], [max_datasource_id] and the layer writer; the
    counter and the writer are returned. *)
Definition encode_tile_line (edge : Edge.t) (max_datasource_id : Z)
    (tile_line : detail.FixedLine) (speed_kmh duration datasource : Z)
    (start_x start_y : Z) (id : Z) (line_layer_writer : list pbf_field)
    : Z * list pbf_field :=
  let field := [] in
  let field := add_element field 0 in
  let field := add_element field (Z.min speed_kmh 127) in
  let field := add_element field 1 in
  let field := add_element field (128 + (if Edge.is_tiny edge then 0 else 1)) in
  let field := add_element field 2 in
  let field := add_element field (130 + datasource) in
  let field := add_element field 3 in
  let field := add_element field (130 + max_datasource_id + 1 + duration) in
  let '(_, geometry, _, _) := encodeLinestring tile_line [] start_x start_y in
  let feature_writer :=
    [ add_enum vector_tile.GEOMETRY_TAG vector_tile.GEOMETRY_TYPE_LINE;
      add_uint64 vector_tile.ID_TAG id;
      packed_field_uint32 vector_tile.FEATURE_ATTRIBUTES_TAG field;
      packed_field_uint32 vector_tile.FEATURE_GEOMETRIES_TAG geometry ] in
  (Int.uint32 (id + 1),
   line_layer_writer ++ [pbf_writer vector_tile.FEATURE_TAG feature_writer]).

(** [round (length / weight * 10 * 3.6)] converted to [std::uint32_t]
    (lines 550-551 and 569-570). *)
Definition speed_kmh_of (length : double) (weight : Z) : outcome Z :=
  Double.to_uint32
    (Double.round
       (Double.mul
          (Double.mul (Double.div length (Double.of_int weight)) (Double.of_int 10))
          Double.lit_3_6)).

(** One direction of an edge in the line layer (lines 544-559; 563-578 with
    the two ends exchanged). *)
Definition line_direction (edge : Edge.t) (tile_bbox : detail.BBox) (length : double)
    (weight datasource : Z) (segment_id : SegmentID.t) (from to : Coordinate)
    (s : Locals * Z * list pbf_field) : outcome (Locals * Z * list pbf_field) :=
  let '(st, id, line_layer_writer) := s in
  if negb (weight =? 0) && SegmentID.enabled segment_id
  then
    let start_x := 0 in
    let start_y := 0 in
    let! speed_kmh := speed_kmh_of length weight in
    let! tile_line := coordinatesToTileLine env from to tile_bbox in
    match tile_line with
    | [] => Returns s
    | _ :: _ =>
        let '(duration, offsets) := subscript weight (line_int_offsets st) in
        let st := set_line_table (used_line_ints st) offsets st in
        let '(id, line_layer_writer) :=
          encode_tile_line edge (max_datasource_id st) tile_line speed_kmh duration
            datasource start_x start_y id line_layer_writer in
        Returns (st, id, line_layer_writer)
    end
  else Returns s.

(** The body of the loop over the edges in the line layer (lines
    441-579). *)
Definition line_features (tile_bbox : detail.BBox) (edge : Edge.t)
    (s : Locals * Z * list pbf_field) : outcome (Locals * Z * list pbf_field) :=
  let '(st, id, line_layer_writer) := s in
  let a := GetCoordinateOfNode F (Edge.u edge) in
  let b := GetCoordinateOfNode F (Edge.v edge) in
  let length := haversineDistance env a b in
  let! forward := forward_attributes edge in
  let '(forward_weight, forward_datasource) := default (0, 0) forward in
  let! reverse := reverse_attributes edge in
  let '(reverse_weight, reverse_datasource) := default (0, 0) reverse in
  let st := set_max_datasource_id (Z.max (max_datasource_id st) forward_datasource) st in
  let st := set_max_datasource_id (Z.max (max_datasource_id st) reverse_datasource) st in
  let! s :=
    line_direction edge tile_bbox length forward_weight forward_datasource
      (Edge.forward_segment_id edge) a b (st, id, line_layer_writer) in
  line_direction edge tile_bbox length reverse_weight reverse_datasource
    (Edge.reverse_segment_id edge) b a s.

(** A message of the values array (field 4 of a layer). *)
Definition variant (value : pbf_field) : pbf_field :=
  pbf_writer vector_tile.VARIANT_TAG [value].

(** The values array of the line layer (lines 593-631). *)
Definition line_values (st : Locals) : list pbf_field :=
  map (fun i => variant (add_uint64 vector_tile.VARIANT_TYPE_UINT64 (Z.of_nat i)))
    (seq 0 128)
  ++ [ variant (add_bool vector_tile.VARIANT_TYPE_BOOL true) ]
  ++ [ variant (add_bool vector_tile.VARIANT_TYPE_BOOL false) ]
  ++ map (fun i =>
            variant (add_string vector_tile.VARIANT_TYPE_STRING
                       (GetDatasourceName F (Z.of_nat i))))
       (seq 0 (Z.to_nat (max_datasource_id st + 1)))
  ++ map (fun value =>
            variant (add_double vector_tile.VARIANT_TYPE_DOUBLE
                       (Double.div (Double.of_int value) (Double.of_int 10))))
       (used_line_ints st).

(** The block that writes the layer of the lines (lines 424-632). *)
Definition line_layer (edges : list Edge.t) (tile_bbox : detail.BBox) (st : Locals)
    : outcome (Locals * pbf_field) :=
  let line_layer_writer :=
    [ add_uint32 vector_tile.VERSION_TAG 2;
      add_string vector_tile.NAME_TAG "speeds";
      add_uint32 vector_tile.EXTENT_TAG vector_tile.EXTENT ] in
  let id := 1 in
  let! '(st, _, line_layer_writer) :=
    ofold (line_features tile_bbox) edges (st, id, line_layer_writer) in
  let line_layer_writer :=
    line_layer_writer ++
      [ add_string vector_tile.KEY_TAG "speed";
        add_string vector_tile.KEY_TAG "is_small";
        add_string vector_tile.KEY_TAG "datasource";
        add_string vector_tile.KEY_TAG "duration" ] in
  let line_layer_writer := line_layer_writer ++ line_values st in
  Returns (st, pbf_writer vector_tile.LAYER_TAG line_layer_writer).

(** The lambda [encode_tile_point] (lines 672-701). *)
Definition encode_tile_point (tile_point : detail.FixedPoint)
    (point_turn_data : detail.TurnData) (s : Z * list pbf_field) : Z * list pbf_field :=
  let '(id, point_layer_writer) := s in
  let field := [] in
  let field := add_element field 0 in
  let field := add_element field (detail.in_angle_offset point_turn_data) in
  let field := add_element field 1 in
  let field := add_element field (detail.out_angle_offset point_turn_data) in
  let field := add_element field 2 in
  let field := add_element field (detail.weight_offset point_turn_data) in
  let '(_, geometry) := encodePoint tile_point [] in
  let feature_writer :=
    [ add_enum vector_tile.GEOMETRY_TAG vector_tile.GEOMETRY_TYPE_POINT;
      add_uint64 vector_tile.ID_TAG id;
      packed_field_uint32 vector_tile.FEATURE_ATTRIBUTES_TAG field;
      packed_field_uint32 vector_tile.FEATURE_GEOMETRIES_TAG geometry ] in
  (Int.uint32 (id + 1),
   point_layer_writer ++ [pbf_writer vector_tile.FEATURE_TAG feature_writer]).

(** The body of the loop over the indices of the edges in the point layer
    (lines 651-716). *)
Definition point_features (edges : list Edge.t) (tile_bbox : detail.BBox)
    (st : Locals) (i : nat) (s : Z * list pbf_field) : outcome (Z * list pbf_field) :=
  let! edge := vec_at edges (Z.of_nat i) in
  let! edge_turn_data := vec_at (all_turn_data st) (Z.of_nat i) in
  match edge_turn_data with
  | [] => Returns s
  | _ :: _ =>
      let forward_node_vector :=
        GetUncompressedGeometry F (Edge.forward_packed_geometry_id edge) in
      if negb (last_segment edge forward_node_vector) then Returns s
      else
        let turn_coordinate := GetCoordinateOfNode F (Edge.v edge) in
        let! tile_point := coordinatesToTilePoint env turn_coordinate tile_bbox in
        if negb (within
                   (Double.of_int (detail.x tile_point),
                    Double.of_int (detail.y tile_point))
                   (clip_box env))
        then Returns s
        else Returns (fold_left (fun s individual_turn =>
                                   encode_tile_point tile_point individual_turn s)
                        edge_turn_data s)
  end.

(** The block that writes the layer of the turns (lines 634-735). *)
Definition point_layer (edges : list Edge.t) (tile_bbox : detail.BBox) (st : Locals)
    : outcome pbf_field :=
  let point_layer_writer :=
    [ add_uint32 vector_tile.VERSION_TAG 2;
      add_string vector_tile.NAME_TAG "turns";
      add_uint32 vector_tile.EXTENT_TAG vector_tile.EXTENT ] in
  let id := 1 in
  let! '(_, point_layer_writer) :=
    ofold (point_features edges tile_bbox st) (seq 0 (length edges))
      (id, point_layer_writer) in
  let point_layer_writer :=
    point_layer_writer ++
      [ add_string vector_tile.KEY_TAG "bearing_in";
        add_string vector_tile.KEY_TAG "bearing_out";
        add_string vector_tile.KEY_TAG "weight" ] in
  let point_layer_writer :=
    point_layer_writer ++
      map (fun value =>
             variant (add_uint64 vector_tile.VARIANT_TYPE_UINT64 (Int.uint64 value)))
        (used_point_ints st) in
  Returns (pbf_writer vector_tile.LAYER_TAG point_layer_writer).

(** The edges of the request: the segments in the box of the tile (lines
    220-231). *)
Definition edges_of (parameters : TileParameters.t) : list Edge.t :=
  let '(min_lon, min_lat, max_lon, max_lat) :=
    xyzToWGS84 env (TileParameters.x parameters) (TileParameters.y parameters)
      (TileParameters.z parameters) in
  let southwest := {| lon := toFixed env min_lon; lat := toFixed env min_lat |} in
  let northeast := {| lon := toFixed env max_lon; lat := toFixed env max_lat |} in
  GetEdgesInBox F southwest northeast.

(** The box of the tile in Mercator coordinates (lines 416-418). *)
Definition tile_bbox_of (parameters : TileParameters.t) : detail.BBox :=
  let '(min_lon, min_lat, max_lon, max_lat) :=
    xyzToMercator env (TileParameters.x parameters) (TileParameters.y parameters)
      (TileParameters.z parameters) in
  {| detail.minx := min_lon; detail.miny := min_lat;
     detail.maxx := max_lon; detail.maxy := max_lat |}.

(** What [HandleRequest] writes through [tile_writer]: the two layers. *)
Definition tile_writer (parameters : TileParameters.t) : outcome (list pbf_field) :=
  let! _ := BOOST_ASSERT (TileParameters.IsValid parameters) in
  let edges := edges_of parameters in
  let! st := ofold tally_edge edges initial_locals in
  let tile_bbox := tile_bbox_of parameters in
  let! '(st, speeds) := line_layer edges tile_bbox st in
  let! turns := point_layer edges tile_bbox st in
  Returns [speeds; turns].

(** [TilePlugin::HandleRequest (parameters, pbf_buffer)]: the status
    returned and the final content of the buffer. *)
Definition HandleRequest (parameters : TileParameters.t) (pbf_buffer : list Z)
    : outcome (Status * list Z) :=
  let! tile := tile_writer parameters in
  Returns (Ok, pbf_buffer ++ Wire.pbf_bytes tile).

End HandleRequest.

(** ** Notions used in the statements *)

(** *** Executions that return *)


(** *** Builds *)

(** The same collaborators in a build that does not check assertions
    ([BOOST_ASSERT] expands to nothing). *)
Definition without_assertions (env : Collaborators) : Collaborators :=
  {| facade := facade env;
     UnpackEdgeToEdges := UnpackEdgeToEdges env;
     bearing := bearing env;
     haversineDistance := haversineDistance env;
     xyzToWGS84 := xyzToWGS84 env;
     xyzToMercator := xyzToMercator env;
     latToY := latToY env;
     DEGREE_TO_PX := DEGREE_TO_PX env;
     TILE_SIZE := TILE_SIZE env;
     toFloating := toFloating env;
     toFixed := toFixed env;
     BUFFER := BUFFER env;
     intersection := intersection env;
     assertions_enabled := false;
     iteration_order := iteration_order env;
     iteration_order_entries := iteration_order_entries env |}.

(** *** Interning tables *)

(** A table is a vector of values and a map from values to offsets; they
    agree when the map sends a value to an offset exactly when the vector
    holds the value there. *)
Definition table_ok (used : list Z) (offsets : gmap Z Z) : Prop :=
  forall value offset,
    offsets !! value = Some offset <->
    0 <= offset /\ used !! Z.to_nat offset = Some value.

(** The distinct elements of a list, in the order of their first
    occurrences. *)
Fixpoint first_seen (l : list Z) : list Z :=
  match l with
  | [] => []
  | value :: l' => value :: filter (fun other => other <> value) (first_seen l')
  end.

(** The locals after the given calls of one of the lambdas, in a fresh
    request. *)
Definition line_interned (values : list Z) : Locals :=
  fold_left (fun st value => use_line_value value st) values initial_locals.

Definition point_interned (values : list Z) : Locals :=
  fold_left (fun st value => snd (use_point_value value st)) values initial_locals.

(** *** Reading a tile *)

(** The fields written in the first and in the second layer of a tile. *)
Definition speeds_of (tile : list pbf_field) : list pbf_field :=
  match tile with
  | pbf_writer _ fields :: _ => fields
  | _ => []
  end.

Definition turns_of (tile : list pbf_field) : list pbf_field :=
  match tile with
  | _ :: pbf_writer _ fields :: _ => fields
  | _ => []
  end.

Definition has_tag (tag : Z) (f : pbf_field) : bool :=
  match f with
  | pbf_writer tag' _ => tag' =? tag
  | _ => false
  end.

(** The features of a layer (field 2) and its values (field 4), in the
    order in which they were written. *)
Definition layer_features (layer : list pbf_field) : list pbf_field :=
  List.filter (has_tag vector_tile.FEATURE_TAG) layer.

Definition layer_values (layer : list pbf_field) : list pbf_field :=
  List.filter (has_tag vector_tile.VARIANT_TAG) layer.

Definition packed_elements (tag : Z) (f : pbf_field) : list Z :=
  match f with
  | packed_field_uint32 tag' elements => if tag' =? tag then elements else []
  | _ => []
  end.

(** The attribute pairs of a feature (field 2) and its geometry (field 4). *)
Definition feature_tags (feature : pbf_field) : list Z :=
  match feature with
  | pbf_writer _ fields =>
      flat_map (packed_elements vector_tile.FEATURE_ATTRIBUTES_TAG) fields
  | _ => []
  end.

Definition feature_geometry (feature : pbf_field) : list Z :=
  match feature with
  | pbf_writer _ fields =>
      flat_map (packed_elements vector_tile.FEATURE_GEOMETRIES_TAG) fields
  | _ => []
  end.

(** The geometry type of a feature (field 3). *)
Definition feature_type (feature : pbf_field) : list Z :=
  match feature with
  | pbf_writer _ fields =>
      flat_map (fun f => match f with
                         | add_enum tag type =>
                             if tag =? vector_tile.GEOMETRY_TAG then [type] else []
                         | _ => []
                         end) fields
  | _ => []
  end.

(** The id of a feature (field 1). *)
Definition feature_id (feature : pbf_field) : list Z :=
  match feature with
  | pbf_writer _ fields =>
      flat_map (fun f => match f with
                         | add_uint64 tag id =>
                             if tag =? vector_tile.ID_TAG then [id] else []
                         | _ => []
                         end) fields
  | _ => []
  end.

(** Features written one after the other by a counter that starts at [id]:
    the i-th of them has the id [id + i], in 32 bits. *)
Definition counted_from (id : Z) (features : list pbf_field) : Prop :=
  forall i f, features !! i = Some f -> feature_id f = [Int.uint32 (id + Z.of_nat i)].

(** The keys of a layer (field 3), in the order in which they were
    written. *)
Definition layer_keys (layer : list pbf_field) : list string :=
  flat_map (fun f => match f with
                     | add_string tag key =>
                         if tag =? vector_tile.KEY_TAG then [key] else []
                     | _ => []
                     end) layer.

(** The message the layer of the turns holds for an interned value (lines
    725-732): the [int] is converted to the [uint64_t] that [add_uint64]
    takes. *)
Definition turn_value (value : Z) : pbf_field :=
  pbf_writer vector_tile.VARIANT_TAG
    [add_uint64 vector_tile.VARIANT_TYPE_UINT64 (Int.uint64 value)].

(** *** Reading the bytes of a tile *)

Definition field_tag (f : pbf_field) : Z :=
  match f with
  | add_uint32 tag _ | add_uint64 tag _ | add_enum tag _ | add_bool tag _
  | add_string tag _ | add_double tag _ | packed_field_uint32 tag _
  | pbf_writer tag _ => tag
  end.

(** The bytes of the value of a length-delimited field. *)
Definition field_payload (f : pbf_field) : list Z :=
  match f with
  | add_string _ s => Wire.string_bytes s
  | packed_field_uint32 _ elements => concat (map Wire.write_varint elements)
  | pbf_writer _ fields => Wire.pbf_bytes fields
  | _ => []
  end.

(** What a reader of the wire format finds for a field: nothing for a
    submessage or packed field that was rolled back. *)
Definition wire_of (f : pbf_field) : option (Z * Wire.wire_value) :=
  match f with
  | add_uint32 tag v | add_uint64 tag v | add_enum tag v =>
      Some (tag, Wire.wire_varint (Int.uint64 v))
  | add_bool tag b => Some (tag, Wire.wire_varint (if b then 1 else 0))
  | add_string tag s => Some (tag, Wire.wire_bytes (Wire.string_bytes s))
  | add_double tag d => Some (tag, Wire.wire_fixed64 (Wire.le64 (Double.bits d)))
  | packed_field_uint32 tag _ | pbf_writer tag _ =>
      match field_payload f with
      | [] => None
      | payload => Some (tag, Wire.wire_bytes payload)
      end
  end.

(** A field fits the format when its tag has at most 29 bits and the length
    of its value at most 32. *)
Definition fits (f : pbf_field) : Prop :=
  0 <= field_tag f < 2 ^ 29 /\ vec_size (field_payload f) < 2 ^ 32.

(** The values of the fields of a message that have a given tag. *)
Definition fields_with (tag : Z) (message : list (Z * Wire.wire_value))
    : list Wire.wire_value :=
  map snd (List.filter (fun field => fst field =? tag) message).

(** A tile is a message whose fields are layers (field 3); a layer is a
    message. *)
Definition decode_layer (field : Z * Wire.wire_value)
    : option (list (Z * Wire.wire_value)) :=
  match field with
  | (tag, Wire.wire_bytes bytes) =>
      if tag =? vector_tile.LAYER_TAG then Wire.read_message bytes else None
  | _ => None
  end.

Definition decode_tile (bytes : list Z) : option (list (list (Z * Wire.wire_value))) :=
  match Wire.read_message bytes with
  | Some fields => mapM decode_layer fields
  | None => None
  end.

(** *** Association lists *)

(** The value of the first pair with the given key. *)
Fixpoint first_value (key : Z) (pairs : list (Z * Z)) : option Z :=
  match pairs with
  | [] => None
  | (key', value) :: pairs' =>
      if decide (key' = key) then Some value else first_value key pairs'
  end.


(** *** Reading a geometry *)

(** [protozero::decode_zigzag32]. *)
Definition decode_zigzag32 (value : Z) : Z :=
  Z.lxor (Z.shiftr value 1) (- Z.land value 1).

(** The vertices of a LineTo command with [count] pairs of parameters, the
    cursor being at [cursor]. *)
Fixpoint line_to (count : nat) (parameters : list Z) (cursor : detail.FixedPoint)
    : option (detail.FixedLine * list Z) :=
  match count with
  | O => Some ([], parameters)
  | S count' =>
      match parameters with
      | dx :: dy :: rest =>
          let pt :=
            detail.Build_Point
              (Int.int32 (detail.x cursor + decode_zigzag32 dx))
              (Int.int32 (detail.y cursor + decode_zigzag32 dy)) in
          match line_to count' rest pt with
          | Some (pts, rest') => Some (pt :: pts, rest')
          | None => None
          end
      | _ => None
      end
  end.

(** The vertices of a geometry that is one linestring: MoveTo with count 1
    (the integer 9), then LineTo (command 2, the count in the bits above the
    low three), and nothing after it. *)
Definition decode_linestring (geometry : list Z) : option detail.FixedLine :=
  match geometry with
  | move_to :: dx :: dy :: command :: parameters =>
      if (move_to =? 9) && (Z.land command 7 =? 2)
      then
        let first :=
          detail.Build_Point (Int.int32 (decode_zigzag32 dx))
            (Int.int32 (decode_zigzag32 dy)) in
        match line_to (Z.to_nat (Z.shiftr command 3)) parameters first with
        | Some (pts, []) => Some (first :: pts)
        | _ => None
        end
      else None
  | _ => None
  end.

(** The vertex of a geometry that is one point: MoveTo with count 1. *)
Definition decode_point (geometry : list Z) : option detail.FixedPoint :=
  match geometry with
  | [move_to; dx; dy] =>
      if move_to =? 9
      then Some (detail.Build_Point (Int.int32 (decode_zigzag32 dx))
                   (Int.int32 (decode_zigzag32 dy)))
      else None
  | _ => None
  end.


(** *** What the facade says about the edges *)

Section Observed.

Variable env : Collaborators.

(** Weight and datasource of a direction of an edge, when the edge has that
    direction and the facade holds an entry for the segment. *)
Definition forward_of (edge : Edge.t) : option (Z * Z) :=
  match forward_attributes env edge with
  | Returns attributes => attributes
  | _ => None
  end.

Definition reverse_of (edge : Edge.t) : option (Z * Z) :=
  match reverse_attributes env edge with
  | Returns attributes => attributes
  | _ => None
  end.

(** The weights in the order in which the first loop meets them: edge by
    edge, forward before reverse. *)
Definition weights_met (edges : list Edge.t) : list Z :=
  flat_map
    (fun edge =>
       option_list (fst <$> forward_of edge) ++ option_list (fst <$> reverse_of edge))
    edges.

(** The datasource ids of all directions of all edges. *)
Definition datasources_met (edges : list Edge.t) : list Z :=
  flat_map
    (fun edge =>
       option_list (snd <$> forward_of edge) ++ option_list (snd <$> reverse_of edge))
    edges.

(** The largest of them; [0] when there is none, as datasource ids are
    unsigned. *)
Definition max_datasource (edges : list Edge.t) : Z :=
  fold_left Z.max (datasources_met edges) 0.

(** *** The directions of the edges that are drawn *)

Inductive direction : Type := Forward | Reverse.

Definition attributes_of (edge : Edge.t) (d : direction) : option (Z * Z) :=
  match d with
  | Forward => forward_of edge
  | Reverse => reverse_of edge
  end.

(** As in the code, the weight and the datasource of a direction the edge
    does not have are [0]. *)
Definition weight_of (edge : Edge.t) (d : direction) : Z :=
  default 0 (fst <$> attributes_of edge d).

Definition datasource_of (edge : Edge.t) (d : direction) : Z :=
  default 0 (snd <$> attributes_of edge d).

Definition segment_of (edge : Edge.t) (d : direction) : SegmentID.t :=
  match d with
  | Forward => Edge.forward_segment_id edge
  | Reverse => Edge.reverse_segment_id edge
  end.

(** The coordinate a direction starts from and the one it leads to. *)
Definition source_of (edge : Edge.t) (d : direction) : Coordinate :=
  GetCoordinateOfNode (facade env)
    (match d with Forward => Edge.u edge | Reverse => Edge.v edge end).

Definition target_of (edge : Edge.t) (d : direction) : Coordinate :=
  GetCoordinateOfNode (facade env)
    (match d with Forward => Edge.v edge | Reverse => Edge.u edge end).

(** The length of the edge in meters: the great-circle distance of its
    ends. *)
Definition length_of (edge : Edge.t) : double :=
  haversineDistance env
    (GetCoordinateOfNode (facade env) (Edge.u edge))
    (GetCoordinateOfNode (facade env) (Edge.v edge)).

(** The linestrings boost returns for the segment between two coordinates:
    the projected segment clipped by the padded box. *)
Definition clipped_line_of (start target : Coordinate) (tile_bbox : detail.BBox)
    : detail.multi_linestring_t :=
  intersection env (clip_box env)
    (map (fun pt => (tile_px env pt tile_bbox, tile_py env pt tile_bbox))
       [ detail.Build_Point (toFloating env (lon start)) (toFloating env (lat start));
         detail.Build_Point (toFloating env (lon target)) (toFloating env (lat target)) ]).

(** The pixel a point of a clipped linestring is converted to. *)
Definition pixel_of (p : detail.point_t) (pixel : detail.FixedPoint) : Prop :=
  Double.truncate (fst p) = Some (detail.x pixel) /\
  Double.truncate (snd p) = Some (detail.y pixel) /\
  - 2 ^ 31 <= detail.x pixel < 2 ^ 31 /\
  - 2 ^ 31 <= detail.y pixel < 2 ^ 31.

(** The clipped line of a direction; empty when there is none. *)
Definition tile_line_of (tile_bbox : detail.BBox) (edge : Edge.t) (d : direction)
    : detail.FixedLine :=
  match coordinatesToTileLine env (source_of edge d) (target_of edge d) tile_bbox with
  | Returns tile_line => tile_line
  | _ => []
  end.

Definition speed_of (edge : Edge.t) (d : direction) : Z :=
  match speed_kmh_of (length_of edge) (weight_of edge d) with
  | Returns speed_kmh => speed_kmh
  | _ => 0
  end.

Definition nonempty {A : Type} (l : list A) : bool :=
  match l with
  | [] => false
  | _ :: _ => true
  end.

(** A direction is drawn when its weight is not zero, its segment is
    enabled and its clipped line is not empty. *)
Definition drawn (tile_bbox : detail.BBox) (ed : Edge.t * direction) : bool :=
  negb (weight_of (fst ed) (snd ed) =? 0)
  && SegmentID.enabled (segment_of (fst ed) (snd ed))
  && nonempty (tile_line_of tile_bbox (fst ed) (snd ed)).

(** All directions, edge by edge, forward before reverse. *)
Definition directions (edges : list Edge.t) : list (Edge.t * direction) :=
  flat_map (fun edge => [(edge, Forward); (edge, Reverse)]) edges.

Definition drawn_directions (tile_bbox : detail.BBox) (edges : list Edge.t)
    : list (Edge.t * direction) :=
  List.filter (drawn tile_bbox) (directions edges).

(** The position of the first occurrence of a value in a list. *)
Definition offset_of (values : list Z) (value : Z) : Z :=
  match list_find (fun other => other = value) values with
  | Some (i, _) => Z.of_nat i
  | None => 0
  end.

(** The line feature of a drawn direction, written with the counter at
    [id]: what [encode_tile_line] writes for the data of the direction. *)
Definition draw (edges : list Edge.t) (tile_bbox : detail.BBox)
    (s : Z * list pbf_field) (ed : Edge.t * direction) : Z * list pbf_field :=
  encode_tile_line (fst ed) (max_datasource edges)
    (tile_line_of tile_bbox (fst ed) (snd ed))
    (speed_of (fst ed) (snd ed))
    (offset_of (first_seen (weights_met edges)) (weight_of (fst ed) (snd ed)))
    (datasource_of (fst ed) (snd ed))
    0 0 (fst s) (snd s).

(** The feature [f] is the one [encode_tile_line] writes for the direction
    [ed], at some value of the feature counter. *)
Definition drawn_as (edges : list Edge.t) (tile_bbox : detail.BBox)
    (ed : Edge.t * direction) (f : pbf_field) : Prop :=
  exists id, snd (draw edges tile_bbox (id, []) ed) = [f].

(** *** The turns at an intersection *)

(** The turn a shortcut stands for, as section 4.4 of the specification
    describes it: nothing for a shortcut without forward travel or one that
    unpacks to fewer than two edges; otherwise the first node of the
    geometry of the second unpacked edge, with the weight of the first
    unpacked edge minus the weight of the node-based edge. *)
Definition turn_of_shortcut (edge : Edge.t) (sum_node_weight : Z) (adj_shortcut : Z)
    : option (Z * Z) :=
  if EdgeData.forward (GetEdgeData (facade env) adj_shortcut)
  then
    match UnpackEdgeToEdges env (SegmentID.id (Edge.forward_segment_id edge))
            (GetTarget (facade env) adj_shortcut) with
    | first :: second :: _ =>
        match GetUncompressedGeometry (facade env)
                (GetGeometryIndexForEdgeID (facade env) (EdgeData.id second)) with
        | next_node :: _ =>
            Some (next_node, Int.int32 (EdgeData.distance first - sum_node_weight))
        | [] => None
        end
    | _ => None
    end
  else None.

(** The turns of the shortcuts adjacent to the forward segment of an edge,
    in the order in which the loop meets them. *)
Definition turns_met (edge : Edge.t) (sum_node_weight : Z) : list (Z * Z) :=
  omap (turn_of_shortcut edge sum_node_weight)
    (GetAdjacentEdgeRange (facade env) (SegmentID.id (Edge.forward_segment_id edge))).

(** *** The turns that are marked *)

(** The pixel of the node an edge leads to; the origin when the projection
    has no value. *)
Definition tile_point_of (tile_bbox : detail.BBox) (edge : Edge.t) : detail.FixedPoint :=
  match coordinatesToTilePoint env (GetCoordinateOfNode (facade env) (Edge.v edge))
          tile_bbox with
  | Returns tile_point => tile_point
  | _ => detail.Build_Point 0 0
  end.

(** An edge with its turn records is marked when there is a record, the
    segment is the last one of its node-based edge, and the pixel of its end
    lies strictly inside the padded box. *)
Definition marked (tile_bbox : detail.BBox)
    (et : Edge.t * list detail.TurnData) : bool :=
  nonempty (snd et)
  && last_segment (fst et)
       (GetUncompressedGeometry (facade env) (Edge.forward_packed_geometry_id (fst et)))
  && within
       (Double.of_int (detail.x (tile_point_of tile_bbox (fst et))),
        Double.of_int (detail.y (tile_point_of tile_bbox (fst et))))
       (clip_box env).

(** The turn records that give a point feature, each with its edge, in the
    order of the edges. *)
Definition marked_turns (tile_bbox : detail.BBox)
    (turns : list (Edge.t * list detail.TurnData)) : list (Edge.t * detail.TurnData) :=
  flat_map
    (fun et => if marked tile_bbox et then map (fun td => (fst et, td)) (snd et) else [])
    turns.

(** The feature [f] is the one [encode_tile_point] writes for a turn record
    at a pixel, at some value of the feature counter. *)
Definition marked_as (tile_point : detail.FixedPoint) (td : detail.TurnData)
    (f : pbf_field) : Prop :=
  exists id, snd (encode_tile_point tile_point td (id, [])) = [f].

(** *** The values of a turn *)

(** The node before the intersection on the edge: the last but one node of
    the forward geometry, or the start of the edge when the geometry has a
    single node (lines 310-313). *)
Definition before_node (edge : Edge.t) : Z :=
  let forward_node_vector :=
    GetUncompressedGeometry (facade env) (Edge.forward_packed_geometry_id edge) in
  match (if 1 <? vec_size forward_node_vector
         then vec_at forward_node_vector (Int.size_sub (vec_size forward_node_vector) 2)
         else Returns (Edge.u edge)) with
  | Returns node => node
  | _ => Edge.u edge
  end.

(** A bearing as the plugin interns it: converted to [uint64_t], then to
    the [int] that [use_point_value] takes. *)
Definition bearing_value (a b : Coordinate) : Z :=
  match Double.to_uint64 (bearing env a b) with
  | Returns angle => Int.int32 angle
  | _ => 0
  end.

(** The three offsets of the turn record [td] of [edge] lead, in the vector
    [used] of the interned values, to the bearing from the node before the
    intersection to the intersection, to the bearing from the intersection
    to a next node, and to the weight of the turn to that node. *)
Definition turn_described (edge : Edge.t) (used : list Z) (td : detail.TurnData)
    : Prop :=
  let coord_b := GetCoordinateOfNode (facade env) (Edge.v edge) in
  0 <= detail.in_angle_offset td /\
  0 <= detail.out_angle_offset td /\
  0 <= detail.weight_offset td /\
  used !! Z.to_nat (detail.in_angle_offset td)
  = Some (bearing_value (GetCoordinateOfNode (facade env) (before_node edge)) coord_b) /\
  exists next_node turn_weight,
    first_value next_node
      (turns_met edge
         (accumulate (GetUncompressedWeights (facade env)
                        (Edge.forward_packed_geometry_id edge))))
    = Some turn_weight /\
    used !! Z.to_nat (detail.out_angle_offset td)
    = Some (bearing_value coord_b (GetCoordinateOfNode (facade env) next_node)) /\
    used !! Z.to_nat (detail.weight_offset td) = Some turn_weight.

(** What the first loop records for an edge: records only when the edge has
    a forward geometry and is at its last segment, each of them described
    by the interned values. *)
Definition turns_recorded (used : list Z) (edge : Edge.t)
    (tds : list detail.TurnData) : Prop :=
  (tds <> [] ->
   Edge.forward_packed_geometry_id edge <> SPECIAL_EDGEID /\
   last_segment edge
     (GetUncompressedGeometry (facade env) (Edge.forward_packed_geometry_id edge))
   = true) /\
  Forall (turn_described edge used) tds.

(** *** The integers interned for the turns *)

(** The map from next node to turn weight that the loop over the shortcuts
    of an edge builds (lines 323-360). *)
Definition c_nodes_of (edge : Edge.t) : gmap Z Z :=
  fold_left (fun m turn => emplace (fst turn) (snd turn) m)
    (turns_met edge
       (accumulate (GetUncompressedWeights (facade env)
                      (Edge.forward_packed_geometry_id edge))))
    ∅.

(** The integers that the first loop hands to [use_point_value] for an
    edge, in order: nothing unless the edge has a forward geometry, is at
    its last segment and has a turn; otherwise the bearing in, then for
    every next node, in the order in which the entries of the map are
    visited for this edge, the bearing out and the weight of the turn. *)
Definition points_met_at (edge : Edge.t) : list Z :=
  let coord_b := GetCoordinateOfNode (facade env) (Edge.v edge) in
  match forward_of edge with
  | Some _ =>
      if last_segment edge
           (GetUncompressedGeometry (facade env) (Edge.forward_packed_geometry_id edge))
      then
        match iteration_order env edge (c_nodes_of edge) with
        | [] => []
        | turns =>
            bearing_value (GetCoordinateOfNode (facade env) (before_node edge)) coord_b
            :: flat_map
                 (fun next =>
                    [ bearing_value coord_b (GetCoordinateOfNode (facade env) (fst next));
                      snd next ])
                 turns
        end
      else []
  | None => []
  end.

Definition points_met (edges : list Edge.t) : list Z := flat_map points_met_at edges.

(** *** What a request needs from its collaborators *)




End Observed.

(** The locals other than the table of the turns. *)
Definition line_part (st : Locals)
    : list Z * gmap Z Z * Z * list (list detail.TurnData) :=
  (used_line_ints st, line_int_offsets st, max_datasource_id st, all_turn_data st).

(** What the first loop has established once it has gone through
    [done]. *)
Definition tallied (env : Collaborators) (done : list Edge.t) (st : Locals) : Prop :=
  table_ok (used_line_ints st) (line_int_offsets st) /\
  used_line_ints st = first_seen (weights_met env done) /\
  max_datasource_id st = max_datasource env done /\
  length (all_turn_data st) = length done /\
  table_ok (used_point_ints st) (point_int_offsets st).

(** ** A small road network

    Concrete collaborators on which the plugin can be run.  Longitudes and
    latitudes are chosen so that a coordinate projects to the pixel of the
    same numbers: one degree is one pixel and the tile spans 4096 degrees.
    Node 5 has the coordinates of node 2: the segment between them is the
    short segment with duplicate coordinates that the comment in
    [coordinatesToTileLine] describes.

<<
      node 1 (100,3996) --- node 2 (200,3996) --- node 4 (300,3996)
                            node 5     |
                                 node 3 (200,3796)
>>  *)

Module Sample.

Definition coordinate_of_node (node : Z) : Coordinate :=
  match node with
  | 1 => {| lon := 100; lat := 3996 |}
  | 2 => {| lon := 200; lat := 3996 |}
  | 3 => {| lon := 200; lat := 3796 |}
  | 4 => {| lon := 300; lat := 3996 |}
  | _ => {| lon := 200; lat := 3996 |}
  end.

(** Geometry 0 is the segment 1 -> 2 and geometry 1 the same segment
    backwards; geometries 2 and 3 leave node 2 towards 3 and 4; geometry 4
    is the short segment from node 2 to node 5; geometry 5 is a geometry
    whose weight array is empty. *)
Definition weights (geometry : Z) : list Z :=
  match geometry with
  | 0 => [100]
  | 1 => [50]
  | 2 => [80]
  | 3 => [60]
  | 4 => [70]
  | _ => []
  end.

Definition datasources (geometry : Z) : list Z :=
  match geometry with
  | 0 => [0]
  | 1 => [1]
  | 2 => [0]
  | 3 => [0]
  | 4 => [2]
  | _ => []
  end.

Definition nodes (geometry : Z) : list Z :=
  match geometry with
  | 0 => [2]
  | 1 => [1]
  | 2 => [3]
  | 3 => [4]
  | 4 => [5]
  | _ => []
  end.

(** Segment 10 (the edge 1 -> 2) has three adjacent shortcuts: 20 and 21
    allow forward travel, 22 does not. *)
Definition adjacent (segment : Z) : list Z :=
  match segment with
  | 10 => [20; 21; 22]
  | _ => []
  end.

Definition edge_data (edge : Z) : EdgeData.t :=
  {| EdgeData.id := edge; EdgeData.distance := 0;
     EdgeData.forward := negb (edge =? 22) |}.

Definition target (edge : Z) : Z := edge + 10.

(** Shortcut 20 unpacks to the edges 10 and 11, shortcut 21 to 10 and 12;
    the first edge carries the weight of the segment and of the turn. *)
Definition unpack (from to : Z) : list EdgeData.t :=
  match to with
  | 30 => [ {| EdgeData.id := 10; EdgeData.distance := 130; EdgeData.forward := true |};
            {| EdgeData.id := 11; EdgeData.distance := 80; EdgeData.forward := true |} ]
  | 31 => [ {| EdgeData.id := 10; EdgeData.distance := 150; EdgeData.forward := true |};
            {| EdgeData.id := 12; EdgeData.distance := 60; EdgeData.forward := true |} ]
  | _ => [ {| EdgeData.id := from; EdgeData.distance := 0; EdgeData.forward := true |} ]
  end.

(** [same_next_node] makes the edges 11 and 12 both start at node 3. *)
Definition geometry_index (same_next_node : bool) (edge : Z) : Z :=
  match edge with
  | 11 => 2
  | 12 => if same_next_node then 2 else 3
  | _ => 5
  end.

Definition datasource_name (datasource : Z) : string :=
  match datasource with
  | 0 => "lua profile"
  | 1 => "traffic"
  | _ => "other"
  end.

Definition segment_12 : Edge.t :=
  {| Edge.forward_segment_id := {| SegmentID.id := 10; SegmentID.enabled := true |};
     Edge.reverse_segment_id := {| SegmentID.id := 11; SegmentID.enabled := true |};
     Edge.u := 1; Edge.v := 2;
     Edge.forward_packed_geometry_id := 0;
     Edge.reverse_packed_geometry_id := 1;
     Edge.is_tiny := false;
     Edge.fwd_segment_position := 0 |}.

(** The short one-way segment: its two ends are on the same pixel. *)
Definition segment_25 : Edge.t :=
  {| Edge.forward_segment_id := {| SegmentID.id := 13; SegmentID.enabled := true |};
     Edge.reverse_segment_id := {| SegmentID.id := 14; SegmentID.enabled := false |};
     Edge.u := 2; Edge.v := 5;
     Edge.forward_packed_geometry_id := 4;
     Edge.reverse_packed_geometry_id := SPECIAL_EDGEID;
     Edge.is_tiny := true;
     Edge.fwd_segment_position := 0 |}.

(** A segment whose forward geometry has no weights at all. *)
Definition segment_short : Edge.t :=
  {| Edge.forward_segment_id := {| SegmentID.id := 15; SegmentID.enabled := true |};
     Edge.reverse_segment_id := {| SegmentID.id := 16; SegmentID.enabled := false |};
     Edge.u := 1; Edge.v := 2;
     Edge.forward_packed_geometry_id := 5;
     Edge.reverse_packed_geometry_id := SPECIAL_EDGEID;
     Edge.is_tiny := false;
     Edge.fwd_segment_position := 0 |}.

(** The same on the reverse side. *)
Definition segment_short_reverse : Edge.t :=
  {| Edge.forward_segment_id := {| SegmentID.id := 17; SegmentID.enabled := false |};
     Edge.reverse_segment_id := {| SegmentID.id := 18; SegmentID.enabled := true |};
     Edge.u := 1; Edge.v := 2;
     Edge.forward_packed_geometry_id := SPECIAL_EDGEID;
     Edge.reverse_packed_geometry_id := 5;
     Edge.is_tiny := false;
     Edge.fwd_segment_position := 0 |}.

Definition data_facade (edges : list Edge.t) (same_next_node : bool) : DataFacade :=
  {| GetEdgesInBox := fun _ _ => edges;
     GetUncompressedWeights := weights;
     GetUncompressedDatasources := datasources;
     GetUncompressedGeometry := nodes;
     GetCoordinateOfNode := coordinate_of_node;
     GetAdjacentEdgeRange := adjacent;
     GetEdgeData := edge_data;
     GetTarget := target;
     GetGeometryIndexForEdgeID := geometry_index same_next_node;
     GetDatasourceName := datasource_name |}.

Definition inside (box : detail.box_t) (p : detail.point_t) : bool :=
  SFleb (fst (fst box)) (fst p) && SFleb (fst p) (fst (snd box)) &&
  SFleb (snd (fst box)) (snd p) && SFleb (snd p) (snd (snd box)).

Definition same_point (p q : detail.point_t) : bool :=
  SFeqb (fst p) (fst q) && SFeqb (snd p) (snd q).

(** A stand-in for [boost::geometry::intersection] on the segments of the
    sample: a segment inside the box is kept whole, and a segment whose two
    ends coincide inside the box gives a linestring of a single point.  The
    sample has no segment that crosses the border of the box. *)
Definition clip (box : detail.box_t) (line : detail.linestring_t)
    : detail.multi_linestring_t :=
  match line with
  | [p; q] =>
      if same_point p q then (if inside box p then [[p]] else [])
      else if inside box p && inside box q then [line] else []
  | _ => []
  end.

Definition manhattan (a b : Coordinate) : double :=
  Double.of_int (Z.abs (lon b - lon a) + Z.abs (lat b - lat a)).

(** A compass heading that is exact on this network: east 90, south 180,
    west 270, north 0. *)
Definition heading (a b : Coordinate) : double :=
  Double.of_int
    (if lon a <? lon b then 90
     else if lon b <? lon a then 270
     else if lat b <? lat a then 180 else 0).

Definition tile_box : double * double * double * double :=
  (Double.of_int 0, Double.of_int 0, Double.of_int 4096, Double.of_int 4096).

(** The order in which the turns of an edge are visited: from the last
    key of the map to the first, so that at node 2 the turn to node 4 comes
    before the turn to node 3. *)
Definition visit (_ : Edge.t) (c_nodes : gmap Z Z) : list (Z * Z) :=
  reverse (map_to_list c_nodes).

Definition collaborators (edges : list Edge.t) (same_next_node asserts : bool)
    : Collaborators :=
  {| facade := data_facade edges same_next_node;
     UnpackEdgeToEdges := unpack;
     bearing := heading;
     haversineDistance := manhattan;
     xyzToWGS84 := fun _ _ _ => tile_box;
     xyzToMercator := fun _ _ _ => tile_box;
     latToY := fun y => y;
     DEGREE_TO_PX := Double.of_int 1;
     TILE_SIZE := Double.of_int 256;
     toFloating := Double.of_int;
     toFixed := fun d => default 0 (Double.truncate d);
     BUFFER := Double.of_int 128;
     intersection := clip;
     assertions_enabled := asserts;
     iteration_order := visit;
     iteration_order_entries :=
       fun _ c_nodes => reverse_Permutation (map_to_list c_nodes) |}.

Definition release (edges : list Edge.t) : Collaborators :=
  collaborators edges false false.

Definition request : TileParameters.t :=
  {| TileParameters.x := 0; TileParameters.y := 0; TileParameters.z := 0 |}.

(** A request for a column that zoom level 1 does not have. *)
Definition bad_request : TileParameters.t :=
  {| TileParameters.x := 5; TileParameters.y := 0; TileParameters.z := 1 |}.

(** A build that checks the assertions. *)
Definition debug (edges : list Edge.t) : Collaborators :=
  collaborators edges false true.

(** The tile the plugin writes for the sample request. *)
Definition tile (edges : list Edge.t) : list pbf_field :=
  match tile_writer (release edges) request with
  | Returns fields => fields
  | _ => []
  end.

(** The locals after the first loop over the given edges. *)
Definition tally (edges : list Edge.t) : Locals :=
  match ofold (tally_edge (release edges)) edges initial_locals with
  | Returns st => st
  | _ => initial_locals
  end.

(** The sample network with a facade in which no edge has a geometry: the
    geometry index of every edge is 5, the empty geometry. *)
Definition dangling : Collaborators :=
  let env := release [segment_12] in
  {| facade :=
       {| GetEdgesInBox := GetEdgesInBox (facade env);
          GetUncompressedWeights := weights;
          GetUncompressedDatasources := datasources;
          GetUncompressedGeometry := nodes;
          GetCoordinateOfNode := coordinate_of_node;
          GetAdjacentEdgeRange := adjacent;
          GetEdgeData := edge_data;
          GetTarget := target;
          GetGeometryIndexForEdgeID := fun _ => 5;
          GetDatasourceName := datasource_name |};
     UnpackEdgeToEdges := unpack;
     bearing := heading;
     haversineDistance := manhattan;
     xyzToWGS84 := xyzToWGS84 env;
     xyzToMercator := xyzToMercator env;
     latToY := latToY env;
     DEGREE_TO_PX := DEGREE_TO_PX env;
     TILE_SIZE := TILE_SIZE env;
     toFloating := toFloating env;
     toFixed := toFixed env;
     BUFFER := BUFFER env;
     intersection := clip;
     assertions_enabled := false;
     iteration_order := visit;
     iteration_order_entries :=
       fun _ c_nodes => reverse_Permutation (map_to_list c_nodes) |}.

(** A two-way edge of three segments: the arrays of its geometries hold
    three elements each.  [segment_of_way p] stands for its segment at
    position [p] (the end points are those of the first segment, whatever
    the position); [way p] is a build that checks assertions with this
    segment alone. *)
Definition segment_of_way (position : Z) : Edge.t :=
  {| Edge.forward_segment_id := {| SegmentID.id := 40; SegmentID.enabled := true |};
     Edge.reverse_segment_id := {| SegmentID.id := 41; SegmentID.enabled := true |};
     Edge.u := 1; Edge.v := 2;
     Edge.forward_packed_geometry_id := 6;
     Edge.reverse_packed_geometry_id := 7;
     Edge.is_tiny := false;
     Edge.fwd_segment_position := position |}.

Definition way (position : Z) : Collaborators :=
  let env := debug [segment_of_way position] in
  {| facade :=
       {| GetEdgesInBox := GetEdgesInBox (facade env);
          GetUncompressedWeights := fun _ => [10; 20; 30];
          GetUncompressedDatasources := fun _ => [0; 1; 2];
          GetUncompressedGeometry := fun _ => [2; 3; 4];
          GetCoordinateOfNode := coordinate_of_node;
          GetAdjacentEdgeRange := adjacent;
          GetEdgeData := edge_data;
          GetTarget := target;
          GetGeometryIndexForEdgeID := geometry_index false;
          GetDatasourceName := datasource_name |};
     UnpackEdgeToEdges := unpack;
     bearing := heading;
     haversineDistance := manhattan;
     xyzToWGS84 := xyzToWGS84 env;
     xyzToMercator := xyzToMercator env;
     latToY := latToY env;
     DEGREE_TO_PX := DEGREE_TO_PX env;
     TILE_SIZE := TILE_SIZE env;
     toFloating := toFloating env;
     toFixed := toFixed env;
     BUFFER := BUFFER env;
     intersection := clip;
     assertions_enabled := true;
     iteration_order := visit;
     iteration_order_entries :=
       fun _ c_nodes => reverse_Permutation (map_to_list c_nodes) |}.

(** The network with the two-way segment and the short segment. *)
Definition two_segments : list Edge.t := [segment_12; segment_25].
Definition town : Collaborators := release two_segments.



End Sample.

(** * Properties *)

(** ** Outcomes *)

Lemma obind_Returns {A B : Type} (m : outcome A) (k : A -> outcome B) (b : B) :
  obind m k = Returns b <-> exists a, m = Returns a /\ k a = Returns b.
Proof.
  destruct m as [a| |]; simpl; split.
  - intros H. exists a. split; [reflexivity | exact H].
  - intros (a' & Ha & Hk). injection Ha as ->. exact Hk.
  - discriminate.
  - intros (a' & Ha & _). discriminate.
  - discriminate.
  - intros (a' & Ha & _). discriminate.
Qed.

(** Splits a hypothesis [let! x := m in k = Returns b]. *)
Ltac obind_inv H :=
  let a := fresh "r" in
  let Ha := fresh "E" in
  apply obind_Returns in H; destruct H as (a & Ha & H).

(** An invariant of the body of a loop holds after the loop. *)
Lemma ofold_invariant {A S : Type} (P : S -> Prop) (body : A -> S -> outcome S)
    (l : list A) (s s' : S) :
  (forall a t t', a ∈ l -> P t -> body a t = Returns t' -> P t') ->
  P s -> ofold body l s = Returns s' -> P s'.
Proof.
  revert s. induction l as [|a l IH]; intros s Hbody Hs H; simpl in H.
  - injection H as <-. exact Hs.
  - obind_inv H. apply (IH r); [| |exact H].
    + intros b t t' Hb. apply Hbody. by right.
    + apply (Hbody a s r); [by left | exact Hs | exact E].
Qed.

(** A loop that returns has returned at every element. *)
Lemma ofold_Returns_elem {A S : Type} (body : A -> S -> outcome S)
    (l : list A) (s s' : S) (a : A) :
  ofold body l s = Returns s' -> a ∈ l -> exists t t', body a t = Returns t'.
Proof.
  revert s. induction l as [|b l IH]; intros s H Ha.
  - by apply elem_of_nil in Ha.
  - simpl in H. obind_inv H. apply elem_of_cons in Ha as [->|Ha].
    + by exists s, r.
    + by apply (IH r).
Qed.

Lemma vec_at_Returns {A : Type} (v : list A) (i : Z) (a : A) :
  vec_at v i = Returns a <-> 0 <= i /\ v !! Z.to_nat i = Some a.
Proof.
  unfold vec_at. destruct (Z.ltb_spec i 0) as [Hi|Hi].
  - split; [discriminate | lia].
  - destruct (v !! Z.to_nat i) as [a'|]; split.
    + intros [= ->]. by split.
    + by intros [_ [= ->]].
    + discriminate.
    + by intros [_ ?].
Qed.

Lemma vec_at_in_range {A : Type} (v : list A) (i : Z) (a : A) :
  vec_at v i = Returns a -> 0 <= i < vec_size v.
Proof.
  intros [Hi Hv]%vec_at_Returns. apply lookup_lt_Some in Hv. unfold vec_size. lia.
Qed.

(** ** Interning *)

Lemma table_ok_empty : table_ok [] ∅.
Proof.
  intros value offset. rewrite lookup_empty. split; [discriminate|].
  intros [_ H]. by rewrite lookup_nil in H.
Qed.

Lemma table_ok_elem used offsets value :
  table_ok used offsets -> (is_Some (offsets !! value) <-> value ∈ used).
Proof.
  intros Hok. split.
  - intros [offset [_ H]%Hok]. by eapply list_elem_of_lookup_2.
  - intros [i Hi]%list_elem_of_lookup_1. exists (Z.of_nat i). apply Hok.
    split; [lia|]. by rewrite Nat2Z.id.
Qed.

Lemma table_ok_fresh used offsets value :
  table_ok used offsets -> offsets !! value = None <-> value ∉ used.
Proof.
  intros Hok. rewrite <- (table_ok_elem used offsets value Hok).
  rewrite eq_None_not_Some. tauto.
Qed.

(** Two values never share an offset. *)
Lemma table_ok_inj used offsets value1 value2 offset :
  table_ok used offsets ->
  offsets !! value1 = Some offset -> offsets !! value2 = Some offset ->
  value1 = value2.
Proof.
  intros Hok [_ H1]%Hok [_ H2]%Hok. congruence.
Qed.

Lemma table_ok_NoDup used offsets : table_ok used offsets -> NoDup used.
Proof.
  intros Hok. apply NoDup_alt. intros i j value Hi Hj.
  assert (offsets !! value = Some (Z.of_nat i)) as Ei.
  { apply Hok. split; [lia|]. by rewrite Nat2Z.id. }
  assert (offsets !! value = Some (Z.of_nat j)) as Ej.
  { apply Hok. split; [lia|]. by rewrite Nat2Z.id. }
  rewrite Ei in Ej. injection Ej. lia.
Qed.

(** Appending a fresh value, with the offset the lambdas give it. *)
Lemma table_ok_push used offsets value :
  table_ok used offsets -> offsets !! value = None ->
  table_ok (used ++ [value]) (<[value := vec_size (used ++ [value]) - 1]> offsets).
Proof.
  intros Hok Hfresh other offset.
  assert (vec_size (used ++ [value]) - 1 = Z.of_nat (length used)) as ->.
  { unfold vec_size. rewrite length_app. simpl. lia. }
  destruct (decide (value = other)) as [<-|Hne].
  - rewrite lookup_insert_eq. split.
    + intros [= <-]. split; [lia|]. rewrite Nat2Z.id.
      rewrite lookup_app_r; [|lia]. by rewrite Nat.sub_diag.
    + intros [Hpos H]. f_equal.
      destruct (decide (Z.to_nat offset < length used)%nat) as [Hlt|Hge].
      * rewrite lookup_app_l in H; [|done].
        assert (is_Some (offsets !! value)) as [? ?]; [|congruence].
        apply (table_ok_elem used); [done|]. by eapply list_elem_of_lookup_2.
      * apply lookup_lt_Some in H. rewrite length_app in H. simpl in H. lia.
  - rewrite lookup_insert_ne; [|done]. rewrite (Hok other offset). split.
    + intros [Hpos H]. split; [done|]. rewrite lookup_app_l; [done|].
      by eapply lookup_lt_Some.
    + intros [Hpos H]. split; [done|].
      destruct (decide (Z.to_nat offset < length used)%nat) as [Hlt|Hge].
      * by rewrite lookup_app_l in H.
      * rewrite lookup_app_r in H; [|lia].
        apply list_lookup_singleton_Some in H as [_ ?]. congruence.
Qed.

Lemma first_seen_snoc (l : list Z) (value : Z) :
  first_seen (l ++ [value]) =
  if decide (value ∈ l) then first_seen l else first_seen l ++ [value].
Proof.
  induction l as [|a l IH]; simpl.
  - destruct (decide (value ∈ [])) as [H|_]; [by apply elem_of_nil in H | done].
  - rewrite IH. destruct (decide (value ∈ l)) as [Hin|Hout].
    + rewrite decide_True; [done | by right].
    + rewrite filter_app. destruct (decide (value = a)) as [->|Hne].
      * rewrite decide_True; [|by left].
        rewrite (filter_cons_False _ a); [|by intros ?]. simpl.
        by rewrite filter_nil, app_nil_r.
      * rewrite decide_False; [|by intros [?|?]%elem_of_cons].
        by rewrite (filter_cons_True _ value), filter_nil.
Qed.

Lemma elem_of_first_seen (l : list Z) (value : Z) : value ∈ first_seen l <-> value ∈ l.
Proof.
  induction l as [|a l IH]; simpl; [done|].
  rewrite !elem_of_cons, list_elem_of_filter, IH.
  destruct (decide (value = a)); tauto.
Qed.

Lemma NoDup_first_seen (l : list Z) : NoDup (first_seen l).
Proof.
  induction l as [|a l IH]; simpl; [constructor|].
  constructor.
  - rewrite list_elem_of_filter. tauto.
  - by apply NoDup_filter.
Qed.

Lemma use_line_value_known value offset st :
  line_int_offsets st !! value = Some offset -> use_line_value value st = st.
Proof. unfold use_line_value. by intros ->. Qed.

Lemma use_line_value_fresh value st :
  line_int_offsets st !! value = None ->
  use_line_value value st =
  set_line_table (used_line_ints st ++ [value])
    (<[value := vec_size (used_line_ints st ++ [value]) - 1]> (line_int_offsets st)) st.
Proof. unfold use_line_value. by intros ->. Qed.

Lemma use_point_value_known value offset st :
  point_int_offsets st !! value = Some offset -> use_point_value value st = (offset, st).
Proof. unfold use_point_value. by intros ->. Qed.

Lemma use_point_value_fresh value st :
  point_int_offsets st !! value = None ->
  use_point_value value st =
  (vec_size (used_point_ints st ++ [value]) - 1,
   set_point_table (used_point_ints st ++ [value])
     (<[value := vec_size (used_point_ints st ++ [value]) - 1]> (point_int_offsets st)) st).
Proof. unfold use_point_value. by intros ->. Qed.

(** One call of [use_line_value] on a table that has seen [seen]. *)
Lemma use_line_value_table value seen st :
  table_ok (used_line_ints st) (line_int_offsets st) ->
  used_line_ints st = first_seen seen ->
  table_ok (used_line_ints (use_line_value value st))
           (line_int_offsets (use_line_value value st)) /\
  used_line_ints (use_line_value value st) = first_seen (seen ++ [value]).
Proof.
  intros Hok Hused. rewrite first_seen_snoc.
  destruct (line_int_offsets st !! value) as [offset|] eqn:E.
  - rewrite (use_line_value_known _ _ _ E). split; [done|].
    rewrite decide_True; [done|].
    apply elem_of_first_seen. rewrite <- Hused.
    apply (table_ok_elem _ _ _ Hok). by eexists.
  - rewrite (use_line_value_fresh _ _ E). simpl. split.
    + by apply table_ok_push.
    + rewrite decide_False; [by rewrite Hused|].
      rewrite <- elem_of_first_seen, <- Hused.
      by apply (table_ok_fresh _ _ _ Hok).
Qed.

Lemma use_point_value_table value seen st :
  table_ok (used_point_ints st) (point_int_offsets st) ->
  used_point_ints st = first_seen seen ->
  table_ok (used_point_ints (snd (use_point_value value st)))
           (point_int_offsets (snd (use_point_value value st))) /\
  used_point_ints (snd (use_point_value value st)) = first_seen (seen ++ [value]).
Proof.
  intros Hok Hused. rewrite first_seen_snoc.
  destruct (point_int_offsets st !! value) as [offset|] eqn:E.
  - rewrite (use_point_value_known _ _ _ E). split; [done|].
    rewrite decide_True; [done|].
    apply elem_of_first_seen. rewrite <- Hused.
    apply (table_ok_elem _ _ _ Hok). by eexists.
  - rewrite (use_point_value_fresh _ _ E). simpl. split.
    + by apply table_ok_push.
    + rewrite decide_False; [by rewrite Hused|].
      rewrite <- elem_of_first_seen, <- Hused.
      by apply (table_ok_fresh _ _ _ Hok).
Qed.

Lemma line_interned_snoc values value :
  line_interned (values ++ [value]) = use_line_value value (line_interned values).
Proof. unfold line_interned. by rewrite fold_left_app. Qed.

Lemma point_interned_snoc values value :
  point_interned (values ++ [value]) = snd (use_point_value value (point_interned values)).
Proof. unfold point_interned. by rewrite fold_left_app. Qed.

Lemma line_interned_table values :
  table_ok (used_line_ints (line_interned values)) (line_int_offsets (line_interned values)) /\
  used_line_ints (line_interned values) = first_seen values.
Proof.
  induction values as [|value values [IH1 IH2]] using rev_ind.
  - split; [apply table_ok_empty | done].
  - rewrite line_interned_snoc. by apply use_line_value_table.
Qed.

Lemma point_interned_table values :
  table_ok (used_point_ints (point_interned values))
           (point_int_offsets (point_interned values)) /\
  used_point_ints (point_interned values) = first_seen values.
Proof.
  induction values as [|value values [IH1 IH2]] using rev_ind.
  - split; [apply table_ok_empty | done].
  - rewrite point_interned_snoc. by apply use_point_value_table.
Qed.

(** An offset, once given, is kept by every later call. *)
Lemma use_line_value_keeps value other offset st :
  line_int_offsets st !! value = Some offset ->
  line_int_offsets (use_line_value other st) !! value = Some offset.
Proof.
  intros H. unfold use_line_value.
  destruct (line_int_offsets st !! other) eqn:E; [done|]. simpl.
  rewrite lookup_insert_ne; [done | congruence].
Qed.

Lemma use_point_value_keeps value other offset st :
  point_int_offsets st !! value = Some offset ->
  point_int_offsets (snd (use_point_value other st)) !! value = Some offset.
Proof.
  intros H. unfold use_point_value.
  destruct (point_int_offsets st !! other) eqn:E; [done|]. simpl.
  rewrite lookup_insert_ne; [done | congruence].
Qed.

Lemma line_interned_keeps values more value offset :
  line_int_offsets (line_interned values) !! value = Some offset ->
  line_int_offsets (line_interned (values ++ more)) !! value = Some offset.
Proof.
  intros H. induction more as [|other more IH] using rev_ind.
  - by rewrite app_nil_r.
  - rewrite app_assoc, line_interned_snoc. by apply use_line_value_keeps.
Qed.

Lemma point_interned_keeps values more value offset :
  point_int_offsets (point_interned values) !! value = Some offset ->
  point_int_offsets (point_interned (values ++ more)) !! value = Some offset.
Proof.
  intros H. induction more as [|other more IH] using rev_ind.
  - by rewrite app_nil_r.
  - rewrite app_assoc, point_interned_snoc. by apply use_point_value_keeps.
Qed.

(** C8.  The two interning tables of a request, after any sequence [values]
    of calls of their lambda.  (1) A value already interned keeps its offset:
    [use_point_value] returns it, [use_line_value] leaves it in
    [line_int_offsets], and neither changes the table; the offset is the
    position of the value in the vector.  (2) The offset is the same after
    any further calls.  (3) A new value is appended to the vector and its
    offset is the size of the vector after the append, minus one.  (4) Two
    distinct values never have the same offset.  (5) The vector holds every
    distinct value exactly once, in the order of first occurrence. *)
Theorem interning_offsets (values : list Z) :
  let lines := line_interned values in
  let points := point_interned values in
  (forall value, value ∈ values ->
     exists offset,
       0 <= offset /\
       use_point_value value points = (offset, points) /\
       used_point_ints points !! Z.to_nat offset = Some value /\
       forall more,
         fst (use_point_value value (point_interned (values ++ more))) = offset) /\
  (forall value, value ∈ values ->
     exists offset,
       0 <= offset /\
       line_int_offsets lines !! value = Some offset /\
       use_line_value value lines = lines /\
       used_line_ints lines !! Z.to_nat offset = Some value /\
       forall more,
         line_int_offsets (line_interned (values ++ more)) !! value = Some offset) /\
  (forall value, value ∉ values ->
     let used := used_point_ints points ++ [value] in
     let offset := vec_size used - 1 in
     use_point_value value points =
       (offset,
        set_point_table used (<[value := offset]> (point_int_offsets points)) points) /\
     used !! Z.to_nat offset = Some value) /\
  (forall value, value ∉ values ->
     let used := used_line_ints lines ++ [value] in
     let offset := vec_size used - 1 in
     use_line_value value lines =
       set_line_table used (<[value := offset]> (line_int_offsets lines)) lines /\
     used !! Z.to_nat offset = Some value) /\
  (forall value1 value2 offset,
     point_int_offsets points !! value1 = Some offset ->
     point_int_offsets points !! value2 = Some offset -> value1 = value2) /\
  (forall value1 value2 offset,
     line_int_offsets lines !! value1 = Some offset ->
     line_int_offsets lines !! value2 = Some offset -> value1 = value2) /\
  used_point_ints points = first_seen values /\
  used_line_ints lines = first_seen values /\
  NoDup (first_seen values) /\
  (forall value, value ∈ first_seen values <-> value ∈ values).
Proof.
  intros lines points.
  destruct (line_interned_table values) as [Lok Lused].
  destruct (point_interned_table values) as [Pok Pused].
  fold lines in Lok, Lused. fold points in Pok, Pused.
  assert (forall (used : list Z) value,
            vec_size (used ++ [value]) - 1 = Z.of_nat (length used))
    as Hsize.
  { intros used value. unfold vec_size. rewrite length_app. simpl. lia. }
  split; [|split; [|split; [|split; [|split; [|split; [|split; [|split; [|split]]]]]]]].
  - intros value Hin.
    assert (is_Some (point_int_offsets points !! value)) as [offset E].
    { apply (table_ok_elem _ _ _ Pok). rewrite Pused. by apply elem_of_first_seen. }
    exists offset. apply Pok in E as H. destruct H as [Hpos Hat].
    split; [done|]. split; [by apply use_point_value_known|]. split; [done|].
    intros more. rewrite (use_point_value_known _ offset); [done|].
    by apply point_interned_keeps.
  - intros value Hin.
    assert (is_Some (line_int_offsets lines !! value)) as [offset E].
    { apply (table_ok_elem _ _ _ Lok). rewrite Lused. by apply elem_of_first_seen. }
    exists offset. apply Lok in E as H. destruct H as [Hpos Hat].
    split; [done|]. split; [done|]. split; [by eapply use_line_value_known|].
    split; [done|]. intros more. by apply line_interned_keeps.
  - intros value Hout used offset. split.
    + apply use_point_value_fresh. apply (table_ok_fresh _ _ _ Pok).
      by rewrite Pused, elem_of_first_seen.
    + unfold offset, used. rewrite Hsize, Nat2Z.id, lookup_app_r; [|lia].
      by rewrite Nat.sub_diag.
  - intros value Hout used offset. split.
    + apply use_line_value_fresh. apply (table_ok_fresh _ _ _ Lok).
      by rewrite Lused, elem_of_first_seen.
    + unfold offset, used. rewrite Hsize, Nat2Z.id, lookup_app_r; [|lia].
      by rewrite Nat.sub_diag.
  - intros value1 value2 offset. by apply (table_ok_inj _ _ _ _ _ Pok).
  - intros value1 value2 offset. by apply (table_ok_inj _ _ _ _ _ Lok).
  - done.
  - done.
  - apply NoDup_first_seen.
  - intros value. by apply elem_of_first_seen.
Qed.

(** ** The table of the turns *)

Lemma use_point_value_offset value st offset st' :
  table_ok (used_point_ints st) (point_int_offsets st) ->
  use_point_value value st = (offset, st') ->
  table_ok (used_point_ints st') (point_int_offsets st') /\
  point_int_offsets st' !! value = Some offset /\
  (forall other offset',
     point_int_offsets st !! other = Some offset' ->
     point_int_offsets st' !! other = Some offset').
Proof.
  intros Hok H. unfold use_point_value in H.
  destruct (point_int_offsets st !! value) as [known|] eqn:E.
  - injection H as <- <-. split; [done|]. by split.
  - injection H as <- <-. cbn [used_point_ints point_int_offsets set_point_table].
    split; [by apply table_ok_push|]. split; [by rewrite lookup_insert_eq|].
    intros other offset' Hother. rewrite lookup_insert_ne; [done | congruence].
Qed.

(** The body of the loop over [c_nodes]: one record more, whose offsets
    lead to the bearing towards the next node and to the weight of the
    turn. *)
Lemma turn_record_spec env coord_b angle_in_offset next st tds st' tds' :
  table_ok (used_point_ints st) (point_int_offsets st) ->
  turn_record env coord_b angle_in_offset next (st, tds) = Returns (st', tds') ->
  table_ok (used_point_ints st') (point_int_offsets st') /\
  (forall other offset,
     point_int_offsets st !! other = Some offset ->
     point_int_offsets st' !! other = Some offset) /\
  exists td c_bearing,
    tds' = tds ++ [td] /\
    detail.in_angle_offset td = angle_in_offset /\
    Double.to_uint64
      (bearing env coord_b (GetCoordinateOfNode (facade env) (fst next)))
    = Returns c_bearing /\
    point_int_offsets st' !! Int.int32 c_bearing = Some (detail.out_angle_offset td) /\
    point_int_offsets st' !! snd next = Some (detail.weight_offset td).
Proof.
  intros Hok H. unfold turn_record in H. obind_inv H. rename r into c_bearing.
  destruct (use_point_value (Int.int32 c_bearing) st) as [out st1] eqn:P1.
  destruct (use_point_value (snd next) st1) as [weight st2] eqn:P2.
  injection H as <- <-.
  destruct (use_point_value_offset _ _ _ _ Hok P1) as (Hok1 & Hout & Hkeep1).
  destruct (use_point_value_offset _ _ _ _ Hok1 P2) as (Hok2 & Hweight & Hkeep2).
  split; [done|]. split; [by auto|].
  eexists. exists c_bearing. split; [reflexivity|]. cbn.
  split; [done|]. split; [done|]. split; [by auto | done].
Qed.

Lemma turn_loop_spec env coord_b angle_in_offset turns st tds st' tds' :
  table_ok (used_point_ints st) (point_int_offsets st) ->
  ofold (turn_record env coord_b angle_in_offset) turns (st, tds) = Returns (st', tds') ->
  table_ok (used_point_ints st') (point_int_offsets st') /\
  (forall other offset,
     point_int_offsets st !! other = Some offset ->
     point_int_offsets st' !! other = Some offset) /\
  exists records,
    tds' = tds ++ records /\
    Forall2
      (fun next td =>
         detail.in_angle_offset td = angle_in_offset /\
         point_int_offsets st' !! snd next = Some (detail.weight_offset td) /\
         exists c_bearing,
           Double.to_uint64
             (bearing env coord_b (GetCoordinateOfNode (facade env) (fst next)))
           = Returns c_bearing /\
           point_int_offsets st' !! Int.int32 c_bearing
           = Some (detail.out_angle_offset td))
      turns records.
Proof.
  revert st tds. induction turns as [|next turns IH]; intros st tds Hok H;
    cbn [ofold] in H.
  - injection H as <- <-. split; [done|]. split; [done|].
    exists []. by rewrite app_nil_r.
  - obind_inv H. destruct r as [st1 tds1].
    destruct (turn_record_spec _ _ _ _ _ _ _ _ Hok E)
      as (Hok1 & Hkeep1 & td & c_bearing & -> & Hin & Hb & Hout & Hweight).
    destruct (IH _ _ Hok1 H) as (Hok' & Hkeep & records & -> & Hall).
    split; [done|]. split; [by auto|].
    exists (td :: records). rewrite <- app_assoc. split; [done|].
    constructor; [|done]. split; [done|]. split; [by auto|].
    exists c_bearing. by auto.
Qed.

(** The turns of an intersection leave the table of the turns in order. *)
Lemma intersection_turns_table env edge weights nodes st st' tds :
  table_ok (used_point_ints st) (point_int_offsets st) ->
  intersection_turns env edge weights nodes st = Returns (st', tds) ->
  table_ok (used_point_ints st') (point_int_offsets st').
Proof.
  intros Hok H. unfold intersection_turns in H. do 3 obind_inv H.
  destruct (0 <? Z.of_nat (size r0)); [|by injection H as <- _].
  destruct (use_point_value (Int.int32 r1) st) as [angle_in_offset st1] eqn:P.
  destruct (use_point_value_offset _ _ _ _ Hok P) as (Hok1 & _ & _).
  by destruct (turn_loop_spec _ _ _ _ _ _ _ _ Hok1 H) as (Hok' & _).
Qed.

(** ** The first loop: weights, datasources *)

Lemma use_point_value_line_part value st :
  line_part (snd (use_point_value value st)) = line_part st.
Proof. unfold use_point_value. by destruct (point_int_offsets st !! value). Qed.

Lemma turn_record_line_part env coord_b angle_in_offset next st tds st' tds' :
  turn_record env coord_b angle_in_offset next (st, tds) = Returns (st', tds') ->
  line_part st' = line_part st.
Proof.
  unfold turn_record. intros H. obind_inv H.
  destruct (use_point_value (Int.int32 r) st) as [out st1] eqn:P1.
  destruct (use_point_value (snd next) st1) as [weight st2] eqn:P2.
  injection H as <- _.
  pose proof (use_point_value_line_part (snd next) st1) as H2.
  pose proof (use_point_value_line_part (Int.int32 r) st) as H1.
  rewrite P2 in H2. rewrite P1 in H1. simpl in *. congruence.
Qed.

Lemma intersection_turns_line_part env edge weights nodes st st' tds :
  intersection_turns env edge weights nodes st = Returns (st', tds) ->
  line_part st' = line_part st.
Proof.
  unfold intersection_turns. intros H. do 3 obind_inv H.
  destruct (0 <? Z.of_nat (size r0)); [|by injection H as <- _].
  destruct (use_point_value (Int.int32 r1) st) as [angle_in_offset st1] eqn:P1.
  pose proof (use_point_value_line_part (Int.int32 r1) st) as H1.
  rewrite P1 in H1. simpl in H1. rewrite <- H1.
  apply (ofold_invariant (fun s => line_part (fst s) = line_part st1)) in H;
    [done | | done].
  intros next [t tds0] [t' tds1] _ Ht Hbody. simpl in *.
  rewrite <- Ht. by eapply turn_record_line_part.
Qed.

Lemma max_datasource_snoc env done edge :
  max_datasource env (done ++ [edge]) =
  Z.max (Z.max (max_datasource env done) (default 0 (snd <$> forward_of env edge)))
        (default 0 (snd <$> reverse_of env edge)).
Proof.
  assert (forall l m, 0 <= m -> 0 <= fold_left Z.max l m) as Hpos.
  { induction l as [|a l IH]; intros m Hm; simpl; [done|]. apply IH. lia. }
  unfold max_datasource, datasources_met.
  rewrite flat_map_app, fold_left_app. simpl. rewrite app_nil_r, fold_left_app.
  set (m := fold_left Z.max _ 0).
  assert (0 <= m) as Hm by (by apply Hpos).
  destruct (forward_of env edge) as [[fw fd]|], (reverse_of env edge) as [[rw rd]|];
    simpl; lia.
Qed.

Lemma weights_met_snoc env done edge :
  weights_met env (done ++ [edge]) =
  (weights_met env done ++ option_list (fst <$> forward_of env edge))
  ++ option_list (fst <$> reverse_of env edge).
Proof.
  unfold weights_met. rewrite flat_map_app. simpl.
  by rewrite app_nil_r, app_assoc.
Qed.

Lemma tallied_initial env : tallied env [] initial_locals.
Proof.
  split; [apply table_ok_empty|]. do 3 (split; [done|]). apply table_ok_empty.
Qed.

(** One turn of the first loop. *)
Lemma tally_edge_tallied env done edge st st' :
  tallied env done st -> tally_edge env edge st = Returns st' ->
  tallied env (done ++ [edge]) st'.
Proof.
  intros (Hok & Hused & Hmax & Hlen & Hpoints) H. unfold tally_edge in H.
  obind_inv H. rename r into forward, E into Ef.
  obind_inv H. destruct r as [[forward_datasource st1] edge_turn_data].
  obind_inv H. rename r into reverse, E0 into Er. rename E into Eturn.
  assert (forward_of env edge = forward) as Hf by (unfold forward_of; by rewrite Ef).
  assert (reverse_of env edge = reverse) as Hr by (unfold reverse_of; by rewrite Er).
  (* the line table after the forward part *)
  assert (table_ok (used_line_ints st1) (line_int_offsets st1) /\
          used_line_ints st1 =
            first_seen (weights_met env done ++ option_list (fst <$> forward)) /\
          max_datasource_id st1 = max_datasource_id st /\
          all_turn_data st1 = all_turn_data st /\
          forward_datasource = default 0 (snd <$> forward) /\
          table_ok (used_point_ints st1) (point_int_offsets st1))
    as (Hok1 & Hused1 & Hmax1 & Hall1 & Hfd & Hpoints1).
  { destruct forward as [[forward_weight fd]|]; simpl in *.
    - destruct (use_line_value_table forward_weight (weights_met env done) st Hok Hused)
        as [Hok' Hused'].
      assert (max_datasource_id (use_line_value forward_weight st) = max_datasource_id st
              /\ all_turn_data (use_line_value forward_weight st) = all_turn_data st
              /\ table_ok (used_point_ints (use_line_value forward_weight st))
                   (point_int_offsets (use_line_value forward_weight st)))
        as (Hm' & Ha' & Hp').
      { unfold use_line_value. by destruct (line_int_offsets st !! forward_weight). }
      destruct (last_segment _ _).
      + obind_inv Eturn. destruct r as [st2 tds]. injection Eturn as <- <- <-.
        pose proof (intersection_turns_table _ _ _ _ _ _ _ Hp' E) as Hp2.
        apply intersection_turns_line_part in E. unfold line_part in E.
        injection E as -> -> -> ->. done.
      + injection Eturn as <- <- <-. done.
    - injection Eturn as <- <- <-. by rewrite app_nil_r. }
  unfold tallied. rewrite weights_met_snoc, max_datasource_snoc, Hf, Hr.
  destruct reverse as [[reverse_weight rd]|]; simpl in H; injection H as <-; simpl.
  - destruct (use_line_value_table reverse_weight _ st1 Hok1 Hused1) as [Hok' Hused'].
    assert (max_datasource_id (use_line_value reverse_weight st1) = max_datasource_id st1
            /\ all_turn_data (use_line_value reverse_weight st1) = all_turn_data st1
            /\ table_ok (used_point_ints (use_line_value reverse_weight st1))
                 (point_int_offsets (use_line_value reverse_weight st1)))
      as (Hm' & Ha' & Hp').
    { unfold use_line_value. by destruct (line_int_offsets st1 !! reverse_weight). }
    split; [done|]. split; [done|]. split; [|split; [|done]].
    + by rewrite Hm', Hmax1, Hmax, Hfd.
    + rewrite Ha', Hall1, !length_app, Hlen. simpl. lia.
  - rewrite app_nil_r. split; [done|]. split; [done|]. split; [|split; [|done]].
    + by rewrite Hmax1, Hmax, Hfd.
    + rewrite Hall1, !length_app, Hlen. simpl. lia.
Qed.

Lemma tally_tallied env done edges st st' :
  tallied env done st -> ofold (tally_edge env) edges st = Returns st' ->
  tallied env (done ++ edges) st'.
Proof.
  revert done st. induction edges as [|edge edges IH]; intros done st Hst H; simpl in H.
  - injection H as <-. by rewrite app_nil_r.
  - obind_inv H. rewrite (cons_middle edge), app_assoc. apply (IH _ r); [|done].
    by eapply tally_edge_tallied.
Qed.

(** ** The layer of the lines *)

Lemma elem_of_weights_met env edges edge d weight datasource :
  edge ∈ edges -> attributes_of env edge d = Some (weight, datasource) ->
  weight ∈ weights_met env edges /\ datasource ∈ datasources_met env edges.
Proof.
  intros Hin Hd. unfold weights_met, datasources_met.
  split; apply list_elem_of_In, in_flat_map; exists edge;
    (split; [by apply list_elem_of_In|]); apply list_elem_of_In, elem_of_app;
    destruct d; simpl in Hd; rewrite Hd; simpl; [left|right|left|right]; by left.
Qed.

Lemma max_datasource_bound env edges datasource :
  datasource ∈ datasources_met env edges -> datasource <= max_datasource env edges.
Proof.
  unfold max_datasource. generalize (datasources_met env edges) 0.
  induction l as [|a l IH]; intros m Hin; [by apply elem_of_nil in Hin|].
  assert (forall l m, m <= fold_left Z.max l m) as Hge.
  { clear. induction l as [|a l IH]; intros m; simpl; [lia|].
    specialize (IH (Z.max m a)). lia. }
  simpl. apply elem_of_cons in Hin as [->|Hin]; [|by apply IH].
  specialize (Hge l (Z.max m a)). lia.
Qed.

Lemma offset_of_table used offsets value offset :
  table_ok used offsets -> offsets !! value = Some offset ->
  offset_of used value = offset.
Proof.
  intros Hok H. pose proof (table_ok_NoDup _ _ Hok) as Hnd.
  apply Hok in H as [Hpos Hat]. unfold offset_of.
  destruct (list_find _ used) as [[i other]|] eqn:E.
  - apply list_find_Some in E as (Hi & -> & _).
    rewrite (NoDup_lookup _ _ _ _ Hnd Hi Hat). lia.
  - apply list_find_None in E. rewrite Forall_forall in E.
    exfalso. apply (E value); [|done]. by eapply list_elem_of_lookup_2.
Qed.

Lemma set_line_table_id st :
  set_line_table (used_line_ints st) (line_int_offsets st) st = st.
Proof. by destruct st. Qed.

Lemma set_max_datasource_id_id st : set_max_datasource_id (max_datasource_id st) st = st.
Proof. by destruct st. Qed.

(** What the tally gives for a direction an edge has. *)
Lemma tallied_direction env edges st edge d weight datasource :
  tallied env edges st -> edge ∈ edges ->
  attributes_of env edge d = Some (weight, datasource) ->
  line_int_offsets st !! weight =
    Some (offset_of (first_seen (weights_met env edges)) weight) /\
  datasource <= max_datasource_id st.
Proof.
  intros (Hok & Hused & Hmax & _) Hin Hd.
  destruct (elem_of_weights_met _ _ _ _ _ _ Hin Hd) as [Hw Hds]. split.
  - assert (is_Some (line_int_offsets st !! weight)) as [offset E].
    { apply (table_ok_elem _ _ _ Hok). by rewrite Hused, elem_of_first_seen. }
    rewrite E. f_equal. symmetry. rewrite <- Hused. by eapply offset_of_table.
  - rewrite Hmax. by apply max_datasource_bound.
Qed.

(** One direction of an edge, once the tally is complete: the locals do not
    change, and a feature is written exactly when the direction is drawn. *)
Lemma line_direction_spec env edges tile_bbox st edge d id writer s' :
  tallied env edges st -> edge ∈ edges ->
  line_direction env edge tile_bbox (length_of env edge)
    (weight_of env edge d) (datasource_of env edge d) (segment_of edge d)
    (source_of env edge d) (target_of env edge d) (st, id, writer) = Returns s' ->
  s' = (st,
        fst (if drawn env tile_bbox (edge, d)
             then draw env edges tile_bbox (id, writer) (edge, d) else (id, writer)),
        snd (if drawn env tile_bbox (edge, d)
             then draw env edges tile_bbox (id, writer) (edge, d) else (id, writer))).
Proof.
  intros Hst Hin H. unfold line_direction in H. unfold drawn. simpl fst. simpl snd.
  destruct (negb (weight_of env edge d =? 0) && SegmentID.enabled (segment_of edge d))
    eqn:Hgate; simpl; [|by injection H as <-].
  obind_inv H. rename r into speed_kmh, E into Espeed.
  obind_inv H. rename r into tile_line, E into Eline.
  assert (tile_line_of env tile_bbox edge d = tile_line) as Hline
    by (unfold tile_line_of; by rewrite Eline).
  rewrite Hline. destruct tile_line as [|pt rest]; simpl; [by injection H as <-|].
  assert (speed_of env edge d = speed_kmh) as Hspeed
    by (unfold speed_of; by rewrite Espeed).
  destruct (attributes_of env edge d) as [[weight datasource]|] eqn:Hd.
  - destruct (tallied_direction _ _ _ _ _ _ _ Hst Hin Hd) as [Hoff Hds].
    assert (weight_of env edge d = weight) as Hw by (unfold weight_of; by rewrite Hd).
    rewrite Hw in H. unfold subscript in H. rewrite Hoff in H.
    rewrite set_line_table_id in H.
    unfold draw. simpl fst. simpl snd. rewrite Hline, Hspeed, Hw.
    destruct Hst as (_ & _ & <- & _).
    destruct (encode_tile_line _ _ _ _ _ _ _ _ _ _) as [id' writer'].
    by injection H as <-.
  - exfalso. unfold weight_of in Hgate. rewrite Hd in Hgate. by simpl in Hgate.
Qed.

Lemma line_features_spec env edges tile_bbox st edge id writer s' :
  tallied env edges st -> edge ∈ edges ->
  line_features env tile_bbox edge (st, id, writer) = Returns s' ->
  s' = (st,
        fst (fold_left (draw env edges tile_bbox)
               (drawn_directions env tile_bbox [edge]) (id, writer)),
        snd (fold_left (draw env edges tile_bbox)
               (drawn_directions env tile_bbox [edge]) (id, writer))).
Proof.
  intros Hst Hin H. unfold line_features in H.
  obind_inv H. rename r into forward, E into Ef.
  assert (forward_of env edge = forward) as Hf by (unfold forward_of; by rewrite Ef).
  destruct (default (0, 0) forward) as [forward_weight forward_datasource] eqn:Df.
  obind_inv H. rename r into reverse, E into Er.
  assert (reverse_of env edge = reverse) as Hr by (unfold reverse_of; by rewrite Er).
  destruct (default (0, 0) reverse) as [reverse_weight reverse_datasource] eqn:Dr.
  assert (weight_of env edge Forward = forward_weight /\
          datasource_of env edge Forward = forward_datasource) as [Hfw Hfd].
  { unfold weight_of, datasource_of. simpl. rewrite Hf.
    destruct forward as [[? ?]|]; simpl in *; by injection Df as <- <-. }
  assert (weight_of env edge Reverse = reverse_weight /\
          datasource_of env edge Reverse = reverse_datasource) as [Hrw Hrd].
  { unfold weight_of, datasource_of. simpl. rewrite Hr.
    destruct reverse as [[? ?]|]; simpl in *; by injection Dr as <- <-. }
  (* the running maximum is already the maximum of the box *)
  assert (0 <= max_datasource_id st) as Hpos.
  { destruct Hst as (_ & _ & -> & _). unfold max_datasource.
    generalize (datasources_met env edges). intros l.
    assert (forall l m, 0 <= m -> 0 <= fold_left Z.max l m) as Hp.
    { clear. induction l as [|a l IH]; intros m Hm; simpl; [done|]. apply IH. lia. }
    by apply Hp. }
  assert (forward_datasource <= max_datasource_id st) as Hfb.
  { subst forward. destruct (forward_of env edge) as [[w ds]|] eqn:E; simpl in Df.
    - injection Df as _ <-. by apply (tallied_direction env edges st edge Forward w ds).
    - by injection Df as _ <-. }
  assert (reverse_datasource <= max_datasource_id st) as Hrb.
  { subst reverse. destruct (reverse_of env edge) as [[w ds]|] eqn:E; simpl in Dr.
    - injection Dr as _ <-. by apply (tallied_direction env edges st edge Reverse w ds).
    - by injection Dr as _ <-. }
  rewrite (Z.max_l _ forward_datasource), set_max_datasource_id_id in H by lia.
  rewrite (Z.max_l _ reverse_datasource), set_max_datasource_id_id in H by lia.
  obind_inv H. rename E into Hforward.
  rewrite <- Hfw, <- Hfd in Hforward.
  apply (line_direction_spec env edges tile_bbox st edge Forward) in Hforward;
    [|done|done].
  subst r. rewrite <- Hrw, <- Hrd in H.
  apply (line_direction_spec env edges tile_bbox st edge Reverse) in H; [|done|done].
  subst s'. unfold drawn_directions. simpl.
  destruct (drawn env tile_bbox (edge, Forward)),
           (drawn env tile_bbox (edge, Reverse)); simpl;
    by rewrite <- ?surjective_pairing.
Qed.

Lemma drawn_directions_cons env tile_bbox edge edges :
  drawn_directions env tile_bbox (edge :: edges) =
  drawn_directions env tile_bbox [edge] ++ drawn_directions env tile_bbox edges.
Proof.
  unfold drawn_directions, directions. simpl.
  by destruct (drawn env tile_bbox (edge, Forward)),
              (drawn env tile_bbox (edge, Reverse)).
Qed.

(** The loop over the edges of the line layer. *)
Lemma line_loop_spec env edges tile_bbox st part id writer s' :
  tallied env edges st -> (forall edge, edge ∈ part -> edge ∈ edges) ->
  ofold (line_features env tile_bbox) part (st, id, writer) = Returns s' ->
  s' = (st,
        fst (fold_left (draw env edges tile_bbox)
               (drawn_directions env tile_bbox part) (id, writer)),
        snd (fold_left (draw env edges tile_bbox)
               (drawn_directions env tile_bbox part) (id, writer))).
Proof.
  intros Hst. revert id writer.
  induction part as [|edge part IH]; intros id writer Hsub H; simpl in H.
  - by injection H as <-.
  - obind_inv H. apply (line_features_spec env edges) in E;
      [|done|apply Hsub; by left]. subst r.
    apply IH in H; [|intros e He; apply Hsub; by right].
    rewrite drawn_directions_cons, fold_left_app.
    by rewrite <- surjective_pairing in H.
Qed.

(** What [encode_tile_line] writes: one feature, appended to the layer. *)
Lemma encode_tile_line_writes edge max_datasource_id tile_line speed_kmh duration
    datasource start_x start_y id writer :
  encode_tile_line edge max_datasource_id tile_line speed_kmh duration datasource
    start_x start_y id writer =
  (Int.uint32 (id + 1),
   writer ++
   [pbf_writer vector_tile.FEATURE_TAG
      [ add_enum vector_tile.GEOMETRY_TAG vector_tile.GEOMETRY_TYPE_LINE;
        add_uint64 vector_tile.ID_TAG id;
        packed_field_uint32 vector_tile.FEATURE_ATTRIBUTES_TAG
          [ Int.uint32 0; Int.uint32 (Z.min speed_kmh 127);
            Int.uint32 1; Int.uint32 (128 + (if Edge.is_tiny edge then 0 else 1));
            Int.uint32 2; Int.uint32 (130 + datasource);
            Int.uint32 3; Int.uint32 (130 + max_datasource_id + 1 + duration) ];
        packed_field_uint32 vector_tile.FEATURE_GEOMETRIES_TAG
          (snd (fst (fst (encodeLinestring tile_line [] start_x start_y)))) ]]).
Proof.
  unfold encode_tile_line.
  by destruct (encodeLinestring tile_line [] start_x start_y) as [[[flag geometry] x] y].
Qed.

Lemma draw_writes env edges tile_bbox id writer ed :
  draw env edges tile_bbox (id, writer) ed =
  (Int.uint32 (id + 1), writer ++ snd (draw env edges tile_bbox (id, []) ed)) /\
  exists f, snd (draw env edges tile_bbox (id, []) ed) = [f].
Proof.
  unfold draw. simpl fst. simpl snd. rewrite !encode_tile_line_writes. simpl.
  split; [done | by eexists].
Qed.

Lemma fold_draw env edges tile_bbox dirs id writer :
  exists features,
    snd (fold_left (draw env edges tile_bbox) dirs (id, writer)) = writer ++ features /\
    Forall2 (drawn_as env edges tile_bbox) dirs features.
Proof.
  revert id writer. induction dirs as [|ed dirs IH]; intros id writer; simpl.
  - exists []. by rewrite app_nil_r.
  - destruct (draw_writes env edges tile_bbox id writer ed) as [-> [f Hf]].
    destruct (IH (Int.uint32 (id + 1)) (writer ++ snd (draw env edges tile_bbox (id, []) ed)))
      as (features & -> & Hall).
    exists (f :: features). rewrite Hf, <- app_assoc. split; [done|].
    constructor; [by exists id | done].
Qed.

(** The block of the line layer after a complete tally. *)
Lemma line_layer_spec env edges tile_bbox st st' layer :
  tallied env edges st -> line_layer env edges tile_bbox st = Returns (st', layer) ->
  st' = st /\
  exists features,
    Forall2 (drawn_as env edges tile_bbox) (drawn_directions env tile_bbox edges) features /\
    layer =
      pbf_writer vector_tile.LAYER_TAG
        ([ add_uint32 vector_tile.VERSION_TAG 2;
           add_string vector_tile.NAME_TAG "speeds";
           add_uint32 vector_tile.EXTENT_TAG vector_tile.EXTENT ]
         ++ features
         ++ [ add_string vector_tile.KEY_TAG "speed";
              add_string vector_tile.KEY_TAG "is_small";
              add_string vector_tile.KEY_TAG "datasource";
              add_string vector_tile.KEY_TAG "duration" ]
         ++ line_values env st).
Proof.
  intros Hst H. unfold line_layer in H. obind_inv H.
  apply (line_loop_spec env edges) in E; [|done|done]. subst r.
  injection H as <- <-. split; [done|].
  match goal with
  | |- context [fold_left ?f ?l (?i, ?w)] =>
      destruct (fold_draw env edges tile_bbox l i w) as (features & -> & Hall)
  end.
  exists features. split; [done|]. by rewrite <- !app_assoc.
Qed.

(** ** The request as a whole *)

Lemma tile_writer_Returns env parameters tile :
  tile_writer env parameters = Returns tile ->
  exists st speeds turns,
    (assertions_enabled env = true -> TileParameters.IsValid parameters = true) /\
    ofold (tally_edge env) (edges_of env parameters) initial_locals = Returns st /\
    tallied env (edges_of env parameters) st /\
    line_layer env (edges_of env parameters) (tile_bbox_of env parameters) st
      = Returns (st, speeds) /\
    point_layer env (edges_of env parameters) (tile_bbox_of env parameters) st
      = Returns turns /\
    tile = [speeds; turns].
Proof.
  intros H. unfold tile_writer in H.
  obind_inv H. rename E into Hassert.
  obind_inv H. rename r0 into st, E into Htally.
  obind_inv H. destruct r0 as [st' speeds]. rename E into Hlines.
  obind_inv H. rename r0 into turns, E into Hpoints.
  injection H as <-.
  pose proof (tally_tallied env [] _ _ _ (tallied_initial env) Htally) as Hst.
  simpl in Hst.
  destruct (line_layer_spec _ _ _ _ _ _ Hst Hlines) as [-> _].
  exists st, speeds, turns.
  split; [|by repeat (split; [done|])].
  unfold BOOST_ASSERT in Hassert. intros Hen. rewrite Hen in Hassert.
  by destruct (TileParameters.IsValid parameters).
Qed.

Lemma HandleRequest_Returns env parameters pbf_buffer status buffer :
  HandleRequest env parameters pbf_buffer = Returns (status, buffer) <->
  exists tile,
    tile_writer env parameters = Returns tile /\
    status = Ok /\ buffer = pbf_buffer ++ Wire.pbf_bytes tile.
Proof.
  unfold HandleRequest. rewrite obind_Returns. split.
  - intros (tile & Htile & [= <- <-]). by exists tile.
  - intros (tile & Htile & -> & ->). by exists tile.
Qed.

Lemma filter_all {A : Type} (f : A -> bool) (l : list A) :
  Forall (fun a => f a = true) l -> List.filter f l = l.
Proof.
  induction 1 as [|a l Ha _ IH]; simpl; [done|]. by rewrite Ha, IH.
Qed.

Lemma filter_none {A : Type} (f : A -> bool) (l : list A) :
  Forall (fun a => f a = false) l -> List.filter f l = [].
Proof.
  induction 1 as [|a l Ha _ IH]; simpl; [done|]. by rewrite Ha, IH.
Qed.

Lemma Forall2_right {A B : Type} (R : A -> B -> Prop) (Q : B -> Prop) l k :
  Forall2 R l k -> (forall a b, R a b -> Q b) -> Forall Q k.
Proof. induction 1; intros HQ; constructor; eauto. Qed.

Lemma drawn_as_feature env edges tile_bbox ed f :
  drawn_as env edges tile_bbox ed f ->
  has_tag vector_tile.FEATURE_TAG f = true /\
  has_tag vector_tile.VARIANT_TAG f = false.
Proof.
  intros [id H]. unfold draw in H. rewrite encode_tile_line_writes in H.
  simpl in H. by injection H as <-.
Qed.

Lemma line_values_variants env st :
  Forall (fun f => has_tag vector_tile.VARIANT_TAG f = true) (line_values env st) /\
  Forall (fun f => has_tag vector_tile.FEATURE_TAG f = false) (line_values env st).
Proof.
  unfold line_values.
  split; repeat (apply Forall_app; split);
    try (apply Forall_forall; intros f [x [-> _]]%list_elem_of_fmap; done);
    by repeat constructor.
Qed.

(** The features and the values of the line layer. *)
Lemma speeds_layer env parameters tile :
  tile_writer env parameters = Returns tile ->
  exists st turns,
    tallied env (edges_of env parameters) st /\
    point_layer env (edges_of env parameters) (tile_bbox_of env parameters) st
      = Returns turns /\
    tile = [pbf_writer vector_tile.LAYER_TAG (speeds_of tile); turns] /\
    Forall2 (drawn_as env (edges_of env parameters) (tile_bbox_of env parameters))
      (drawn_directions env (tile_bbox_of env parameters) (edges_of env parameters))
      (layer_features (speeds_of tile)) /\
    layer_values (speeds_of tile) = line_values env st.
Proof.
  intros H. apply tile_writer_Returns in H
    as (st & speeds & turns & _ & _ & Hst & Hlines & Hpoints & ->).
  destruct (line_layer_spec _ _ _ _ _ _ Hst Hlines) as [_ (features & Hall & ->)].
  exists st, turns. split; [done|]. split; [done|]. split; [done|].
  destruct (line_values_variants env st) as [Hv Hnf].
  assert (Forall (fun f => has_tag vector_tile.FEATURE_TAG f = true) features /\
          Forall (fun f => has_tag vector_tile.VARIANT_TAG f = false) features)
    as [Hf Hnv].
  { split; apply (Forall2_right _ _ _ _ Hall); intros ed f Had;
      by destruct (drawn_as_feature _ _ _ _ _ Had). }
  unfold speeds_of, layer_features, layer_values.
  rewrite !List.filter_app, (filter_all _ _ Hf), (filter_none _ _ Hnv),
    (filter_all _ _ Hv), (filter_none _ _ Hnf).
  simpl. by rewrite app_nil_r.
Qed.

Lemma fold_left_max_attained (l : list Z) (m : Z) :
  fold_left Z.max l m = m \/ fold_left Z.max l m ∈ l.
Proof.
  revert m. induction l as [|a l IH]; intros m; simpl; [by left|].
  destruct (IH (Z.max m a)) as [->|Hin].
  - destruct (Z.max_spec m a) as [[_ ->]|[_ ->]]; [right; by left | by left].
  - right. by right.
Qed.

Lemma max_datasource_nonneg env edges : 0 <= max_datasource env edges.
Proof.
  unfold max_datasource. generalize (datasources_met env edges).
  assert (forall l m, 0 <= m -> 0 <= fold_left Z.max l m) as Hp.
  { induction l as [|a l IH]; intros m Hm; simpl; [done|]. apply IH. lia. }
  intros l. by apply Hp.
Qed.

(** The four ranges of an array made of four parts. *)
Lemma four_ranges {A : Type} (l1 l2 l3 l4 : list A) :
  (forall i, (i < length l1)%nat -> (l1 ++ l2 ++ l3 ++ l4) !! i = l1 !! i) /\
  (forall i, (i < length l2)%nat ->
     (l1 ++ l2 ++ l3 ++ l4) !! (length l1 + i)%nat = l2 !! i) /\
  (forall i, (i < length l3)%nat ->
     (l1 ++ l2 ++ l3 ++ l4) !! (length l1 + length l2 + i)%nat = l3 !! i) /\
  (forall i,
     (l1 ++ l2 ++ l3 ++ l4) !! (length l1 + length l2 + length l3 + i)%nat = l4 !! i).
Proof.
  split; [|split; [|split]]; intros i.
  - intros Hi. by rewrite lookup_app_l.
  - intros Hi. rewrite lookup_app_r by lia. rewrite lookup_app_l by lia.
    f_equal. lia.
  - intros Hi. rewrite lookup_app_r by lia. rewrite lookup_app_r by lia.
    rewrite lookup_app_l by lia. f_equal. lia.
  - rewrite lookup_app_r by lia. rewrite lookup_app_r by lia.
    rewrite lookup_app_r by lia. f_equal. lia.
Qed.

(** C5.  The values array of the "speeds" layer is, in order: the 128
    unsigned integers 0..127, each at the index equal to its value; [true]
    at index 128 and [false] at index 129; the names of the datasources
    0..max_datasource_id from index 130 on, where max_datasource_id is the
    largest datasource id of any direction of any edge of the box (so
    max_datasource_id + 1 names); and, from index 130 + max_datasource_id + 1
    on, one double per distinct line weight met by the first loop, in the
    order in which the weights are first met. *)
Theorem speeds_values env parameters tile :
  tile_writer env parameters = Returns tile ->
  layer_values (speeds_of tile) =
    map (fun i => variant (add_uint64 vector_tile.VARIANT_TYPE_UINT64 (Z.of_nat i)))
      (seq 0 128)
    ++ [ variant (add_bool vector_tile.VARIANT_TYPE_BOOL true);
         variant (add_bool vector_tile.VARIANT_TYPE_BOOL false) ]
    ++ map (fun i =>
              variant (add_string vector_tile.VARIANT_TYPE_STRING
                         (GetDatasourceName (facade env) (Z.of_nat i))))
         (seq 0 (Z.to_nat (max_datasource env (edges_of env parameters) + 1)))
    ++ map (fun weight =>
              variant (add_double vector_tile.VARIANT_TYPE_DOUBLE
                         (Double.div (Double.of_int weight) (Double.of_int 10))))
         (first_seen (weights_met env (edges_of env parameters)))
  /\ Z.of_nat (length (seq 0 (Z.to_nat (max_datasource env (edges_of env parameters) + 1))))
     = max_datasource env (edges_of env parameters) + 1
  /\ (forall datasource,
        datasource ∈ datasources_met env (edges_of env parameters) ->
        datasource <= max_datasource env (edges_of env parameters))
  /\ (max_datasource env (edges_of env parameters) = 0 \/
      max_datasource env (edges_of env parameters)
        ∈ datasources_met env (edges_of env parameters))
  /\ NoDup (first_seen (weights_met env (edges_of env parameters)))
  /\ (forall weight,
        weight ∈ first_seen (weights_met env (edges_of env parameters)) <->
        weight ∈ weights_met env (edges_of env parameters))
  /\ (forall i, (i < 128)%nat ->
        layer_values (speeds_of tile) !! i
        = Some (variant (add_uint64 vector_tile.VARIANT_TYPE_UINT64 (Z.of_nat i))))
  /\ layer_values (speeds_of tile) !! 128%nat
     = Some (variant (add_bool vector_tile.VARIANT_TYPE_BOOL true))
  /\ layer_values (speeds_of tile) !! 129%nat
     = Some (variant (add_bool vector_tile.VARIANT_TYPE_BOOL false))
  /\ (forall i, 0 <= Z.of_nat i <= max_datasource env (edges_of env parameters) ->
        layer_values (speeds_of tile) !! (130 + i)%nat
        = Some (variant (add_string vector_tile.VARIANT_TYPE_STRING
                           (GetDatasourceName (facade env) (Z.of_nat i)))))
  /\ (forall j weight,
        first_seen (weights_met env (edges_of env parameters)) !! j = Some weight ->
        layer_values (speeds_of tile)
          !! (130 + Z.to_nat (max_datasource env (edges_of env parameters) + 1) + j)%nat
        = Some (variant (add_double vector_tile.VARIANT_TYPE_DOUBLE
                           (Double.div (Double.of_int weight) (Double.of_int 10))))).
Proof.
  intros H. apply speeds_layer in H as (st & turns & Hst & _ & _ & _ & ->).
  destruct Hst as (_ & Hused & Hmax & _).
  pose proof (max_datasource_nonneg env (edges_of env parameters)) as Hpos.
  unfold line_values. rewrite Hused, Hmax.
  set (M := max_datasource env (edges_of env parameters)) in *.
  match goal with
  | |- ?l1 ++ ?t ++ ?f ++ ?l3 ++ ?l4 = _ /\ _ =>
      change (l1 ++ t ++ f ++ l3 ++ l4) with (l1 ++ (t ++ f) ++ l3 ++ l4);
      destruct (four_ranges l1 (t ++ f) l3 l4) as (R1 & R2 & R3 & R4);
      assert (length l1 = 128%nat) as L1 by (by rewrite length_map, length_seq);
      assert (length l3 = Z.to_nat (M + 1)) as L3 by (by rewrite length_map, length_seq)
  end.
  rewrite L1 in R1, R2, R3, R4. rewrite L3 in R3, R4.
  split; [done|]. split; [rewrite length_seq; lia|].
  split; [intros datasource; apply max_datasource_bound|].
  split; [apply fold_left_max_attained|].
  split; [apply NoDup_first_seen|].
  split; [intros weight; apply elem_of_first_seen|].
  split; [|split; [|split; [|split]]].
  - intros i Hi. rewrite R1 by done. rewrite list_lookup_fmap, lookup_seq_lt by done.
    done.
  - exact (R2 0%nat ltac:(cbn; lia)).
  - exact (R2 1%nat ltac:(cbn; lia)).
  - intros i Hi. etrans; [exact (R3 i ltac:(lia))|].
    rewrite list_lookup_fmap, lookup_seq_lt by lia. done.
  - intros j weight Hj. etrans; [exact (R4 j)|]. by rewrite list_lookup_fmap, Hj.
Qed.

(** [speeds_values] on the sample network: three datasource names and three
    distinct weights. *)
Lemma speeds_values_witness :
  tile_writer Sample.town Sample.request = Returns (Sample.tile Sample.two_segments) /\
  layer_values (speeds_of (Sample.tile Sample.two_segments)) =
    map (fun i => variant (add_uint64 vector_tile.VARIANT_TYPE_UINT64 (Z.of_nat i)))
      (seq 0 128)
    ++ [ variant (add_bool vector_tile.VARIANT_TYPE_BOOL true);
         variant (add_bool vector_tile.VARIANT_TYPE_BOOL false) ]
    ++ map (fun i =>
              variant (add_string vector_tile.VARIANT_TYPE_STRING
                         (Sample.datasource_name (Z.of_nat i))))
         (seq 0 3)
    ++ map (fun weight =>
              variant (add_double vector_tile.VARIANT_TYPE_DOUBLE
                         (Double.div (Double.of_int weight) (Double.of_int 10))))
         [100; 50; 70].
Proof.
  assert (tile_writer Sample.town Sample.request
          = Returns (Sample.tile Sample.two_segments)) as H
    by (vm_compute; reflexivity).
  split; [exact H|].
  exact (proj1 (speeds_values Sample.town Sample.request _ H)).
Defined.

(** ** The speed of a drawn direction *)

Lemma line_direction_speed env tile_bbox edge d s s' :
  line_direction env edge tile_bbox (length_of env edge)
    (weight_of env edge d) (datasource_of env edge d) (segment_of edge d)
    (source_of env edge d) (target_of env edge d) s = Returns s' ->
  drawn env tile_bbox (edge, d) = true ->
  speed_kmh_of (length_of env edge) (weight_of env edge d)
  = Returns (speed_of env edge d).
Proof.
  intros H Hdrawn. unfold line_direction in H. destruct s as [[st id] writer].
  unfold drawn in Hdrawn. simpl in Hdrawn.
  apply andb_prop in Hdrawn as [Hgate _]. rewrite Hgate in H.
  obind_inv H. unfold speed_of. by rewrite E.
Qed.

Lemma line_features_speed env tile_bbox edge s s' :
  line_features env tile_bbox edge s = Returns s' ->
  Forall (fun ed =>
            speed_kmh_of (length_of env (fst ed)) (weight_of env (fst ed) (snd ed))
            = Returns (speed_of env (fst ed) (snd ed)))
    (drawn_directions env tile_bbox [edge]).
Proof.
  intros H. unfold line_features in H. destruct s as [[st id] writer].
  obind_inv H. rename r into forward, E into Ef.
  assert (forward_of env edge = forward) as Hf by (unfold forward_of; by rewrite Ef).
  destruct (default (0, 0) forward) as [forward_weight forward_datasource] eqn:Df.
  obind_inv H. rename r into reverse, E into Er.
  assert (reverse_of env edge = reverse) as Hr by (unfold reverse_of; by rewrite Er).
  destruct (default (0, 0) reverse) as [reverse_weight reverse_datasource] eqn:Dr.
  assert (weight_of env edge Forward = forward_weight /\
          datasource_of env edge Forward = forward_datasource) as [Hfw Hfd].
  { unfold weight_of, datasource_of. simpl. rewrite Hf.
    destruct forward as [[? ?]|]; simpl in *; by injection Df as <- <-. }
  assert (weight_of env edge Reverse = reverse_weight /\
          datasource_of env edge Reverse = reverse_datasource) as [Hrw Hrd].
  { unfold weight_of, datasource_of. simpl. rewrite Hr.
    destruct reverse as [[? ?]|]; simpl in *; by injection Dr as <- <-. }
  obind_inv H. rename E into Hforward.
  rewrite <- Hfw, <- Hfd in Hforward. rewrite <- Hrw, <- Hrd in H.
  pose proof (line_direction_speed env tile_bbox edge Forward _ _ Hforward) as HF.
  pose proof (line_direction_speed env tile_bbox edge Reverse _ _ H) as HR.
  unfold drawn_directions. simpl.
  destruct (drawn env tile_bbox (edge, Forward)),
           (drawn env tile_bbox (edge, Reverse)); repeat constructor; auto.
Qed.

Lemma line_loop_speed env tile_bbox edges s s' :
  ofold (line_features env tile_bbox) edges s = Returns s' ->
  Forall (fun ed =>
            speed_kmh_of (length_of env (fst ed)) (weight_of env (fst ed) (snd ed))
            = Returns (speed_of env (fst ed) (snd ed)))
    (drawn_directions env tile_bbox edges).
Proof.
  revert s. induction edges as [|edge edges IH]; intros s H; simpl in H.
  - constructor.
  - obind_inv H. rewrite drawn_directions_cons. apply Forall_app. split.
    + by eapply line_features_speed.
    + by eapply IH.
Qed.

Lemma tile_writer_speed env parameters tile :
  tile_writer env parameters = Returns tile ->
  Forall (fun ed =>
            speed_kmh_of (length_of env (fst ed)) (weight_of env (fst ed) (snd ed))
            = Returns (speed_of env (fst ed) (snd ed)))
    (drawn_directions env (tile_bbox_of env parameters) (edges_of env parameters)).
Proof.
  intros H. apply tile_writer_Returns in H
    as (st & speeds & turns & _ & _ & _ & Hlines & _).
  unfold line_layer in Hlines. obind_inv Hlines. by eapply line_loop_speed.
Qed.

(** ** The features of the line layer *)

Lemma elem_of_directions edges ed :
  ed ∈ directions edges <-> fst ed ∈ edges.
Proof.
  unfold directions. rewrite list_elem_of_In, in_flat_map. split.
  - intros (edge & Hin & Hed). apply list_elem_of_In in Hin.
    destruct Hed as [<-|[<-|[]]]; done.
  - intros Hin. exists (fst ed). split; [by apply list_elem_of_In|].
    destruct ed as [edge []]; simpl; auto.
Qed.

Lemma elem_of_drawn_directions env tile_bbox edges ed :
  ed ∈ drawn_directions env tile_bbox edges <->
  fst ed ∈ edges /\
  weight_of env (fst ed) (snd ed) <> 0 /\
  SegmentID.enabled (segment_of (fst ed) (snd ed)) = true /\
  tile_line_of env tile_bbox (fst ed) (snd ed) <> [].
Proof.
  unfold drawn_directions. rewrite list_elem_of_In, filter_In, <- list_elem_of_In.
  rewrite elem_of_directions. unfold drawn.
  rewrite !andb_true_iff, negb_true_iff, Z.eqb_neq.
  assert (nonempty (tile_line_of env tile_bbox (fst ed) (snd ed)) = true <->
          tile_line_of env tile_bbox (fst ed) (snd ed) <> []) as ->
    by (by destruct (tile_line_of _ _ _ _)).
  tauto.
Qed.

Lemma drawn_as_shape env edges tile_bbox ed f :
  drawn_as env edges tile_bbox ed f ->
  feature_type f = [vector_tile.GEOMETRY_TYPE_LINE] /\
  feature_geometry f =
    snd (fst (fst (encodeLinestring (tile_line_of env tile_bbox (fst ed) (snd ed))
                     [] 0 0))) /\
  feature_tags f =
    [ 0; Int.uint32 (Z.min (speed_of env (fst ed) (snd ed)) 127);
      1; 128 + (if Edge.is_tiny (fst ed) then 0 else 1);
      2; Int.uint32 (130 + datasource_of env (fst ed) (snd ed));
      3; Int.uint32 (130 + max_datasource env edges + 1
                     + offset_of (first_seen (weights_met env edges))
                         (weight_of env (fst ed) (snd ed))) ].
Proof.
  intros [id H]. unfold draw in H. rewrite encode_tile_line_writes in H.
  simpl in H. injection H as <-. simpl.
  split; [done|]. split; [by rewrite app_nil_r|].
  by destruct (Edge.is_tiny (fst ed)).
Qed.

(** C2 fails as stated: the forward direction of the short segment has the
    weight 70 and is enabled; its clipped line has a single point, and the
    "speeds" layer of the tile written for this segment alone has no
    feature. *)
Lemma enabled_direction_without_feature :
  Sample.segment_25 ∈ edges_of (Sample.release [Sample.segment_25]) Sample.request /\
  weight_of (Sample.release [Sample.segment_25]) Sample.segment_25 Forward = 70 /\
  SegmentID.enabled (Edge.forward_segment_id Sample.segment_25) = true /\
  tile_line_of (Sample.release [Sample.segment_25])
    (tile_bbox_of (Sample.release [Sample.segment_25]) Sample.request)
    Sample.segment_25 Forward = [] /\
  tile_writer (Sample.release [Sample.segment_25]) Sample.request
  = Returns (Sample.tile [Sample.segment_25]) /\
  layer_features (speeds_of (Sample.tile [Sample.segment_25])) = [].
Proof.
  split; [by left|]. repeat split; vm_compute; reflexivity.
Qed.

(** C2, amended.  The line features of the "speeds" layer are, in order,
    one for each direction (edge by edge, forward before reverse) whose
    weight is not zero, whose segment is enabled and whose clipped line is
    not empty; the feature of a direction is a LineString whose geometry
    encodes the clipped line of that direction.  In particular a direction
    with weight zero or a disabled segment has no feature. *)
Theorem line_feature_iff_drawn env parameters tile :
  tile_writer env parameters = Returns tile ->
  (forall ed,
     ed ∈ drawn_directions env (tile_bbox_of env parameters) (edges_of env parameters)
     <->
     fst ed ∈ edges_of env parameters /\
     weight_of env (fst ed) (snd ed) <> 0 /\
     SegmentID.enabled (segment_of (fst ed) (snd ed)) = true /\
     tile_line_of env (tile_bbox_of env parameters) (fst ed) (snd ed) <> []) /\
  Forall2
    (fun ed f =>
       feature_type f = [vector_tile.GEOMETRY_TYPE_LINE] /\
       feature_geometry f =
         snd (fst (fst (encodeLinestring
                          (tile_line_of env (tile_bbox_of env parameters) (fst ed) (snd ed))
                          [] 0 0))))
    (drawn_directions env (tile_bbox_of env parameters) (edges_of env parameters))
    (layer_features (speeds_of tile)).
Proof.
  intros H. split; [intros ed; apply elem_of_drawn_directions|].
  apply speeds_layer in H as (st & turns & _ & _ & _ & Hall & _).
  eapply Forall2_impl; [exact Hall|].
  intros ed f Had. by destruct (drawn_as_shape _ _ _ _ _ Had) as (? & ? & _).
Qed.

(** [line_feature_iff_drawn] on the sample network: the two directions of
    the two-way segment are drawn, the short segment is not. *)
Lemma line_feature_iff_drawn_witness :
  tile_writer Sample.town Sample.request = Returns (Sample.tile Sample.two_segments) /\
  Forall2
    (fun ed f =>
       feature_type f = [vector_tile.GEOMETRY_TYPE_LINE] /\
       feature_geometry f =
         snd (fst (fst (encodeLinestring
                          (tile_line_of Sample.town
                             (tile_bbox_of Sample.town Sample.request) (fst ed) (snd ed))
                          [] 0 0))))
    [(Sample.segment_12, Forward); (Sample.segment_12, Reverse)]
    (layer_features (speeds_of (Sample.tile Sample.two_segments))).
Proof.
  assert (tile_writer Sample.town Sample.request
          = Returns (Sample.tile Sample.two_segments)) as H
    by (vm_compute; reflexivity).
  split; [exact H|].
  exact (proj2 (line_feature_iff_drawn Sample.town Sample.request _ H)).
Defined.

Lemma offset_of_elem (values : list Z) (value : Z) :
  value ∈ values ->
  values !! Z.to_nat (offset_of values value) = Some value /\
  0 <= offset_of values value < vec_size values.
Proof.
  intros Hin. unfold offset_of.
  destruct (list_find _ values) as [[i other]|] eqn:E.
  - apply list_find_Some in E as (Hi & -> & _). rewrite Nat2Z.id.
    split; [done|]. apply lookup_lt_Some in Hi. unfold vec_size. lia.
  - apply list_find_None in E. rewrite Forall_forall in E. by destruct (E value).
Qed.

Lemma length_first_seen (l : list Z) : (length (first_seen l) <= length l)%nat.
Proof.
  induction l as [|a l IH]; simpl; [done|].
  pose proof (length_filter (fun other => other <> a) (first_seen l)). lia.
Qed.

Lemma length_weights_met env edges :
  (length (weights_met env edges) <= 2 * length edges)%nat.
Proof.
  unfold weights_met. induction edges as [|edge edges IH]; simpl; [done|].
  rewrite !length_app.
  destruct (forward_of env edge), (reverse_of env edge); simpl; lia.
Qed.

Lemma Forall2_and_left {A B : Type} (R : A -> B -> Prop) (P : A -> Prop) l k :
  Forall2 R l k -> Forall P l -> Forall2 (fun a b => R a b /\ P a) l k.
Proof.
  induction 1 as [|a b l k HR _ IH]; intros HP; [constructor|].
  apply Forall_cons in HP as [Ha HP]. constructor; auto.
Qed.

Lemma speed_kmh_of_Returns length weight speed_kmh :
  speed_kmh_of length weight = Returns speed_kmh ->
  Double.truncate
    (Double.round
       (Double.mul
          (Double.mul (Double.div length (Double.of_int weight)) (Double.of_int 10))
          Double.lit_3_6)) = Some speed_kmh /\
  0 <= speed_kmh < 2 ^ 32.
Proof.
  unfold speed_kmh_of, Double.to_uint32, Double.to_integral.
  destruct (Double.truncate _) as [z|]; [|discriminate].
  destruct (Int.in_uint32 z) eqn:E; [|discriminate].
  intros [= ->]. split; [done|]. unfold Int.in_uint32 in E. lia.
Qed.

(** C6.  Every feature of the "speeds" layer belongs to a drawn direction
    and carries the attribute pairs [0, min (speed_kmh, 127); 1, 128 or 129
    (128 when the edge is tiny, 129 otherwise); 2, 130 + datasource; 3,
    130 + max_datasource_id + 1 + offset], where speed_kmh is
    round (length / weight * 10 * 3.6) computed in doubles and converted to
    an unsigned integer, length is the great-circle distance of the two
    ends of the edge, and offset is the position of the weight among the
    distinct weights in first-seen order.  The datasource ids are taken to
    be bytes, as their C++ type says, and the number of edges to be small
    enough for the last value to fit the 32 bits of a packed element. *)
Theorem line_feature_tags env parameters tile :
  tile_writer env parameters = Returns tile ->
  (forall datasource,
     datasource ∈ datasources_met env (edges_of env parameters) ->
     0 <= datasource < 256) ->
  2 * vec_size (edges_of env parameters) + 386 <= 2 ^ 32 ->
  Forall2
    (fun ed f =>
       feature_tags f =
         [ 0; Z.min (speed_of env (fst ed) (snd ed)) 127;
           1; 128 + (if Edge.is_tiny (fst ed) then 0 else 1);
           2; 130 + datasource_of env (fst ed) (snd ed);
           3; 130 + max_datasource env (edges_of env parameters) + 1
              + offset_of (first_seen (weights_met env (edges_of env parameters)))
                  (weight_of env (fst ed) (snd ed)) ] /\
       Double.truncate
         (Double.round
            (Double.mul
               (Double.mul
                  (Double.div (length_of env (fst ed))
                     (Double.of_int (weight_of env (fst ed) (snd ed))))
                  (Double.of_int 10))
               Double.lit_3_6)) = Some (speed_of env (fst ed) (snd ed)) /\
       first_seen (weights_met env (edges_of env parameters))
         !! Z.to_nat (offset_of (first_seen (weights_met env (edges_of env parameters)))
                        (weight_of env (fst ed) (snd ed)))
       = Some (weight_of env (fst ed) (snd ed)))
    (drawn_directions env (tile_bbox_of env parameters) (edges_of env parameters))
    (layer_features (speeds_of tile)).
Proof.
  intros H Hbytes Hsmall.
  pose proof (tile_writer_speed _ _ _ H) as Hspeed.
  apply speeds_layer in H as (st & turns & _ & _ & _ & Hall & _).
  set (edges := edges_of env parameters) in *.
  set (tile_bbox := tile_bbox_of env parameters) in *.
  assert (Forall (fun ed => ed ∈ drawn_directions env tile_bbox edges)
            (drawn_directions env tile_bbox edges)) as Hin
    by (by apply Forall_forall).
  pose proof (Forall2_and_left _ _ _ _ (Forall2_and_left _ _ _ _ Hall Hspeed) Hin)
    as Hall'.
  eapply Forall2_impl; [exact Hall'|]. clear Hall Hall' Hspeed Hin.
  intros [edge d] f [[Had Hs] Hd]. cbn [fst snd] in *.
  apply elem_of_drawn_directions in Hd as (Hedge & Hweight & _ & _).
  cbn [fst snd] in *.
  destruct (drawn_as_shape _ _ _ _ _ Had) as (_ & _ & ->). cbn [fst snd].
  apply speed_kmh_of_Returns in Hs as [Hround Hrange].
  (* the direction exists, so its weight and datasource were met *)
  destruct (attributes_of env edge d) as [[weight datasource]|] eqn:E;
    [|exfalso; apply Hweight; unfold weight_of; by rewrite E].
  destruct (elem_of_weights_met _ _ _ _ _ _ Hedge E) as [Hw Hds].
  assert (weight_of env edge d = weight) as Hwe by (unfold weight_of; by rewrite E).
  assert (datasource_of env edge d = datasource) as Hde
    by (unfold datasource_of; by rewrite E).
  rewrite Hwe, Hde in *.
  apply elem_of_first_seen in Hw.
  destruct (offset_of_elem _ _ Hw) as [Hat Hoff].
  pose proof (length_first_seen (weights_met env edges)) as L1.
  pose proof (length_weights_met env edges) as L2.
  pose proof (max_datasource_nonneg env edges) as M0.
  assert (max_datasource env edges < 256) as M1.
  { destruct (fold_left_max_attained (datasources_met env edges) 0) as [E0|E1].
    - unfold max_datasource. rewrite E0. lia.
    - by apply Hbytes in E1 as [_ ?]. }
  apply Hbytes in Hds. unfold vec_size in *.
  split; [|by split].
  unfold Int.uint32. rewrite !Z.mod_small by lia. done.
Qed.

(** [line_feature_tags] on the sample network.  The forward direction of the
    two-way segment is 100 m long and weighs 100 deciseconds: 36 km/h. *)
Lemma line_feature_tags_witness :
  tile_writer Sample.town Sample.request = Returns (Sample.tile Sample.two_segments) /\
  speed_of Sample.town Sample.segment_12 Forward = 36 /\
  Forall2
    (fun ed f =>
       feature_tags f =
         [ 0; Z.min (speed_of Sample.town (fst ed) (snd ed)) 127;
           1; 128 + (if Edge.is_tiny (fst ed) then 0 else 1);
           2; 130 + datasource_of Sample.town (fst ed) (snd ed);
           3; 130 + max_datasource Sample.town (edges_of Sample.town Sample.request) + 1
              + offset_of
                  (first_seen (weights_met Sample.town (edges_of Sample.town Sample.request)))
                  (weight_of Sample.town (fst ed) (snd ed)) ])
    (drawn_directions Sample.town (tile_bbox_of Sample.town Sample.request)
       (edges_of Sample.town Sample.request))
    (layer_features (speeds_of (Sample.tile Sample.two_segments))).
Proof.
  assert (tile_writer Sample.town Sample.request
          = Returns (Sample.tile Sample.two_segments)) as H
    by (vm_compute; reflexivity).
  assert (forall datasource,
            datasource ∈ datasources_met Sample.town (edges_of Sample.town Sample.request) ->
            0 <= datasource < 256) as Hbytes.
  { intros datasource Hin. apply list_elem_of_In in Hin. vm_compute in Hin.
    destruct Hin as [<-|[<-|[<-|[]]]]; lia. }
  assert (2 * vec_size (edges_of Sample.town Sample.request) + 386 <= 2 ^ 32) as Hsmall
    by (vm_compute; discriminate).
  split; [exact H|]. split; [vm_compute; reflexivity|].
  eapply Forall2_impl;
    [exact (line_feature_tags Sample.town Sample.request _ H Hbytes Hsmall)|].
  intros ed f (Htags & _ & _). exact Htags.
Defined.

(** ** Zigzag encoding *)

Lemma lxor_ones_32 (a : Z) : 0 <= a < 2 ^ 32 -> Z.lxor a (Z.ones 32) = Z.ones 32 - a.
Proof.
  intros Ha.
  assert (Z.log2 a < 32) as Hlog.
  { destruct (Z.eq_dec a 0) as [->|Hne]; [done|]. apply Z.log2_lt_pow2; lia. }
  rewrite Z.sub_nocarry_ldiff by (apply Z.ldiff_ones_r_low; lia).
  apply Z.bits_inj'. intros n Hn.
  rewrite Z.lxor_spec, Z.ldiff_spec.
  destruct (Z.lt_ge_cases n 32) as [Hlow|Hhigh].
  - rewrite Z.ones_spec_low by lia. by destruct (Z.testbit a n).
  - rewrite Z.ones_spec_high by lia.
    rewrite (Z.bits_above_log2 a n) by lia. done.
Qed.

Lemma encode_zigzag32_spec (value : Z) :
  - 2 ^ 31 <= value < 2 ^ 31 ->
  encode_zigzag32 value = if value <? 0 then - 2 * value - 1 else 2 * value.
Proof.
  intros Hv. unfold encode_zigzag32, Int.uint32.
  rewrite Z.shiftl_mul_pow2, Z.shiftr_div_pow2 by lia.
  destruct (Z.ltb_spec value 0) as [Hneg|Hpos].
  - assert (value / 2 ^ 31 = -1) as -> by (symmetry; apply Z.div_unique_pos with (r := value + 2 ^ 31); lia).
    change ((-1) mod 2 ^ 32) with (Z.ones 32).
    rewrite lxor_ones_32 by (apply Z.mod_pos_bound; lia).
    assert ((value * 2 ^ 1) mod 2 ^ 32 = value * 2 + 2 ^ 32) as ->
      by (symmetry; apply Z.mod_unique_pos with (q := -1); lia).
    change (Z.ones 32) with (2 ^ 32 - 1). lia.
  - rewrite (Z.div_small value) by lia.
    rewrite Z.lxor_0_r, Z.mod_small by lia. lia.
Qed.

Lemma encode_zigzag32_range (value : Z) :
  - 2 ^ 31 <= value < 2 ^ 31 -> 0 <= encode_zigzag32 value < 2 ^ 32.
Proof.
  intros Hv. rewrite encode_zigzag32_spec by done.
  destruct (Z.ltb_spec value 0); lia.
Qed.

Lemma decode_encode_zigzag32 (value : Z) :
  - 2 ^ 31 <= value < 2 ^ 31 -> decode_zigzag32 (encode_zigzag32 value) = value.
Proof.
  intros Hv. rewrite encode_zigzag32_spec by done. unfold decode_zigzag32.
  rewrite Z.shiftr_div_pow2 by lia. change (2 ^ 1) with 2.
  destruct (Z.ltb_spec value 0) as [Hneg|Hpos].
  - assert (Z.land (- 2 * value - 1) 1 = 1) as ->.
    { change 1 with (Z.ones 1) at 2. rewrite Z.land_ones by lia.
      symmetry. apply Z.mod_unique_pos with (q := - value - 1); lia. }
    assert ((- 2 * value - 1) / 2 = - value - 1) as ->
      by (symmetry; apply Z.div_unique_pos with (r := 1); lia).
    change (- (1)) with (-1). rewrite Z.lxor_m1_r. unfold Z.lnot. lia.
  - assert (Z.land (2 * value) 1 = 0) as ->.
    { change 1 with (Z.ones 1). rewrite Z.land_ones by lia.
      symmetry. apply Z.mod_unique_pos with (q := value); lia. }
    change (- 0) with 0. rewrite Z.lxor_0_r.
    symmetry. apply Z.div_unique_pos with (r := 0); lia.
Qed.

Lemma int32_in_range (z : Z) : - 2 ^ 31 <= Int.int32 z < 2 ^ 31.
Proof.
  unfold Int.int32. pose proof (Z.mod_pos_bound (z + 2 ^ 31) (2 ^ 32)). lia.
Qed.

Lemma int32_id (z : Z) : - 2 ^ 31 <= z < 2 ^ 31 -> Int.int32 z = z.
Proof. intros Hz. unfold Int.int32. rewrite Z.mod_small; lia. Qed.

Lemma uint32_id (z : Z) : 0 <= z < 2 ^ 32 -> Int.uint32 z = z.
Proof. intros Hz. unfold Int.uint32. by rewrite Z.mod_small. Qed.

(** Adding back a difference taken in 32 bits gives the minuend. *)
Lemma int32_add_sub (a b : Z) :
  - 2 ^ 31 <= b < 2 ^ 31 -> Int.int32 (a + Int.int32 (b - a)) = b.
Proof.
  intros Hb. unfold Int.int32.
  assert (a + ((b - a + 2 ^ 31) mod 2 ^ 32 - 2 ^ 31) + 2 ^ 31
          = a + (b - a + 2 ^ 31) mod 2 ^ 32) as -> by lia.
  rewrite Z.add_mod_idemp_r by lia.
  assert (a + (b - a + 2 ^ 31) = b + 2 ^ 31) as -> by lia.
  rewrite Z.mod_small; lia.
Qed.

(** ** The geometry of a line feature *)

Lemma to_int32_Returns (d : double) (z : Z) :
  Double.to_int32 d = Returns z ->
  Double.truncate d = Some z /\ - 2 ^ 31 <= z < 2 ^ 31.
Proof.
  unfold Double.to_int32, Double.to_integral.
  destruct (Double.truncate d) as [z'|]; [|discriminate].
  destruct (Int.in_int32 z') eqn:E; [|discriminate].
  intros [= ->]. split; [done|]. unfold Int.in_int32 in E. lia.
Qed.

Lemma otraverse_Returns {A B : Type} (f : A -> outcome B) (l : list A) (bs : list B) :
  otraverse f l = Returns bs <-> Forall2 (fun a b => f a = Returns b) l bs.
Proof.
  revert bs. induction l as [|a l IH]; intros bs; simpl.
  - split; [intros [= <-]; constructor | by intros ->%Forall2_nil_inv_l].
  - rewrite obind_Returns. split.
    + intros (b & Hb & H). apply obind_Returns in H as (bs' & Hbs & [= <-]).
      constructor; [done | by apply IH].
    + intros (b & bs' & Hb & Hbs & ->)%Forall2_cons_inv_l.
      exists b. split; [done|]. apply obind_Returns. exists bs'.
      split; [by apply IH | done].
Qed.

(** [coordinatesToTileLine] returns the two points of the first clipped
    linestring when that linestring has exactly two points, and the empty
    line in every other case. *)
Lemma coordinatesToTileLine_spec env start target tile_bbox tile_line :
  coordinatesToTileLine env start target tile_bbox = Returns tile_line ->
  (exists P Q rest p q,
     clipped_line_of env start target tile_bbox = [P; Q] :: rest /\
     tile_line = [p; q] /\ pixel_of P p /\ pixel_of Q q)
  \/
  (tile_line = [] /\
   (clipped_line_of env start target tile_bbox = [] \/
    exists first rest,
      clipped_line_of env start target tile_bbox = first :: rest /\
      length first <> 2%nat)).
Proof.
  unfold coordinatesToTileLine. fold (clipped_line_of env start target tile_bbox).
  destruct (clipped_line_of env start target tile_bbox) as [|first rest].
  - intros [= <-]. right. split; [done | by left].
  - destruct (Z.eqb_spec (vec_size first) 2) as [Hsize|Hsize].
    + destruct first as [|P [|Q [|R first]]]; try (unfold vec_size in Hsize; simpl in Hsize; lia).
      intros H. apply otraverse_Returns in H.
      apply Forall2_cons_inv_l in H as (p & line' & HP & H & ->).
      apply Forall2_cons_inv_l in H as (q & line'' & HQ & H & ->).
      apply Forall2_nil_inv_l in H as ->.
      obind_inv HP. obind_inv HP. injection HP as <-.
      obind_inv HQ. obind_inv HQ. injection HQ as <-.
      apply to_int32_Returns in E as [? ?], E0 as [? ?], E1 as [? ?], E2 as [? ?].
      left. exists P, Q, rest. eexists. eexists.
      split; [reflexivity|]. split; [reflexivity|]. by split.
    + intros [= <-]. right. split; [done|]. right. exists first, rest.
      split; [done|]. unfold vec_size in Hsize. lia.
Qed.

(** The geometry of a line of two points, and the vertices read back from
    it. *)
Lemma encodeLinestring_two_points (p q : detail.FixedPoint) :
  - 2 ^ 31 <= detail.x p < 2 ^ 31 -> - 2 ^ 31 <= detail.y p < 2 ^ 31 ->
  - 2 ^ 31 <= detail.x q < 2 ^ 31 -> - 2 ^ 31 <= detail.y q < 2 ^ 31 ->
  encodeLinestring [p; q] [] 0 0 =
    (true,
     [ 9; encode_zigzag32 (detail.x p); encode_zigzag32 (detail.y p);
       10;
       encode_zigzag32 (Int.int32 (detail.x q - detail.x p));
       encode_zigzag32 (Int.int32 (detail.y q - detail.y p)) ],
     detail.x q, detail.y q) /\
  decode_linestring
    (snd (fst (fst (encodeLinestring [p; q] [] 0 0)))) = Some [p; q].
Proof.
  intros Hpx Hpy Hqx Hqy.
  assert (encodeLinestring [p; q] [] 0 0 =
    (true,
     [ 9; encode_zigzag32 (detail.x p); encode_zigzag32 (detail.y p);
       10;
       encode_zigzag32 (Int.int32 (detail.x q - detail.x p));
       encode_zigzag32 (Int.int32 (detail.y q - detail.y p)) ],
     detail.x q, detail.y q)) as ->.
  { unfold encodeLinestring, add_element. simpl.
    rewrite !Z.sub_0_r, !(int32_id (detail.x p)), !(int32_id (detail.y p)) by done.
    pose proof (encode_zigzag32_range _ Hpx).
    pose proof (encode_zigzag32_range _ Hpy).
    pose proof (encode_zigzag32_range _ (int32_in_range (detail.x q - detail.x p))).
    pose proof (encode_zigzag32_range _ (int32_in_range (detail.y q - detail.y p))).
    assert (Int.uint32 (encode_length (Int.uint32 (vec_size [p; q]) - 1)) = 10) as ->
      by reflexivity.
    change (Int.uint32 9) with 9.
    by rewrite !uint32_id by assumption. }
  split; [reflexivity|]. cbn [fst snd decode_linestring].
  change ((9 =? 9) && (Z.land 10 7 =? 2)) with true.
  change (Z.to_nat (Z.shiftr 10 3)) with 1%nat.
  cbn [line_to detail.x detail.y].
  rewrite !decode_encode_zigzag32 by (assumption || apply int32_in_range).
  rewrite !(int32_id (detail.x p)), !(int32_id (detail.y p)) by assumption.
  rewrite !int32_add_sub by assumption.
  by destruct p, q.
Qed.

(** C10.  Every line feature of the "speeds" layer has a geometry of
    exactly two vertices: the two points of the first linestring that the
    clipping returns for its direction, converted to pixels.
    [coordinatesToTileLine] returns those two points, or the empty line
    when the clipping returns nothing or a first linestring that does not
    have exactly two points; an empty line is never encoded. *)
Theorem line_geometry_two_points env parameters tile :
  tile_writer env parameters = Returns tile ->
  Forall2
    (fun ed f =>
       exists P Q rest p q,
         clipped_line_of env (source_of env (fst ed) (snd ed))
           (target_of env (fst ed) (snd ed)) (tile_bbox_of env parameters)
         = [P; Q] :: rest /\
         pixel_of P p /\ pixel_of Q q /\
         tile_line_of env (tile_bbox_of env parameters) (fst ed) (snd ed) = [p; q] /\
         decode_linestring (feature_geometry f) = Some [p; q])
    (drawn_directions env (tile_bbox_of env parameters) (edges_of env parameters))
    (layer_features (speeds_of tile)) /\
  (forall start target tile_bbox tile_line,
     coordinatesToTileLine env start target tile_bbox = Returns tile_line ->
     (exists P Q rest p q,
        clipped_line_of env start target tile_bbox = [P; Q] :: rest /\
        tile_line = [p; q] /\ pixel_of P p /\ pixel_of Q q)
     \/
     (tile_line = [] /\
      (clipped_line_of env start target tile_bbox = [] \/
       exists first rest,
         clipped_line_of env start target tile_bbox = first :: rest /\
         length first <> 2%nat))).
Proof.
  intros H. split; [|apply coordinatesToTileLine_spec].
  apply speeds_layer in H as (st & turns & _ & _ & _ & Hall & _).
  set (edges := edges_of env parameters) in *.
  set (tile_bbox := tile_bbox_of env parameters) in *.
  assert (Forall (fun ed => ed ∈ drawn_directions env tile_bbox edges)
            (drawn_directions env tile_bbox edges)) as Hin
    by (by apply Forall_forall).
  eapply Forall2_impl; [exact (Forall2_and_left _ _ _ _ Hall Hin)|].
  intros [edge d] f [Had Hd]. cbn [fst snd] in *.
  apply elem_of_drawn_directions in Hd as (_ & _ & _ & Hline). cbn [fst snd] in *.
  destruct (drawn_as_shape _ _ _ _ _ Had) as (_ & -> & _). cbn [fst snd].
  unfold tile_line_of in *.
  destruct (coordinatesToTileLine env (source_of env edge d) (target_of env edge d)
              tile_bbox) as [tile_line| |] eqn:E; [|done|done].
  apply coordinatesToTileLine_spec in E
    as [(P & Q & rest & p & q & Hclip & -> & HP & HQ)|[-> _]]; [|done].
  exists P, Q, rest, p, q. split; [done|]. split; [done|]. split; [done|].
  split; [done|].
  destruct HP as (_ & _ & ? & ?), HQ as (_ & _ & ? & ?).
  by apply encodeLinestring_two_points.
Qed.

(** [line_geometry_two_points] on the sample network. *)
Lemma line_geometry_two_points_witness :
  tile_writer Sample.town Sample.request = Returns (Sample.tile Sample.two_segments) /\
  Forall2
    (fun ed f =>
       exists p q,
         tile_line_of Sample.town (tile_bbox_of Sample.town Sample.request)
           (fst ed) (snd ed) = [p; q] /\
         decode_linestring (feature_geometry f) = Some [p; q])
    (drawn_directions Sample.town (tile_bbox_of Sample.town Sample.request)
       (edges_of Sample.town Sample.request))
    (layer_features (speeds_of (Sample.tile Sample.two_segments))).
Proof.
  assert (tile_writer Sample.town Sample.request
          = Returns (Sample.tile Sample.two_segments)) as H
    by (vm_compute; reflexivity).
  split; [exact H|].
  pose proof (proj1 (line_geometry_two_points Sample.town Sample.request _ H)) as Hall.
  eapply Forall2_impl; [exact Hall|].
  intros ed f (P & Q & rest & p & q & _ & _ & _ & Hline & Hdecode).
  exists p, q. split; [exact Hline | exact Hdecode].
Defined.

(** ** The layer of the turns *)

Lemma encode_tile_point_writes tile_point td id writer :
  encode_tile_point tile_point td (id, writer) =
  (Int.uint32 (id + 1),
   writer ++
   [pbf_writer vector_tile.FEATURE_TAG
      [ add_enum vector_tile.GEOMETRY_TAG vector_tile.GEOMETRY_TYPE_POINT;
        add_uint64 vector_tile.ID_TAG id;
        packed_field_uint32 vector_tile.FEATURE_ATTRIBUTES_TAG
          [ 0; Int.uint32 (detail.in_angle_offset td);
            1; Int.uint32 (detail.out_angle_offset td);
            2; Int.uint32 (detail.weight_offset td) ];
        packed_field_uint32 vector_tile.FEATURE_GEOMETRIES_TAG
          [ 9; Int.uint32 (encode_zigzag32 (detail.x tile_point));
            Int.uint32 (encode_zigzag32 (detail.y tile_point)) ] ]]).
Proof. reflexivity. Qed.

Lemma marked_as_shape tile_point td f :
  - 2 ^ 31 <= detail.x tile_point < 2 ^ 31 ->
  - 2 ^ 31 <= detail.y tile_point < 2 ^ 31 ->
  marked_as tile_point td f ->
  has_tag vector_tile.FEATURE_TAG f = true /\
  has_tag vector_tile.VARIANT_TAG f = false /\
  feature_type f = [vector_tile.GEOMETRY_TYPE_POINT] /\
  feature_tags f =
    [ 0; Int.uint32 (detail.in_angle_offset td);
      1; Int.uint32 (detail.out_angle_offset td);
      2; Int.uint32 (detail.weight_offset td) ] /\
  decode_point (feature_geometry f) = Some tile_point.
Proof.
  intros Hx Hy [id H]. rewrite encode_tile_point_writes in H.
  cbn [snd app] in H. injection H as <-.
  split; [reflexivity|]. split; [reflexivity|]. split; [reflexivity|].
  split; [reflexivity|].
  cbn [feature_geometry flat_map packed_elements app].
  change (vector_tile.FEATURE_ATTRIBUTES_TAG =? vector_tile.FEATURE_GEOMETRIES_TAG)
    with false.
  change (vector_tile.FEATURE_GEOMETRIES_TAG =? vector_tile.FEATURE_GEOMETRIES_TAG)
    with true.
  cbn [app decode_point]. change (9 =? 9) with true. cbn iota.
  rewrite !uint32_id by (by apply encode_zigzag32_range).
  rewrite !decode_encode_zigzag32, !int32_id by assumption.
  by destruct tile_point.
Qed.

Lemma fold_encode_tile_point tile_point tds id writer :
  exists features,
    snd (fold_left (fun s td => encode_tile_point tile_point td s) tds (id, writer))
    = writer ++ features /\
    Forall2 (marked_as tile_point) tds features.
Proof.
  revert id writer. induction tds as [|td tds IH]; intros id writer; cbn [fold_left].
  - exists []. by rewrite app_nil_r.
  - rewrite encode_tile_point_writes.
    match goal with
    | |- context [fold_left _ tds (?i, writer ++ [?f])] =>
        destruct (IH i (writer ++ [f])) as (features & -> & Hall);
        exists (f :: features)
    end.
    rewrite <- app_assoc. split; [done|].
    constructor; [|done]. exists id. by rewrite encode_tile_point_writes.
Qed.

Lemma coordinatesToTilePoint_Returns env point tile_bbox tile_point :
  coordinatesToTilePoint env point tile_bbox = Returns tile_point ->
  - 2 ^ 31 <= detail.x tile_point < 2 ^ 31 /\
  - 2 ^ 31 <= detail.y tile_point < 2 ^ 31.
Proof.
  unfold coordinatesToTilePoint. intros H. obind_inv H. obind_inv H.
  injection H as <-. apply to_int32_Returns in E as [_ ?], E0 as [_ ?]. by split.
Qed.

(** One turn of the loop over the indices of the edges. *)
Lemma point_features_spec env edges tile_bbox st i edge tds id writer s' :
  edges !! i = Some edge -> all_turn_data st !! i = Some tds ->
  point_features env edges tile_bbox st i (id, writer) = Returns s' ->
  exists features,
    snd s' = writer ++ features /\
    Forall2
      (fun et f =>
         marked_as (tile_point_of env tile_bbox (fst et)) (snd et) f /\
         - 2 ^ 31 <= detail.x (tile_point_of env tile_bbox (fst et)) < 2 ^ 31 /\
         - 2 ^ 31 <= detail.y (tile_point_of env tile_bbox (fst et)) < 2 ^ 31)
      (marked_turns env tile_bbox [(edge, tds)]) features.
Proof.
  intros Hedge Htds H. unfold point_features in H.
  assert (vec_at edges (Z.of_nat i) = Returns edge) as He
    by (apply vec_at_Returns; rewrite Nat2Z.id; split; [lia | done]).
  assert (vec_at (all_turn_data st) (Z.of_nat i) = Returns tds) as Ht
    by (apply vec_at_Returns; rewrite Nat2Z.id; split; [lia | done]).
  rewrite He, Ht in H. cbn [obind] in H. unfold marked_turns, marked. cbn [flat_map fst snd].
  rewrite app_nil_r.
  destruct tds as [|td tds].
  { injection H as <-. exists []. cbn. by rewrite app_nil_r. }
  cbn [nonempty andb].
  destruct (last_segment edge _); cbn [negb andb] in *;
    [|injection H as <-; exists []; cbn; by rewrite app_nil_r].
  obind_inv H. rename r into tile_point.
  assert (tile_point_of env tile_bbox edge = tile_point) as Hpoint
    by (unfold tile_point_of; by rewrite E).
  rewrite Hpoint. apply coordinatesToTilePoint_Returns in E as [Hx Hy].
  destruct (within _ _); cbn [negb] in H;
    [|injection H as <-; exists []; cbn; by rewrite app_nil_r].
  set (result := fold_left _ (td :: tds) (id, writer)) in H.
  injection H as <-. subst result.
  destruct (fold_encode_tile_point tile_point (td :: tds) id writer)
    as (features & -> & Hall).
  exists features. split; [done|].
  apply Forall2_fmap_l. eapply Forall2_impl; [exact Hall|].
  intros td' f Hf. unfold compose. cbn [fst snd]. by rewrite Hpoint.
Qed.

Lemma marked_turns_cons env tile_bbox et turns :
  marked_turns env tile_bbox (et :: turns) =
  marked_turns env tile_bbox [et] ++ marked_turns env tile_bbox turns.
Proof. unfold marked_turns. cbn [flat_map]. by rewrite app_nil_r. Qed.

(** The loop over the indices, from index [k] on. *)
Lemma point_loop_spec env edges tile_bbox st n k s s' :
  (k + n = length edges)%nat -> length (all_turn_data st) = length edges ->
  ofold (point_features env edges tile_bbox st) (seq k n) s = Returns s' ->
  exists features,
    snd s' = snd s ++ features /\
    Forall2
      (fun et f =>
         marked_as (tile_point_of env tile_bbox (fst et)) (snd et) f /\
         - 2 ^ 31 <= detail.x (tile_point_of env tile_bbox (fst et)) < 2 ^ 31 /\
         - 2 ^ 31 <= detail.y (tile_point_of env tile_bbox (fst et)) < 2 ^ 31)
      (marked_turns env tile_bbox (drop k (zip edges (all_turn_data st)))) features.
Proof.
  revert k s. induction n as [|n IH]; intros k s Hk Hlen H; cbn [seq ofold] in H.
  - injection H as <-. exists []. rewrite app_nil_r. split; [done|].
    rewrite drop_ge; [constructor|]. rewrite length_zip. lia.
  - obind_inv H. rename r into s1.
    destruct (lookup_lt_is_Some_2 edges k) as [edge Hedge]; [lia|].
    destruct (lookup_lt_is_Some_2 (all_turn_data st) k) as [tds Htds]; [lia|].
    destruct s as [id writer].
    destruct (point_features_spec _ _ _ _ _ _ _ _ _ _ Hedge Htds E)
      as (features1 & H1 & Hall1).
    destruct (IH (S k) s1) as (features2 & H2 & Hall2); [lia|done|done|].
    exists (features1 ++ features2). cbn [snd] in *.
    rewrite H2, H1, <- app_assoc. split; [done|].
    assert (zip edges (all_turn_data st) !! k = Some (edge, tds)) as Hzip.
    { apply lookup_zip_with_Some. by exists edge, tds. }
    rewrite (drop_S _ _ _ Hzip), marked_turns_cons.
    by apply Forall2_app.
Qed.

Lemma point_layer_spec env edges tile_bbox st layer :
  length (all_turn_data st) = length edges ->
  point_layer env edges tile_bbox st = Returns layer ->
  exists features,
    Forall2
      (fun et f =>
         marked_as (tile_point_of env tile_bbox (fst et)) (snd et) f /\
         - 2 ^ 31 <= detail.x (tile_point_of env tile_bbox (fst et)) < 2 ^ 31 /\
         - 2 ^ 31 <= detail.y (tile_point_of env tile_bbox (fst et)) < 2 ^ 31)
      (marked_turns env tile_bbox (zip edges (all_turn_data st))) features /\
    layer =
      pbf_writer vector_tile.LAYER_TAG
        ([ add_uint32 vector_tile.VERSION_TAG 2;
           add_string vector_tile.NAME_TAG "turns";
           add_uint32 vector_tile.EXTENT_TAG vector_tile.EXTENT ]
         ++ features
         ++ [ add_string vector_tile.KEY_TAG "bearing_in";
              add_string vector_tile.KEY_TAG "bearing_out";
              add_string vector_tile.KEY_TAG "weight" ]
         ++ map (fun value =>
                   variant (add_uint64 vector_tile.VARIANT_TYPE_UINT64 (Int.uint64 value)))
              (used_point_ints st)).
Proof.
  intros Hlen H. unfold point_layer in H. obind_inv H. destruct r as [id writer].
  injection H as <-.
  apply (point_loop_spec env edges tile_bbox st (length edges) 0) in E; [|lia|done].
  destruct E as (features & Hw & Hall). cbn [snd] in Hw. subst writer.
  exists features. split; [done|]. by rewrite <- !app_assoc.
Qed.

(** C7.  The point features of the "turns" layer are, in order, one for
    each turn record of each edge that (1) has at least one turn record from
    the first loop, (2) is at the last segment of its node-based edge and (3)
    whose end node projects to a pixel strictly inside the padded box; an
    edge that misses one of the three has no point feature.  The features of
    one edge are all at the pixel of the end node of the edge, and each
    carries the three offsets of its record. *)
Theorem turn_points env parameters tile :
  tile_writer env parameters = Returns tile ->
  exists st,
    ofold (tally_edge env) (edges_of env parameters) initial_locals = Returns st /\
    length (all_turn_data st) = length (edges_of env parameters) /\
    (forall et,
       marked env (tile_bbox_of env parameters) et = true <->
       snd et <> [] /\
       Edge.fwd_segment_position (fst et) =
         Int.size_sub
           (vec_size (GetUncompressedGeometry (facade env)
                        (Edge.forward_packed_geometry_id (fst et))))
           1 /\
       within
         (Double.of_int (detail.x (tile_point_of env (tile_bbox_of env parameters) (fst et))),
          Double.of_int (detail.y (tile_point_of env (tile_bbox_of env parameters) (fst et))))
         (clip_box env) = true) /\
    Forall2
      (fun et f =>
         feature_type f = [vector_tile.GEOMETRY_TYPE_POINT] /\
         decode_point (feature_geometry f)
         = Some (tile_point_of env (tile_bbox_of env parameters) (fst et)) /\
         feature_tags f =
           [ 0; Int.uint32 (detail.in_angle_offset (snd et));
             1; Int.uint32 (detail.out_angle_offset (snd et));
             2; Int.uint32 (detail.weight_offset (snd et)) ])
      (marked_turns env (tile_bbox_of env parameters)
         (zip (edges_of env parameters) (all_turn_data st)))
      (layer_features (turns_of tile)).
Proof.
  intros H. apply tile_writer_Returns in H
    as (st & speeds & turns & _ & Htally & Hst & Hlines & Hpoints & ->).
  exists st. split; [done|]. destruct Hst as (_ & _ & _ & Hlen & _).
  split; [done|]. split.
  { intros [edge tds]. unfold marked, last_segment. cbn [fst snd].
    rewrite !andb_true_iff, Z.eqb_eq.
    assert (nonempty tds = true <-> tds <> []) as -> by (by destruct tds).
    tauto. }
  destruct (line_layer_spec _ _ _ _ _ _
              (tally_tallied env [] _ _ _ (tallied_initial env) Htally) Hlines)
    as [_ (line_features & _ & ->)].
  destruct (point_layer_spec _ _ _ _ _ Hlen Hpoints) as (features & Hall & ->).
  assert (Forall2
            (fun et f =>
               has_tag vector_tile.FEATURE_TAG f = true /\
               feature_type f = [vector_tile.GEOMETRY_TYPE_POINT] /\
               decode_point (feature_geometry f)
               = Some (tile_point_of env (tile_bbox_of env parameters) (fst et)) /\
               feature_tags f =
                 [ 0; Int.uint32 (detail.in_angle_offset (snd et));
                   1; Int.uint32 (detail.out_angle_offset (snd et));
                   2; Int.uint32 (detail.weight_offset (snd et)) ])
            (marked_turns env (tile_bbox_of env parameters)
               (zip (edges_of env parameters) (all_turn_data st)))
            features) as Hshape.
  { eapply Forall2_impl; [exact Hall|]. intros et f (Hf & Hx & Hy).
    destruct (marked_as_shape _ _ _ Hx Hy Hf) as (? & _ & ? & ? & ?). by repeat split. }
  assert (Forall (fun f => has_tag vector_tile.FEATURE_TAG f = true) features) as Hfeat.
  { apply (Forall2_right _ _ _ _ Hshape). by intros et f [? _]. }
  cbn [turns_of]. unfold layer_features.
  rewrite !List.filter_app, (filter_all _ _ Hfeat).
  rewrite (filter_none _ (map _ _));
    [|apply Forall_forall; by intros f [x [-> _]]%list_elem_of_fmap].
  cbn [List.filter has_tag]. rewrite app_nil_r.
  cbn. eapply Forall2_impl; [exact Hshape|]. by intros et f (_ & ? & ? & ?).
Qed.

(** [turn_points] on the sample network: the two turns at node 2 are marked
    at the pixel (200, 100) of that node. *)
Lemma turn_points_witness :
  tile_writer Sample.town Sample.request = Returns (Sample.tile Sample.two_segments) /\
  exists st,
    ofold (tally_edge Sample.town) (edges_of Sample.town Sample.request) initial_locals
    = Returns st /\
    Forall2
      (fun et f =>
         decode_point (feature_geometry f)
         = Some (tile_point_of Sample.town (tile_bbox_of Sample.town Sample.request)
                   (fst et)))
      (marked_turns Sample.town (tile_bbox_of Sample.town Sample.request)
         (zip (edges_of Sample.town Sample.request) (all_turn_data st)))
      (layer_features (turns_of (Sample.tile Sample.two_segments))).
Proof.
  assert (tile_writer Sample.town Sample.request
          = Returns (Sample.tile Sample.two_segments)) as H
    by (vm_compute; reflexivity).
  split; [exact H|].
  destruct (turn_points Sample.town Sample.request _ H) as (st & Htally & _ & _ & Hall).
  exists st. split; [exact Htally|].
  eapply Forall2_impl; [exact Hall|].
  intros et f (_ & Hpoint & _). exact Hpoint.
Defined.

(** ** The turns at an intersection *)

Lemma vec_at_0 {A : Type} (a : A) (l : list A) : vec_at (a :: l) 0 = Returns a.
Proof. reflexivity. Qed.

Lemma vec_at_1 {A : Type} (a b : A) (l : list A) : vec_at (a :: b :: l) 1 = Returns b.
Proof. reflexivity. Qed.

(** The body of the loop over the shortcuts emplaces the turn of the
    shortcut, if it has one. *)
Lemma shortcut_turn_spec env edge sum_node_weight adj_shortcut c_nodes c_nodes' :
  shortcut_turn env edge sum_node_weight adj_shortcut c_nodes = Returns c_nodes' ->
  c_nodes' =
    match turn_of_shortcut env edge sum_node_weight adj_shortcut with
    | Some (next_node, turn_weight) => emplace next_node turn_weight c_nodes
    | None => c_nodes
    end.
Proof.
  unfold shortcut_turn, turn_of_shortcut.
  destruct (EdgeData.forward _); cbn [negb]; [|by intros [= <-]].
  destruct (UnpackEdgeToEdges env _ _) as [|first [|second unpacked]].
  - by intros [= <-].
  - by intros [= <-].
  - assert ((vec_size (first :: second :: unpacked) <? 2) = false) as ->.
    { apply Z.ltb_ge. unfold vec_size. cbn [length]. lia. }
    rewrite vec_at_1, vec_at_0. cbn [obind].
    destruct (GetUncompressedGeometry _ _) as [|next_node geometry]; [discriminate|].
    by intros [= <-].
Qed.

Lemma shortcut_loop_spec env edge sum_node_weight shortcuts c_nodes c_nodes' :
  ofold (shortcut_turn env edge sum_node_weight) shortcuts c_nodes = Returns c_nodes' ->
  c_nodes' =
    fold_left (fun m turn => emplace (fst turn) (snd turn) m)
      (omap (turn_of_shortcut env edge sum_node_weight) shortcuts) c_nodes.
Proof.
  revert c_nodes. induction shortcuts as [|adj shortcuts IH]; intros c_nodes H;
    cbn [ofold] in H.
  - by injection H as <-.
  - obind_inv H. apply shortcut_turn_spec in E. subst r. apply IH in H. subst c_nodes'.
    destruct (turn_of_shortcut env edge sum_node_weight adj) as [[? ?]|] eqn:Hturn;
      simpl; by rewrite Hturn.
Qed.

(** [emplace] keeps what the map holds: the first pair of a key wins. *)
Lemma emplace_first (pairs : list (Z * Z)) (m : gmap Z Z) (key : Z) :
  fold_left (fun m turn => emplace (fst turn) (snd turn) m) pairs m !! key =
  match m !! key with
  | Some value => Some value
  | None => first_value key pairs
  end.
Proof.
  revert m. induction pairs as [|[key' value] pairs IH]; intros m; cbn [fold_left].
  - by destruct (m !! key).
  - rewrite IH. cbn [fst snd first_value]. unfold emplace.
    destruct (m !! key') as [value'|] eqn:E'.
    + destruct (m !! key) as [v|] eqn:E; [done|].
      rewrite decide_False; [done | congruence].
    + destruct (decide (key' = key)) as [->|Hne].
      * by rewrite lookup_insert_eq, E'.
      * by rewrite lookup_insert_ne.
Qed.




(** ** Requests that break a precondition *)

(** [HandleRequest] has one status to return. *)
Lemma HandleRequest_status env parameters pbf_buffer status buffer :
  HandleRequest env parameters pbf_buffer = Returns (status, buffer) -> status = Ok.
Proof. by intros (tile & _ & -> & _)%HandleRequest_Returns. Qed.





(** Reading a direction of an edge whose arrays are too short does not
    return. *)
Lemma forward_attributes_short env edge :
  Edge.forward_packed_geometry_id edge <> SPECIAL_EDGEID ->
  vec_size (GetUncompressedWeights (facade env) (Edge.forward_packed_geometry_id edge))
    <= Edge.fwd_segment_position edge \/
  vec_size (GetUncompressedDatasources (facade env) (Edge.forward_packed_geometry_id edge))
    <= Edge.fwd_segment_position edge ->
  forall attributes, forward_attributes env edge <> Returns attributes.
Proof.
  intros Hhas Hshort attributes H. unfold forward_attributes in H.
  apply Z.eqb_neq in Hhas. rewrite Hhas in H.
  obind_inv H. obind_inv H.
  apply vec_at_in_range in E, E0. lia.
Qed.

Lemma reverse_index_outside (size position : Z) :
  0 <= size <= position -> position < 2 ^ 64 ->
  ~ 0 <= Int.size_sub (Int.size_sub size position) 1 < size.
Proof.
  intros Hsize Hpos. unfold Int.size_sub, Int.uint64.
  destruct (Z.eq_dec size position) as [->|Hne].
  - rewrite Z.sub_diag. change (0 mod 2 ^ 64) with 0.
    change ((0 - 1) mod 2 ^ 64) with (2 ^ 64 - 1). lia.
  - assert ((size - position) mod 2 ^ 64 = size - position + 2 ^ 64) as ->
      by (symmetry; apply Z.mod_unique_pos with (q := -1); lia).
    rewrite Z.mod_small by lia. lia.
Qed.

Lemma reverse_attributes_short env edge :
  Edge.reverse_packed_geometry_id edge <> SPECIAL_EDGEID ->
  0 <= Edge.fwd_segment_position edge < 2 ^ 64 ->
  vec_size (GetUncompressedWeights (facade env) (Edge.reverse_packed_geometry_id edge))
    <= Edge.fwd_segment_position edge \/
  vec_size (GetUncompressedDatasources (facade env) (Edge.reverse_packed_geometry_id edge))
    <= Edge.fwd_segment_position edge ->
  forall attributes, reverse_attributes env edge <> Returns attributes.
Proof.
  intros Hhas Hpos Hshort attributes H. unfold reverse_attributes in H.
  apply Z.eqb_neq in Hhas. rewrite Hhas in H.
  obind_inv H. obind_inv H. obind_inv H.
  apply vec_at_in_range in E0, E1.
  destruct Hshort as [Hshort|Hshort].
  - apply (reverse_index_outside _ (Edge.fwd_segment_position edge)) in E0; [done| |lia].
    unfold vec_size in *. lia.
  - apply (reverse_index_outside _ (Edge.fwd_segment_position edge)) in E1; [done| |lia].
    unfold vec_size in *. lia.
Qed.

(** With the reverse weights too short, a build that checks assertions stops
    at the assertion. *)
Lemma reverse_attributes_asserted env edge :
  assertions_enabled env = true ->
  Edge.reverse_packed_geometry_id edge <> SPECIAL_EDGEID ->
  vec_size (GetUncompressedWeights (facade env) (Edge.reverse_packed_geometry_id edge))
    <= Edge.fwd_segment_position edge ->
  reverse_attributes env edge = Aborts.
Proof.
  intros Hen Hhas Hshort. unfold reverse_attributes, BOOST_ASSERT.
  apply Z.eqb_neq in Hhas. rewrite Hhas, Hen.
  apply Z.ltb_ge in Hshort. by rewrite Hshort.
Qed.

(** The first loop reads both directions of every edge. *)
Lemma tally_edge_reads env edge st st' :
  tally_edge env edge st = Returns st' ->
  (exists attributes, forward_attributes env edge = Returns attributes) /\
  (exists attributes, reverse_attributes env edge = Returns attributes).
Proof.
  intros H. unfold tally_edge in H. obind_inv H. obind_inv H.
  destruct r0 as [[forward_datasource st1] edge_turn_data]. obind_inv H.
  split; by eexists.
Qed.

(** C3 fails as stated.  The forward geometry of [segment_short] has an
    empty weight array, so the array is not longer than the segment position
    0: the request reads outside the array and has no defined result.  With
    the same geometry on the reverse side, a build that checks assertions
    aborts at the assertion.  Neither returns [DataInconsistency]. *)
Lemma short_array_is_not_reported :
  vec_size (GetUncompressedWeights (facade (Sample.release [Sample.segment_short]))
              (Edge.forward_packed_geometry_id Sample.segment_short))
  <= Edge.fwd_segment_position Sample.segment_short /\
  HandleRequest (Sample.release [Sample.segment_short]) Sample.request [] = Undefined /\
  HandleRequest (Sample.release [Sample.segment_short_reverse]) Sample.request []
  = Undefined /\
  HandleRequest (Sample.debug [Sample.segment_short_reverse]) Sample.request []
  = Aborts.
Proof. repeat split; vm_compute; (reflexivity || discriminate). Qed.

(** ** The wire format read back *)

Lemma lor_high (a b n : Z) :
  0 <= n -> 0 <= a < 2 ^ n -> Z.lor a (b * 2 ^ n) = a + b * 2 ^ n.
Proof.
  intros Hn Ha.
  assert (Z.land a (b * 2 ^ n) = 0) as Hland.
  { apply Z.bits_inj'. intros i Hi. rewrite Z.land_spec, Z.bits_0.
    destruct (Z.lt_ge_cases i n) as [Hlow|Hhigh].
    - by rewrite Z.mul_pow2_bits_low, andb_false_r.
    - destruct (Z.eq_dec a 0) as [->|Hne]; [by rewrite Z.bits_0|].
      rewrite (Z.bits_above_log2 a i); [done | lia |].
      assert (Z.log2 a < n) by (apply Z.log2_lt_pow2; lia). lia. }
  by rewrite <- Z.lxor_lor, Z.add_nocarry_lxor.
Qed.

Lemma varint_continuation (value : Z) :
  0 <= value ->
  Z.lor (Z.land value 127) 128 = value mod 128 + 128 /\
  Z.land (value mod 128 + 128) 127 = value mod 128.
Proof.
  intros Hv. pose proof (Z.mod_pos_bound value 128) as Hm.
  change 127 with (Z.ones 7). rewrite !Z.land_ones by lia. change (2 ^ 7) with 128.
  split.
  - change 128 with (1 * 2 ^ 7) at 2. rewrite lor_high; [done | lia|].
    change (2 ^ 7) with 128. lia.
  - rewrite <- Z.add_mod_idemp_r by lia. change (128 mod 128) with 0.
    rewrite Z.add_0_r, Z.mod_mod; lia.
Qed.

(** A varint written with enough fuel is read back. *)
Lemma varint_roundtrip (n : nat) (value : Z) (rest : list Z) :
  0 <= value < 2 ^ (7 * Z.of_nat (S n)) ->
  Wire.read_varint (S n) (Wire.varint (S n) value ++ rest) = Some (value, rest).
Proof.
  revert value. induction n as [|n IH]; intros value Hv.
  - cbn [Wire.varint]. change (2 ^ (7 * Z.of_nat 1)) with 128 in Hv.
    assert ((value <? 128) = true) as Hlt by (apply Z.ltb_lt; lia).
    rewrite Hlt. cbn [app Wire.read_varint]. by rewrite Hlt.
  - remember (S n) as m eqn:Hm. cbn [Wire.varint].
    destruct (Z.ltb_spec value 128) as [Hlt|Hge].
    + cbn [app Wire.read_varint].
      by assert ((value <? 128) = true) as -> by (apply Z.ltb_lt; lia).
    + cbn [app Wire.read_varint].
      destruct (varint_continuation value) as [Hbyte Hlow]; [lia|].
      pose proof (Z.mod_pos_bound value 128) as Hmod.
      rewrite Hbyte.
      assert ((value mod 128 + 128 <? 128) = false) as -> by (apply Z.ltb_ge; lia).
      rewrite Z.shiftr_div_pow2 by lia. change (2 ^ 7) with 128.
      rewrite IH.
      * rewrite Hlow, Z.shiftl_mul_pow2 by lia.
        rewrite lor_high; [|lia|change (2 ^ 7) with 128; lia].
        change (2 ^ 7) with 128.
        by rewrite (Z.div_mod value 128) at 3 by lia; rewrite Z.add_comm, Z.mul_comm.
      * subst m. split; [apply Z.div_pos; lia|].
        apply Z.div_lt_upper_bound; [lia|].
        replace (7 * Z.of_nat (S (S n))) with (7 + 7 * Z.of_nat (S n)) in Hv by lia.
        rewrite Z.pow_add_r in Hv by lia. change (2 ^ 7) with 128 in Hv. lia.
Qed.

Lemma read_write_varint (value : Z) (rest : list Z) :
  Wire.read_varint 10 (Wire.write_varint value ++ rest) = Some (Int.uint64 value, rest).
Proof.
  unfold Wire.write_varint. apply varint_roundtrip.
  unfold Int.uint64. pose proof (Z.mod_pos_bound value (2 ^ 64)).
  change (7 * Z.of_nat 10) with 70.
  assert (2 ^ 64 < 2 ^ 70) by (apply Z.pow_lt_mono_r; lia). lia.
Qed.

Lemma write_varint_nonempty (value : Z) : Wire.write_varint value <> [].
Proof.
  unfold Wire.write_varint. cbn [Wire.varint].
  by destruct (Int.uint64 value <? 128).
Qed.

(** The key of a field is read back as its tag and its wire type. *)
Lemma read_key (tag wire_type : Z) (rest : list Z) :
  0 <= tag < 2 ^ 29 -> 0 <= wire_type < 8 ->
  exists k,
    Wire.read_varint 10 (Wire.key tag wire_type ++ rest) = Some (k, rest) /\
    Z.shiftr k 3 = tag /\ Z.land k 7 = wire_type.
Proof.
  intros Htag Hwt. exists (wire_type + tag * 2 ^ 3).
  assert (Z.lor (Z.shiftl tag 3) wire_type = wire_type + tag * 2 ^ 3) as Hkey.
  { rewrite Z.shiftl_mul_pow2, Z.lor_comm by lia. apply lor_high; [lia|].
    change (2 ^ 3) with 8. lia. }
  change (2 ^ 3) with 8 in *. change (2 ^ 29) with 536870912 in Htag.
  split; [|split].
  - unfold Wire.key. rewrite read_write_varint, Hkey. do 2 f_equal.
    unfold Int.uint64, Int.uint32.
    change (2 ^ 32) with 4294967296. change (2 ^ 64) with 18446744073709551616.
    rewrite (Z.mod_small (wire_type + tag * 8)) by lia. by rewrite Z.mod_small by lia.
  - rewrite Z.shiftr_div_pow2 by lia. change (2 ^ 3) with 8.
    symmetry. apply Z.div_unique_pos with (r := wire_type); lia.
  - change 7 with (Z.ones 3). rewrite Z.land_ones by lia. change (2 ^ 3) with 8.
    symmetry. apply Z.mod_unique_pos with (q := tag); lia.
Qed.

Lemma field_bytes_writer (tag : Z) (fields : list pbf_field) :
  Wire.field_bytes (pbf_writer tag fields) =
  Wire.length_delimited tag (Wire.pbf_bytes fields).
Proof.
  cbn [Wire.field_bytes]. f_equal. unfold Wire.pbf_bytes.
  induction fields as [|f fields IH]; [done|]. cbn [map concat]. by rewrite IH.
Qed.

Lemma read_field_varint (tag value : Z) (rest : list Z) :
  0 <= tag < 2 ^ 29 ->
  Wire.read_field ((Wire.key tag 0 ++ Wire.write_varint value) ++ rest)
  = Some (tag, Wire.wire_varint (Int.uint64 value), rest).
Proof.
  intros Htag. unfold Wire.read_field. rewrite <- app_assoc.
  destruct (read_key tag 0 (Wire.write_varint value ++ rest)) as (k & -> & -> & ->);
    [done | lia|].
  by rewrite read_write_varint.
Qed.

Lemma read_field_bool (tag : Z) (b : bool) (rest : list Z) :
  0 <= tag < 2 ^ 29 ->
  Wire.read_field ((Wire.key tag 0 ++ [if b then 1 else 0]) ++ rest)
  = Some (tag, Wire.wire_varint (if b then 1 else 0), rest).
Proof.
  intros Htag. unfold Wire.read_field. rewrite <- app_assoc.
  destruct (read_key tag 0 ([if b then 1 else 0] ++ rest)) as (k & -> & -> & ->);
    [done | lia|].
  by destruct b.
Qed.

Lemma read_field_fixed64 (tag value : Z) (rest : list Z) :
  0 <= tag < 2 ^ 29 ->
  Wire.read_field ((Wire.key tag 1 ++ Wire.le64 value) ++ rest)
  = Some (tag, Wire.wire_fixed64 (Wire.le64 value), rest).
Proof.
  intros Htag. unfold Wire.read_field. rewrite <- app_assoc.
  destruct (read_key tag 1 (Wire.le64 value ++ rest)) as (k & -> & -> & ->);
    [done | lia|].
  assert (length (Wire.le64 value) = 8%nat) as Hlen by reflexivity.
  assert ((8 <=? vec_size (Wire.le64 value ++ rest)) = true) as ->.
  { apply Z.leb_le. unfold vec_size. rewrite length_app, Hlen. lia. }
  by rewrite take_app_length', drop_app_length'.
Qed.

Lemma read_field_bytes (tag : Z) (payload rest : list Z) :
  0 <= tag < 2 ^ 29 -> vec_size payload < 2 ^ 32 ->
  Wire.read_field
    ((Wire.key tag 2 ++ Wire.write_varint (Int.uint32 (vec_size payload)) ++ payload)
     ++ rest)
  = Some (tag, Wire.wire_bytes payload, rest).
Proof.
  intros Htag Hlen. unfold Wire.read_field. rewrite <- !app_assoc.
  destruct (read_key tag 2
              (Wire.write_varint (Int.uint32 (vec_size payload)) ++ payload ++ rest))
    as (k & -> & -> & ->); [done | lia|].
  rewrite read_write_varint.
  assert (Int.uint64 (Int.uint32 (vec_size payload)) = vec_size payload) as ->.
  { unfold Int.uint64, Int.uint32, vec_size in *.
    assert (2 ^ 32 < 2 ^ 64) by (apply Z.pow_lt_mono_r; lia).
    rewrite (Z.mod_small (Z.of_nat (length payload))) by lia.
    rewrite Z.mod_small; lia. }
  assert ((vec_size payload <=? vec_size (payload ++ rest)) = true) as ->.
  { apply Z.leb_le. unfold vec_size. rewrite length_app. lia. }
  unfold vec_size. rewrite Nat2Z.id.
  by rewrite take_app_length, drop_app_length.
Qed.

(** A field that fits is read back as [wire_of] says, and a field that was
    rolled back has left no byte. *)
Lemma read_field_of (f : pbf_field) (rest : list Z) :
  fits f ->
  match wire_of f with
  | Some (tag, value) =>
      Wire.read_field (Wire.field_bytes f ++ rest) = Some (tag, value, rest) /\
      Wire.field_bytes f <> []
  | None => Wire.field_bytes f = []
  end.
Proof.
  intros [Htag Hlen].
  assert (forall tag wire_type more, Wire.key tag wire_type ++ more <> []) as Hkey.
  { intros tag wire_type more H. apply app_eq_nil in H as [H _].
    by apply write_varint_nonempty in H. }
  destruct f as [tag v|tag v|tag v|tag b|tag s|tag d|tag elements|tag fields];
    cbn [field_tag field_payload] in *; cbn [wire_of].
  - split; [by apply read_field_varint | apply Hkey].
  - split; [by apply read_field_varint | apply Hkey].
  - split; [by apply read_field_varint | apply Hkey].
  - split; [by apply read_field_bool | apply Hkey].
  - split; [by apply read_field_bytes | apply Hkey].
  - split; [by apply read_field_fixed64 | apply Hkey].
  - cbn [Wire.field_bytes field_payload]. unfold Wire.length_delimited.
    destruct (concat (map Wire.write_varint elements)) as [|b payload] eqn:E; [done|].
    split; [by apply read_field_bytes | apply Hkey].
  - rewrite field_bytes_writer. cbn [field_payload]. unfold Wire.length_delimited.
    destruct (Wire.pbf_bytes fields) as [|b payload] eqn:E; [done|].
    split; [by apply read_field_bytes | apply Hkey].
Qed.

(** A message whose fields fit is read back field by field. *)
Lemma read_fields_of (fields : list pbf_field) (fuel : nat) :
  Forall fits fields -> (length (Wire.pbf_bytes fields) <= fuel)%nat ->
  Wire.read_fields fuel (Wire.pbf_bytes fields) = Some (omap wire_of fields).
Proof.
  revert fuel. induction fields as [|f fields IH]; intros fuel Hfits Hfuel.
  - by destruct fuel.
  - apply Forall_cons in Hfits as [Hf Hfits].
    change (Wire.pbf_bytes (f :: fields))
      with (Wire.field_bytes f ++ Wire.pbf_bytes fields) in *.
    pose proof (read_field_of f (Wire.pbf_bytes fields) Hf) as Hread.
    simpl omap. destruct (wire_of f) as [[tag value]|].
    + destruct Hread as [Hread Hne].
      destruct (Wire.field_bytes f) as [|b bytes] eqn:E; [done|].
      rewrite length_app in Hfuel. cbn [length] in Hfuel.
      destruct fuel as [|fuel]; [lia|].
      cbn [app Wire.read_fields]. cbn [app] in Hread. rewrite Hread.
      rewrite IH; [done | done | lia].
    + rewrite Hread in *. cbn [app] in *. by apply IH.
Qed.

Lemma read_message_of (fields : list pbf_field) :
  Forall fits fields ->
  Wire.read_message (Wire.pbf_bytes fields) = Some (omap wire_of fields).
Proof. intros Hfits. by apply read_fields_of. Qed.

(** ** The two layers in the bytes of the tile *)

Lemma payload_le_field (f : pbf_field) :
  vec_size (field_payload f) <= vec_size (Wire.field_bytes f).
Proof.
  assert (forall tag payload,
            vec_size payload <= vec_size (Wire.length_delimited tag payload)) as Hld.
  { intros tag [|b payload]; [done|]. unfold Wire.length_delimited, vec_size.
    rewrite !length_app. lia. }
  destruct f as [tag v|tag v|tag v|tag b|tag s|tag d|tag elements|tag fields];
    try (unfold vec_size; cbn [field_payload length]; lia).
  - cbn [field_payload Wire.field_bytes]. unfold vec_size. rewrite !length_app. lia.
  - cbn [field_payload Wire.field_bytes]. apply Hld.
  - rewrite field_bytes_writer. cbn [field_payload]. apply Hld.
Qed.

Lemma field_le_message (f : pbf_field) (fields : list pbf_field) :
  f ∈ fields -> vec_size (Wire.field_bytes f) <= vec_size (Wire.pbf_bytes fields).
Proof.
  unfold Wire.pbf_bytes, vec_size. induction 1 as [f fields|f g fields _ IH];
    cbn [map concat]; rewrite length_app; lia.
Qed.

(** The fields of a message that is smaller than 4 GiB fit, as far as their
    lengths are concerned. *)
Lemma fits_of_small (fields : list pbf_field) :
  vec_size (Wire.pbf_bytes fields) < 2 ^ 32 ->
  Forall (fun f => 0 <= field_tag f < 2 ^ 29) fields ->
  Forall fits fields.
Proof.
  intros Hsmall Htags. apply Forall_forall. intros f Hin.
  rewrite Forall_forall in Htags. split; [by apply Htags|].
  pose proof (payload_le_field f). pose proof (field_le_message f fields Hin). lia.
Qed.

Lemma wire_of_tag (f : pbf_field) (tag : Z) (value : Wire.wire_value) :
  wire_of f = Some (tag, value) -> tag = field_tag f.
Proof.
  destruct f as [t v|t v|t v|t b|t s|t d|t elements|t fields]; cbn [wire_of field_tag];
    try (by intros [= <- _]);
    by destruct (field_payload _); [|intros [= <- _]].
Qed.

(** Fields with other tags do not show up under a tag. *)
Lemma fields_with_other (tag : Z) (fields : list pbf_field) :
  Forall (fun f => field_tag f <> tag) fields ->
  fields_with tag (omap wire_of fields) = [].
Proof.
  unfold fields_with. induction 1 as [|f fields Hf _ IH]; [done|].
  simpl omap. destruct (wire_of f) as [[tag' value]|] eqn:E; [|done].
  cbn [List.filter fst]. apply wire_of_tag in E as ->.
  by assert ((field_tag f =? tag) = false) as -> by (by apply Z.eqb_neq).
Qed.

(** The fields that follow the three fields at the head of a layer are
    features (2), keys (3) and values (4). *)
Lemma has_tag_field_tag (tag : Z) (f : pbf_field) :
  has_tag tag f = true -> field_tag f = tag.
Proof. destruct f; cbn; try discriminate. by intros ?%Z.eqb_eq. Qed.

(** A layer that starts with its version, name and extent, followed by
    fields with the tags 2 to 4, is read back with exactly that version,
    name and extent. *)
Lemma layer_read_back (name : string) (body : list pbf_field) :
  let fields :=
    [ add_uint32 vector_tile.VERSION_TAG 2;
      add_string vector_tile.NAME_TAG name;
      add_uint32 vector_tile.EXTENT_TAG vector_tile.EXTENT ] ++ body in
  Forall (fun f => 2 <= field_tag f <= 4) body ->
  vec_size (Wire.pbf_bytes fields) < 2 ^ 32 ->
  exists layer,
    decode_layer (vector_tile.LAYER_TAG, Wire.wire_bytes (Wire.pbf_bytes fields))
    = Some layer /\
    wire_of (pbf_writer vector_tile.LAYER_TAG fields)
    = Some (vector_tile.LAYER_TAG, Wire.wire_bytes (Wire.pbf_bytes fields)) /\
    fields_with vector_tile.NAME_TAG layer = [Wire.wire_bytes (Wire.string_bytes name)] /\
    fields_with vector_tile.VERSION_TAG layer = [Wire.wire_varint 2] /\
    fields_with vector_tile.EXTENT_TAG layer = [Wire.wire_varint 4096].
Proof.
  intros fields Hbody Hsmall.
  assert (Forall fits fields) as Hfits.
  { apply fits_of_small; [done|]. apply Forall_app. split.
    - repeat (apply Forall_cons; split;
                [cbn [field_tag];
                 unfold vector_tile.VERSION_TAG, vector_tile.NAME_TAG,
                   vector_tile.EXTENT_TAG; lia|]).
      done.
    - eapply Forall_impl; [exact Hbody|]. intros f Hf.
      change (2 ^ 29) with 536870912. cbn beta in Hf. lia. }
  exists (omap wire_of fields). split; [|split].
  - cbn [decode_layer]. change (vector_tile.LAYER_TAG =? vector_tile.LAYER_TAG) with true.
    by apply read_message_of.
  - cbn [wire_of field_payload].
    destruct (Wire.pbf_bytes fields) as [|b bytes] eqn:E; [|done].
    exfalso. unfold fields, Wire.pbf_bytes in E. cbn [app map concat] in E.
    apply app_eq_nil in E as [E _]. cbn [Wire.field_bytes] in E.
    apply app_eq_nil in E as [E _]. by apply write_varint_nonempty in E.
  - unfold fields. rewrite omap_app. unfold fields_with.
    rewrite List.filter_app, map_app.
    fold (fields_with vector_tile.NAME_TAG (omap wire_of body)).
    fold (fields_with vector_tile.VERSION_TAG (omap wire_of body)).
    fold (fields_with vector_tile.EXTENT_TAG (omap wire_of body)).
    rewrite !fields_with_other;
      try (eapply Forall_impl; [exact Hbody|]; intros f Hf; cbn beta in Hf;
           unfold vector_tile.NAME_TAG, vector_tile.VERSION_TAG, vector_tile.EXTENT_TAG;
           lia).
    rewrite !List.filter_app, !map_app.
    fold (fields_with vector_tile.VERSION_TAG (omap wire_of body)).
    fold (fields_with vector_tile.EXTENT_TAG (omap wire_of body)).
    rewrite !fields_with_other;
      try (eapply Forall_impl; [exact Hbody|]; intros f Hf; cbn beta in Hf;
           unfold vector_tile.NAME_TAG, vector_tile.VERSION_TAG, vector_tile.EXTENT_TAG;
           lia).
    by repeat split.
Qed.

Lemma speeds_body_tags env edges tile_bbox st features :
  Forall2 (drawn_as env edges tile_bbox) (drawn_directions env tile_bbox edges) features ->
  Forall (fun f => 2 <= field_tag f <= 4)
    (features
     ++ [ add_string vector_tile.KEY_TAG "speed";
          add_string vector_tile.KEY_TAG "is_small";
          add_string vector_tile.KEY_TAG "datasource";
          add_string vector_tile.KEY_TAG "duration" ]
     ++ line_values env st).
Proof.
  intros Hall. apply Forall_app. split; [|apply Forall_app; split].
  - apply (Forall2_right _ _ _ _ Hall). intros ed f Had.
    destruct (drawn_as_feature _ _ _ _ _ Had) as [Hf _].
    apply has_tag_field_tag in Hf. rewrite Hf. by compute.
  - repeat (apply Forall_cons; split; [by compute|]). done.
  - destruct (line_values_variants env st) as [Hv _].
    eapply Forall_impl; [exact Hv|]. intros f Hf.
    apply has_tag_field_tag in Hf. rewrite Hf. by compute.
Qed.

Lemma turns_body_tags env tile_bbox (turns : list (Edge.t * detail.TurnData))
    features (values : list Z) :
  Forall2
    (fun et f =>
       marked_as (tile_point_of env tile_bbox (fst et)) (snd et) f /\
       - 2 ^ 31 <= detail.x (tile_point_of env tile_bbox (fst et)) < 2 ^ 31 /\
       - 2 ^ 31 <= detail.y (tile_point_of env tile_bbox (fst et)) < 2 ^ 31)
    turns features ->
  Forall (fun f => 2 <= field_tag f <= 4)
    (features
     ++ [ add_string vector_tile.KEY_TAG "bearing_in";
          add_string vector_tile.KEY_TAG "bearing_out";
          add_string vector_tile.KEY_TAG "weight" ]
     ++ map (fun value =>
               variant (add_uint64 vector_tile.VARIANT_TYPE_UINT64 (Int.uint64 value)))
          values).
Proof.
  intros Hall. apply Forall_app. split; [|apply Forall_app; split].
  - apply (Forall2_right _ _ _ _ Hall). intros et f (Hf & Hx & Hy).
    destruct (marked_as_shape _ _ _ Hx Hy Hf) as (Htag & _).
    apply has_tag_field_tag in Htag. rewrite Htag. by compute.
  - repeat (apply Forall_cons; split; [by compute|]). done.
  - apply Forall_forall. intros f [value [-> _]]%list_elem_of_fmap. by compute.
Qed.

(** C9.  The bytes that a request appends to the buffer are read back as a
    tile of exactly two layers: the first has the name "speeds", the second
    the name "turns", and each has the version 2 and the extent 4096 - once
    each - whatever the number of its features.  The tile is taken to be
    shorter than 2^32 bytes, the largest length protozero writes for a
    submessage. *)
Theorem two_layers env parameters pbf_buffer status buffer :
  HandleRequest env parameters pbf_buffer = Returns (status, buffer) ->
  vec_size buffer - vec_size pbf_buffer < 2 ^ 32 ->
  exists speeds turns,
    decode_tile (drop (length pbf_buffer) buffer) = Some [speeds; turns] /\
    fields_with vector_tile.NAME_TAG speeds
    = [Wire.wire_bytes (Wire.string_bytes "speeds")] /\
    fields_with vector_tile.VERSION_TAG speeds = [Wire.wire_varint 2] /\
    fields_with vector_tile.EXTENT_TAG speeds = [Wire.wire_varint 4096] /\
    fields_with vector_tile.NAME_TAG turns
    = [Wire.wire_bytes (Wire.string_bytes "turns")] /\
    fields_with vector_tile.VERSION_TAG turns = [Wire.wire_varint 2] /\
    fields_with vector_tile.EXTENT_TAG turns = [Wire.wire_varint 4096].
Proof.
  intros H Hsmall. apply HandleRequest_Returns in H as (tile & H & _ & ->).
  rewrite drop_app_length.
  assert (vec_size (Wire.pbf_bytes tile) < 2 ^ 32) as Htile.
  { unfold vec_size in *. rewrite length_app in Hsmall. lia. }
  clear Hsmall.
  apply tile_writer_Returns in H
    as (st & speeds & turns & _ & _ & Hst & Hlines & Hpoints & ->).
  destruct (line_layer_spec _ _ _ _ _ _ Hst Hlines) as [_ (features1 & Hall1 & ->)].
  destruct Hst as (_ & _ & _ & Hlen & _).
  destruct (point_layer_spec _ _ _ _ _ Hlen Hpoints) as (features2 & Hall2 & ->).
  match goal with
  | |- context [Wire.pbf_bytes [?l1; ?l2]] =>
      pose proof (field_le_message l1 [l1; l2] ltac:(by left)) as Hle1;
      pose proof (field_le_message l2 [l1; l2] ltac:(right; by left)) as Hle2;
      pose proof (payload_le_field l1) as Hp1;
      pose proof (payload_le_field l2) as Hp2
  end.
  cbn [field_payload] in Hp1, Hp2.
  match goal with
  | |- context [Wire.pbf_bytes [pbf_writer _ (_ ++ ?b1); pbf_writer _ (_ ++ ?b2)]] =>
      destruct (layer_read_back "speeds" b1) as (speeds & Hd1 & Hw1 & Hn1 & Hv1 & He1);
        [by eapply speeds_body_tags | lia|];
      destruct (layer_read_back "turns" b2) as (turns & Hd2 & Hw2 & Hn2 & Hv2 & He2);
        [by eapply turns_body_tags | lia|]
  end.
  exists speeds, turns. split; [|by repeat split].
  unfold decode_tile. rewrite read_message_of.
  - unfold omap. cbn [list_omap]. rewrite Hw1, Hw2.
    cbn [mapM]. rewrite Hd1, Hd2. reflexivity.
  - apply fits_of_small; [done|].
    repeat (apply Forall_cons; split; [by compute|]). done.
Qed.

(** [two_layers] for a box without edges: both layers are there although
    neither has a feature. *)
Lemma two_layers_witness :
  HandleRequest (Sample.release []) Sample.request []
  = Returns (Ok, Wire.pbf_bytes (Sample.tile [])) /\
  layer_features (speeds_of (Sample.tile [])) = [] /\
  layer_features (turns_of (Sample.tile [])) = [] /\
  exists speeds turns,
    decode_tile (Wire.pbf_bytes (Sample.tile [])) = Some [speeds; turns] /\
    fields_with vector_tile.NAME_TAG speeds
    = [Wire.wire_bytes (Wire.string_bytes "speeds")] /\
    fields_with vector_tile.VERSION_TAG speeds = [Wire.wire_varint 2] /\
    fields_with vector_tile.EXTENT_TAG speeds = [Wire.wire_varint 4096] /\
    fields_with vector_tile.NAME_TAG turns
    = [Wire.wire_bytes (Wire.string_bytes "turns")] /\
    fields_with vector_tile.VERSION_TAG turns = [Wire.wire_varint 2] /\
    fields_with vector_tile.EXTENT_TAG turns = [Wire.wire_varint 4096].
Proof.
  assert (HandleRequest (Sample.release []) Sample.request []
          = Returns (Ok, Wire.pbf_bytes (Sample.tile []))) as H
    by (vm_compute; reflexivity).
  assert (vec_size (Wire.pbf_bytes (Sample.tile [])) - vec_size (@nil Z) < 2 ^ 32)
    as Hsmall by (vm_compute; reflexivity).
  split; [exact H|]. split; [vm_compute; reflexivity|].
  split; [vm_compute; reflexivity|].
  exact (two_layers (Sample.release []) Sample.request [] Ok _ H Hsmall).
Defined.

(** * Further properties of the helpers of namespace [detail] *)

(** ** The encoding of geometries *)

Lemma lor_shiftl_3 (len : Z) : Z.lor (Z.shiftl len 3) 2 = 8 * len + 2.
Proof.
  rewrite <- Z.add_nocarry_lor.
  - rewrite Z.shiftl_mul_pow2 by lia. lia.
  - apply Z.bits_inj'. intros n Hn. rewrite Z.land_spec, Z.bits_0.
    destruct (Z.lt_ge_cases n 3) as [Hlow|Hhigh].
    + by rewrite Z.shiftl_spec_low by lia.
    + rewrite (Z.bits_above_log2 2 n) by (simpl; lia). apply andb_false_r.
Qed.

Lemma encode_length_small (len : Z) :
  0 <= len < 2 ^ 29 -> encode_length len = 8 * len + 2.
Proof.
  intros Hlen. unfold encode_length. rewrite lor_shiftl_3. apply uint32_id. lia.
Qed.

(** X4.  [encode_length] packs a count and the command LineTo into one
    integer: for a count below 2^29 the result is 8 * count + 2, its low
    three bits are the command 2 and the bits above them are the count.
    The result has 32 bits, so a count is kept modulo 2^29. *)
Theorem encode_length_command (len : Z) :
  0 <= len < 2 ^ 29 ->
  encode_length len = 8 * len + 2 /\
  Z.land (encode_length len) 7 = 2 /\
  Z.shiftr (encode_length len) 3 = len /\
  encode_length (len + 2 ^ 29) = encode_length len.
Proof.
  intros Hlen. rewrite (encode_length_small len Hlen).
  split; [done|]. split; [|split].
  - change 7 with (Z.ones 3). rewrite Z.land_ones by lia.
    symmetry. apply Z.mod_unique_pos with (q := len); lia.
  - rewrite Z.shiftr_div_pow2 by lia.
    symmetry. apply Z.div_unique_pos with (r := 2); lia.
  - unfold encode_length, Int.uint32. rewrite lor_shiftl_3.
    symmetry. apply Z.mod_unique_pos with (q := 1); lia.
Qed.

(** [encode_length_command] for the count of a segment: one LineTo. *)
Lemma encode_length_command_witness :
  0 <= 1 < 2 ^ 29 /\ encode_length 1 = 8 * 1 + 2.
Proof.
  assert (0 <= 1 < 2 ^ 29) as H by lia.
  split; [exact H|]. exact (proj1 (encode_length_command 1 H)).
Defined.








(** X3.  [encodePoint] always returns [true] and appends three elements:
    MoveTo (9) and the zigzag codes of the two coordinates, which are
    absolute (no cursor is involved).  For a point with 32-bit coordinates
    the geometry decodes to the point. *)
Theorem encodePoint_round_trip (pt : detail.FixedPoint) (geometry : list Z) :
  - 2 ^ 31 <= detail.x pt < 2 ^ 31 -> - 2 ^ 31 <= detail.y pt < 2 ^ 31 ->
  encodePoint pt geometry
  = (true,
     geometry ++ [9; encode_zigzag32 (detail.x pt); encode_zigzag32 (detail.y pt)]) /\
  decode_point (snd (encodePoint pt [])) = Some pt.
Proof.
  intros Hx Hy.
  assert (forall geometry,
            encodePoint pt geometry
            = (true,
               geometry ++
               [9; encode_zigzag32 (detail.x pt); encode_zigzag32 (detail.y pt)]))
    as Hwrites.
  { intros g. unfold encodePoint, add_element. change (Int.uint32 9) with 9.
    rewrite !uint32_id by (by apply encode_zigzag32_range).
    by rewrite <- !app_assoc. }
  split; [apply Hwrites|]. rewrite Hwrites. cbn [snd app decode_point].
  change (9 =? 9) with true. cbn iota.
  rewrite !decode_encode_zigzag32, !int32_id by assumption. by destruct pt.
Qed.

(** [encodePoint_round_trip] at a pixel left of and above the tile. *)
Lemma encodePoint_round_trip_witness :
  encodePoint (detail.Build_Point (-3) (-100)) [] = (true, [9; 5; 199]) /\
  decode_point (snd (encodePoint (detail.Build_Point (-3) (-100)) []))
  = Some (detail.Build_Point (-3) (-100)).
Proof.
  exact (encodePoint_round_trip (detail.Build_Point (-3) (-100)) []
           ltac:(simpl; lia) ltac:(simpl; lia)).
Defined.

(** ** Projection *)

(** X5.  [coordinatesToTileLine] and [coordinatesToTilePoint] project a
    coordinate to the same pixel.  When the clipping returns the segment
    between the two projected ends as its first linestring (the segment
    lies in the padded box), the line that [coordinatesToTileLine] returns
    joins the pixels that [coordinatesToTilePoint] returns for the two
    coordinates: a turn point sits on the end of the line of its edge. *)
Theorem tile_line_joins_tile_points env start target tile_bbox p q rest :
  coordinatesToTilePoint env start tile_bbox = Returns p ->
  coordinatesToTilePoint env target tile_bbox = Returns q ->
  clipped_line_of env start target tile_bbox
  = [ (tile_px env
         (detail.Build_Point (toFloating env (lon start)) (toFloating env (lat start)))
         tile_bbox,
       tile_py env
         (detail.Build_Point (toFloating env (lon start)) (toFloating env (lat start)))
         tile_bbox);
      (tile_px env
         (detail.Build_Point (toFloating env (lon target)) (toFloating env (lat target)))
         tile_bbox,
       tile_py env
         (detail.Build_Point (toFloating env (lon target)) (toFloating env (lat target)))
         tile_bbox) ] :: rest ->
  coordinatesToTileLine env start target tile_bbox = Returns [p; q].
Proof.
  intros Hp Hq Hclip. unfold coordinatesToTilePoint in Hp, Hq.
  obind_inv Hp. obind_inv Hp. injection Hp as <-.
  obind_inv Hq. obind_inv Hq. injection Hq as <-.
  unfold coordinatesToTileLine. fold (clipped_line_of env start target tile_bbox).
  rewrite Hclip. change (vec_size [_; _] =? 2) with true.
  cbn [otraverse fst snd]. rewrite E, E0, E1, E2. reflexivity.
Qed.

(** [tile_line_joins_tile_points] on the segment from node 1 to node 2 of
    the sample network. *)
Lemma tile_line_joins_tile_points_witness :
  coordinatesToTileLine Sample.town (Sample.coordinate_of_node 1)
    (Sample.coordinate_of_node 2) (tile_bbox_of Sample.town Sample.request)
  = Returns [detail.Build_Point 100 100; detail.Build_Point 200 100].
Proof.
  exact (tile_line_joins_tile_points Sample.town (Sample.coordinate_of_node 1)
           (Sample.coordinate_of_node 2) (tile_bbox_of Sample.town Sample.request)
           (detail.Build_Point 100 100) (detail.Build_Point 200 100) []
           ltac:(vm_compute; reflexivity) ltac:(vm_compute; reflexivity)
           ltac:(vm_compute; reflexivity)).
Defined.

(** * Further properties of [HandleRequest] *)

(** ** Reading the attributes of a segment *)

Lemma size_sub_from_end (size position : Z) :
  0 <= position < size -> size < 2 ^ 64 ->
  Int.size_sub (Int.size_sub size position) 1 = size - position - 1.
Proof.
  intros Hpos Hsize. unfold Int.size_sub, Int.uint64.
  rewrite (Z.mod_small (size - position)) by lia. apply Z.mod_small. lia.
Qed.

Lemma vec_at_from_end {A : Type} (v : list A) (position : Z) :
  0 <= position < vec_size v -> vec_size v < 2 ^ 64 ->
  exists a,
    vec_at v (Int.size_sub (Int.size_sub (vec_size v) position) 1) = Returns a /\
    reverse v !! Z.to_nat position = Some a.
Proof.
  intros Hpos Hsize. rewrite size_sub_from_end by done. unfold vec_size in *.
  destruct (lookup_lt_is_Some_2 v (Z.to_nat (Z.of_nat (length v) - position - 1)))
    as [a Ha]; [lia|].
  exists a. split; [apply vec_at_Returns; split; [lia | done]|].
  rewrite reverse_lookup by lia. rewrite <- Ha. f_equal. lia.
Qed.

(** X6.  The reverse direction of a segment is read from the end of the
    arrays of its geometry: with the segment at position p, the weight and
    the datasource are the p-th elements of the arrays read backwards
    (index size - p - 1).  This holds in builds with and without assertions
    whenever p is below the sizes of the two arrays. *)
Theorem reverse_attributes_from_end env edge :
  Edge.reverse_packed_geometry_id edge <> SPECIAL_EDGEID ->
  0 <= Edge.fwd_segment_position edge
    < vec_size (GetUncompressedWeights (facade env)
                  (Edge.reverse_packed_geometry_id edge)) ->
  Edge.fwd_segment_position edge
    < vec_size (GetUncompressedDatasources (facade env)
                  (Edge.reverse_packed_geometry_id edge)) ->
  vec_size (GetUncompressedWeights (facade env)
              (Edge.reverse_packed_geometry_id edge)) < 2 ^ 64 ->
  vec_size (GetUncompressedDatasources (facade env)
              (Edge.reverse_packed_geometry_id edge)) < 2 ^ 64 ->
  exists weight datasource,
    reverse_attributes env edge = Returns (Some (weight, datasource)) /\
    reverse (GetUncompressedWeights (facade env) (Edge.reverse_packed_geometry_id edge))
      !! Z.to_nat (Edge.fwd_segment_position edge) = Some weight /\
    reverse (GetUncompressedDatasources (facade env)
               (Edge.reverse_packed_geometry_id edge))
      !! Z.to_nat (Edge.fwd_segment_position edge) = Some datasource.
Proof.
  intros Hhas Hweights Hdatasources Hwsize Hdsize.
  destruct (vec_at_from_end _ _ Hweights Hwsize) as (weight & Hw & Hwrev).
  destruct (vec_at_from_end _ (Edge.fwd_segment_position edge)
              ltac:(split; [lia | exact Hdatasources]) Hdsize)
    as (datasource & Hd & Hdrev).
  exists weight, datasource. split; [|by split].
  unfold reverse_attributes, BOOST_ASSERT.
  apply Z.eqb_neq in Hhas. rewrite Hhas.
  destruct Hweights as [_ Hlt]. apply Z.ltb_lt in Hlt. rewrite Hlt.
  rewrite andb_false_r. cbn [obind]. rewrite Hw. cbn [obind]. by rewrite Hd.
Qed.

(** [reverse_attributes_from_end] on the edge of three segments, in a build
    that checks assertions.  The weights of the geometry are 10, 20, 30 and
    its datasources 0, 1, 2.  At position 0 the reverse direction has the
    last elements, 30 and 2, where the forward direction has the first, 10
    and 0; at position 2 it has the first. *)
Lemma reverse_attributes_from_end_witness :
  GetUncompressedWeights (facade (Sample.way 0))
    (Edge.reverse_packed_geometry_id (Sample.segment_of_way 0)) = [10; 20; 30] /\
  GetUncompressedDatasources (facade (Sample.way 0))
    (Edge.reverse_packed_geometry_id (Sample.segment_of_way 0)) = [0; 1; 2] /\
  reverse_attributes (Sample.way 0) (Sample.segment_of_way 0) = Returns (Some (30, 2)) /\
  forward_attributes (Sample.way 0) (Sample.segment_of_way 0) = Returns (Some (10, 0)) /\
  reverse_attributes (Sample.way 2) (Sample.segment_of_way 2) = Returns (Some (10, 0)).
Proof.
  split; [reflexivity|]. split; [reflexivity|].
  split; [|split; [vm_compute; reflexivity|]].
  - destruct (reverse_attributes_from_end (Sample.way 0) (Sample.segment_of_way 0)
                ltac:(vm_compute; discriminate)
                ltac:(vm_compute; split; [discriminate | reflexivity])
                ltac:(vm_compute; reflexivity) ltac:(vm_compute; reflexivity)
                ltac:(vm_compute; reflexivity))
      as (weight & datasource & H & Hw & Hd).
    vm_compute in Hw, Hd. injection Hw as <-. injection Hd as <-. exact H.
  - destruct (reverse_attributes_from_end (Sample.way 2) (Sample.segment_of_way 2)
                ltac:(vm_compute; discriminate)
                ltac:(vm_compute; split; [discriminate | reflexivity])
                ltac:(vm_compute; reflexivity) ltac:(vm_compute; reflexivity)
                ltac:(vm_compute; reflexivity))
      as (weight & datasource & H & Hw & Hd).
    vm_compute in Hw, Hd. injection Hw as <-. injection Hd as <-. exact H.
Defined.

(** ** The turn records of the first loop *)

(** A table that keeps its offsets keeps the positions of its values. *)
Lemma table_ok_grows used offsets used' offsets' :
  table_ok used offsets -> table_ok used' offsets' ->
  (forall value offset, offsets !! value = Some offset -> offsets' !! value = Some offset) ->
  forall i value, used !! i = Some value -> used' !! i = Some value.
Proof.
  intros Hok Hok' Hkeep i value Hi.
  assert (offsets !! value = Some (Z.of_nat i)) as Hoff
    by (apply Hok; rewrite Nat2Z.id; split; [lia | done]).
  apply Hkeep, Hok' in Hoff as [_ Hat]. by rewrite Nat2Z.id in Hat.
Qed.

(** The turns of an intersection: every record is described by the table
    the call leaves, and the table keeps the offsets it had. *)
Lemma intersection_turns_described env edge st st' tds :
  table_ok (used_point_ints st) (point_int_offsets st) ->
  intersection_turns env edge
    (GetUncompressedWeights (facade env) (Edge.forward_packed_geometry_id edge))
    (GetUncompressedGeometry (facade env) (Edge.forward_packed_geometry_id edge)) st
  = Returns (st', tds) ->
  (forall value offset,
     point_int_offsets st !! value = Some offset ->
     point_int_offsets st' !! value = Some offset) /\
  Forall (turn_described env edge (used_point_ints st')) tds.
Proof.
  intros Hok H. unfold intersection_turns in H.
  obind_inv H. rename r into before, E into Hbefore.
  obind_inv H. rename r into c_nodes, E into Hloop.
  obind_inv H. rename r into angle_in, E into Hangle.
  assert (before_node env edge = before) as Hb
    by (unfold before_node; by rewrite Hbefore).
  apply shortcut_loop_spec in Hloop.
  destruct (0 <? Z.of_nat (size c_nodes)); [|injection H as <- <-; by split].
  destruct (use_point_value (Int.int32 angle_in) st) as [angle_in_offset st1] eqn:P.
  destruct (use_point_value_offset _ _ _ _ Hok P) as (Hok1 & Hin & Hkeep1).
  destruct (turn_loop_spec _ _ _ _ _ _ _ _ Hok1 H)
    as (Hok' & Hkeep & records & -> & Hall).
  split; [by auto|]. cbn [app].
  assert (Forall (fun next => c_nodes !! fst next = Some (snd next))
            (iteration_order env edge c_nodes))
    as Hnodes.
  { apply Forall_forall. intros [next weight] Hnext.
    rewrite (iteration_order_entries env edge c_nodes) in Hnext.
    by apply elem_of_map_to_list. }
  apply (Forall2_right _ _ _ _ (Forall2_and_left _ _ _ _ Hall Hnodes)).
  intros [next weight] td [(Hi & Hw & c_bearing & Hc & Ho) Hnext]. cbn [fst snd] in *.
  apply Hkeep, Hok' in Hin as [Hin0 Hin]. apply Hok' in Hw as [Hw0 Hw].
  apply Hok' in Ho as [Ho0 Ho]. subst angle_in_offset.
  unfold turn_described. rewrite Hb.
  split; [done|]. split; [done|]. split; [done|]. split.
  - unfold bearing_value. by rewrite Hangle.
  - exists next, weight. split; [|split; [|done]].
    + rewrite Hloop, emplace_first, lookup_empty in Hnext. done.
    + unfold bearing_value. by rewrite Hc.
Qed.

Lemma turn_described_grows env edge used used' td :
  (forall i value, used !! i = Some value -> used' !! i = Some value) ->
  turn_described env edge used td -> turn_described env edge used' td.
Proof.
  intros Hgrow (Hi & Ho & Hw & Hin & next & weight & Hnext & Hout & Hweight).
  unfold turn_described. do 3 (split; [done|]). split; [by apply Hgrow|].
  exists next, weight. split; [done|]. split; by apply Hgrow.
Qed.

Lemma use_line_value_point_part value st :
  used_point_ints (use_line_value value st) = used_point_ints st /\
  point_int_offsets (use_line_value value st) = point_int_offsets st /\
  all_turn_data (use_line_value value st) = all_turn_data st.
Proof. unfold use_line_value. by destruct (line_int_offsets st !! value). Qed.

(** What one turn of the first loop does to the turn records: it adds the
    records of the edge, which are empty unless the edge has a forward
    geometry and is at its last segment, and it keeps the positions of the
    values already interned. *)
Lemma tally_edge_turns env edge st st' :
  table_ok (used_point_ints st) (point_int_offsets st) ->
  tally_edge env edge st = Returns st' ->
  exists tds,
    all_turn_data st' = all_turn_data st ++ [tds] /\
    table_ok (used_point_ints st') (point_int_offsets st') /\
    (forall i value,
       used_point_ints st !! i = Some value -> used_point_ints st' !! i = Some value) /\
    (tds <> [] ->
     Edge.forward_packed_geometry_id edge <> SPECIAL_EDGEID /\
     last_segment edge
       (GetUncompressedGeometry (facade env) (Edge.forward_packed_geometry_id edge))
     = true) /\
    Forall (turn_described env edge (used_point_ints st')) tds.
Proof.
  intros Hok H. unfold tally_edge in H.
  obind_inv H. rename r into forward, E into Ef.
  obind_inv H. destruct r as [[forward_datasource st1] tds]. rename E into Eturn.
  obind_inv H. rename r into reverse.
  exists tds.
  assert (all_turn_data st1 = all_turn_data st /\
          table_ok (used_point_ints st1) (point_int_offsets st1) /\
          (forall i value,
             used_point_ints st !! i = Some value ->
             used_point_ints st1 !! i = Some value) /\
          (tds <> [] ->
           Edge.forward_packed_geometry_id edge <> SPECIAL_EDGEID /\
           last_segment edge
             (GetUncompressedGeometry (facade env) (Edge.forward_packed_geometry_id edge))
           = true) /\
          Forall (turn_described env edge (used_point_ints st1)) tds)
    as (Hall1 & Hok1 & Hgrow1 & Hlast & Hdesc).
  { destruct forward as [[forward_weight fd]|].
    - destruct (use_line_value_point_part forward_weight st) as (Hu & Ho & Ha).
      assert (Edge.forward_packed_geometry_id edge <> SPECIAL_EDGEID) as Hhas.
      { unfold forward_attributes in Ef.
        destruct (Z.eqb_spec (Edge.forward_packed_geometry_id edge) SPECIAL_EDGEID);
          [discriminate | done]. }
      destruct (last_segment _ _) eqn:Hl.
      + obind_inv Eturn. destruct r as [st2 tds2]. injection Eturn as <- <- <-.
        assert (table_ok (used_point_ints (use_line_value forward_weight st))
                  (point_int_offsets (use_line_value forward_weight st))) as Hok0
          by (by rewrite Hu, Ho).
        pose proof (intersection_turns_table _ _ _ _ _ _ _ Hok0 E0) as Hok2.
        destruct (intersection_turns_described _ _ _ _ _ Hok0 E0) as [Hkeep Hd].
        apply intersection_turns_line_part in E0. unfold line_part in E0.
        injection E0 as _ _ _ Ha2.
        split; [congruence|]. split; [done|]. split; [|by split].
        rewrite <- Hu. by apply (table_ok_grows _ _ _ _ Hok0 Hok2).
      + injection Eturn as <- <- <-. rewrite Hu, Ho, Ha.
        split; [done|]. split; [done|]. split; [done|]. split; [done | constructor].
    - injection Eturn as <- <- <-.
      split; [done|]. split; [done|]. split; [done|]. split; [done | constructor]. }
  assert (all_turn_data st' = all_turn_data st1 ++ [tds] /\
          used_point_ints st' = used_point_ints st1 /\
          point_int_offsets st' = point_int_offsets st1) as (Hall' & Hu' & Ho').
  { destruct reverse as [[reverse_weight rd]|]; cbn in H; injection H as <-; cbn.
    - by destruct (use_line_value_point_part reverse_weight st1) as (-> & -> & ->).
    - done. }
  rewrite Hall', Hu', Ho', Hall1. by repeat (split; [done|]).
Qed.

(** The first loop, from any point on: the records of the edges gone
    through are those of [turns_recorded]. *)
Lemma tally_turns env done edges st st' :
  table_ok (used_point_ints st) (point_int_offsets st) ->
  Forall2 (turns_recorded env (used_point_ints st)) done (all_turn_data st) ->
  ofold (tally_edge env) edges st = Returns st' ->
  table_ok (used_point_ints st') (point_int_offsets st') /\
  Forall2 (turns_recorded env (used_point_ints st')) (done ++ edges) (all_turn_data st').
Proof.
  revert done st. induction edges as [|edge edges IH]; intros done st Hok Hdone H;
    cbn [ofold] in H.
  - injection H as <-. by rewrite app_nil_r.
  - obind_inv H. rename r into st1.
    destruct (tally_edge_turns _ _ _ _ Hok E) as (tds & Hall & Hok1 & Hgrow & Hlast & Hd).
    rewrite (cons_middle edge), app_assoc. apply (IH _ st1); [done| |done].
    rewrite Hall. apply Forall2_app; [|constructor; [by split | constructor]].
    eapply Forall2_impl; [exact Hdone|]. intros e t [Hl Ht]. split; [done|].
    eapply Forall_impl; [exact Ht|]. intros td. by apply turn_described_grows.
Qed.

(** X7.  The first loop records turns only for an edge that has a forward
    geometry and is at the last segment of it; every other edge gets an
    empty vector of records.  So, of the tests that the loop of the point
    layer makes before it writes the points of an edge, the second (the
    segment is the last one, lines 664-668) never skips an edge that passed
    the first (there is a record, lines 655-659): an edge is marked exactly
    when it has a record and its end node projects inside the padded
    box. *)
Theorem turn_records_only_at_last_segments env edges st tile_bbox :
  ofold (tally_edge env) edges initial_locals = Returns st ->
  Forall2
    (fun edge tds =>
       tds <> [] ->
       Edge.forward_packed_geometry_id edge <> SPECIAL_EDGEID /\
       Edge.fwd_segment_position edge =
         Int.size_sub
           (vec_size (GetUncompressedGeometry (facade env)
                        (Edge.forward_packed_geometry_id edge)))
           1)
    edges (all_turn_data st) /\
  (forall et,
     et ∈ zip edges (all_turn_data st) ->
     marked env tile_bbox et =
       nonempty (snd et)
       && within
            (Double.of_int (detail.x (tile_point_of env tile_bbox (fst et))),
             Double.of_int (detail.y (tile_point_of env tile_bbox (fst et))))
            (clip_box env)).
Proof.
  intros H.
  destruct (tally_turns env [] edges initial_locals st table_ok_empty
              ltac:(constructor) H) as [_ Hall].
  cbn [app] in Hall. split.
  - eapply Forall2_impl; [exact Hall|]. intros edge tds [Hlast _] Htds.
    destruct (Hlast Htds) as [Hhas Hl]. split; [done|].
    unfold last_segment in Hl. by apply Z.eqb_eq in Hl.
  - intros [edge tds] Hin. unfold marked. cbn [fst snd].
    apply list_elem_of_lookup in Hin as [i Hi].
    apply lookup_zip_with_Some in Hi as (e & t & [= <- <-] & He & Ht).
    destruct (Forall2_lookup_lr _ _ _ _ _ _ Hall He Ht) as [Hlast _].
    destruct tds as [|td tds]; [done|].
    destruct (Hlast ltac:(done)) as [_ ->]. done.
Qed.

(** [turn_records_only_at_last_segments] on the sample network: the segment
    1 -> 2 is the last of its edge and has two records, the short segment
    has none. *)
Lemma turn_records_only_at_last_segments_witness :
  ofold (tally_edge Sample.town) Sample.two_segments initial_locals
  = Returns (Sample.tally Sample.two_segments) /\
  map length (all_turn_data (Sample.tally Sample.two_segments)) = [2%nat; 0%nat] /\
  Forall2
    (fun edge tds =>
       tds <> [] ->
       Edge.forward_packed_geometry_id edge <> SPECIAL_EDGEID /\
       Edge.fwd_segment_position edge =
         Int.size_sub
           (vec_size (GetUncompressedGeometry (facade Sample.town)
                        (Edge.forward_packed_geometry_id edge)))
           1)
    Sample.two_segments (all_turn_data (Sample.tally Sample.two_segments)).
Proof.
  assert (ofold (tally_edge Sample.town) Sample.two_segments initial_locals
          = Returns (Sample.tally Sample.two_segments)) as H
    by (vm_compute; reflexivity).
  split; [exact H|]. split; [vm_compute; reflexivity|].
  exact (proj1 (turn_records_only_at_last_segments Sample.town Sample.two_segments _
                  (tile_bbox_of Sample.town Sample.request) H)).
Defined.

(** ** The layer of the turns as a reader finds it *)

(** The features and the values of the layer of the turns. *)
Lemma turns_layer env parameters tile :
  tile_writer env parameters = Returns tile ->
  exists st,
    ofold (tally_edge env) (edges_of env parameters) initial_locals = Returns st /\
    Forall2
      (fun et f =>
         feature_tags f =
           [ 0; Int.uint32 (detail.in_angle_offset (snd et));
             1; Int.uint32 (detail.out_angle_offset (snd et));
             2; Int.uint32 (detail.weight_offset (snd et)) ])
      (marked_turns env (tile_bbox_of env parameters)
         (zip (edges_of env parameters) (all_turn_data st)))
      (layer_features (turns_of tile)) /\
    layer_values (turns_of tile) = map turn_value (used_point_ints st).
Proof.
  intros H. apply tile_writer_Returns in H
    as (st & speeds & turns & _ & Htally & Hst & Hlines & Hpoints & ->).
  exists st. split; [done|]. destruct Hst as (_ & _ & _ & Hlen & _).
  destruct (point_layer_spec _ _ _ _ _ Hlen Hpoints) as (features & Hall & ->).
  assert (Forall2
            (fun et f =>
               has_tag vector_tile.FEATURE_TAG f = true /\
               has_tag vector_tile.VARIANT_TAG f = false /\
               feature_tags f =
                 [ 0; Int.uint32 (detail.in_angle_offset (snd et));
                   1; Int.uint32 (detail.out_angle_offset (snd et));
                   2; Int.uint32 (detail.weight_offset (snd et)) ])
            (marked_turns env (tile_bbox_of env parameters)
               (zip (edges_of env parameters) (all_turn_data st)))
            features) as Hshape.
  { eapply Forall2_impl; [exact Hall|]. intros et f (Hf & Hx & Hy).
    destruct (marked_as_shape _ _ _ Hx Hy Hf) as (? & ? & _ & ? & _). by repeat split. }
  assert (Forall (fun f => has_tag vector_tile.FEATURE_TAG f = true) features) as Hfeat
    by (apply (Forall2_right _ _ _ _ Hshape); by intros et f [? _]).
  assert (Forall (fun f => has_tag vector_tile.VARIANT_TAG f = false) features) as Hnv
    by (apply (Forall2_right _ _ _ _ Hshape); by intros et f (_ & ? & _)).
  cbn [turns_of]. unfold layer_features, layer_values.
  rewrite !List.filter_app, (filter_all _ _ Hfeat), (filter_none _ _ Hnv).
  rewrite (filter_none _ (map _ _));
    [|apply Forall_forall; by intros f [x [-> _]]%list_elem_of_fmap].
  rewrite (filter_all (has_tag vector_tile.VARIANT_TAG) (map _ _));
    [|apply Forall_forall; by intros f [x [-> _]]%list_elem_of_fmap].
  cbn [List.filter has_tag]. rewrite app_nil_r. split; [|done].
  cbn. eapply Forall2_impl; [exact Hshape|]. by intros et f (_ & _ & ?).
Qed.

Lemma elem_of_marked_turns env tile_bbox turns edge td :
  (edge, td) ∈ marked_turns env tile_bbox turns ->
  exists tds, (edge, tds) ∈ turns /\ td ∈ tds.
Proof.
  unfold marked_turns. rewrite list_elem_of_In, in_flat_map.
  intros ([edge' tds] & Hin & Htd). apply list_elem_of_In in Hin.
  destruct (marked env tile_bbox (edge', tds)); [|done].
  apply in_map_iff in Htd as (td' & [= <- <-] & Htd). cbn [fst snd] in *.
  exists tds. split; [done | by apply list_elem_of_In].
Qed.

(** Every record that gives a point feature is described by the values
    interned when the first loop ends. *)
Lemma marked_turns_described env edges st tile_bbox :
  ofold (tally_edge env) edges initial_locals = Returns st ->
  Forall (fun et => turn_described env (fst et) (used_point_ints st) (snd et))
    (marked_turns env tile_bbox (zip edges (all_turn_data st))).
Proof.
  intros H.
  destruct (tally_turns env [] edges initial_locals st table_ok_empty
              ltac:(constructor) H) as [_ Hall].
  cbn [app] in Hall. apply Forall_forall. intros [edge td] Hin. cbn [fst snd].
  apply elem_of_marked_turns in Hin as (tds & Hin & Htd).
  apply list_elem_of_lookup in Hin as [i Hi].
  apply lookup_zip_with_Some in Hi as (e & t & [= <- <-] & He & Ht).
  destruct (Forall2_lookup_lr _ _ _ _ _ _ Hall He Ht) as [_ Hd].
  rewrite Forall_forall in Hd. by apply Hd.
Qed.

Lemma uint32_le (z : Z) : 0 <= z -> 0 <= Int.uint32 z <= z.
Proof.
  intros Hz. unfold Int.uint32. split.
  - apply Z.mod_pos_bound. lia.
  - apply Z.mod_le; lia.
Qed.

(** X8.  The turn points of a tile can be read.  Each point feature carries
    the pairs (0, i), (1, j), (2, k) for the keys bearing_in, bearing_out
    and weight, and in the values of the layer the index i leads to the
    bearing from the node before the intersection to the intersection, j to
    the bearing from the intersection to a next node, and k to the weight of
    the turn to that node: the weight of the first shortcut that continues
    to it.  The values of the layer are the integers interned by the first
    loop, each converted to 64 bits without sign; the layer is taken to hold
    at most 2^32 of them, the range of a packed element. *)
Theorem turn_attributes_lead_to_values env parameters tile :
  tile_writer env parameters = Returns tile ->
  vec_size (layer_values (turns_of tile)) <= 2 ^ 32 ->
  exists st,
    ofold (tally_edge env) (edges_of env parameters) initial_locals = Returns st /\
    layer_values (turns_of tile) = map turn_value (used_point_ints st) /\
    NoDup (used_point_ints st) /\
    Forall2
      (fun et f =>
         exists i j k next_node turn_weight,
           feature_tags f = [0; i; 1; j; 2; k] /\
           layer_values (turns_of tile) !! Z.to_nat i
           = Some (turn_value
                     (bearing_value env
                        (GetCoordinateOfNode (facade env) (before_node env (fst et)))
                        (GetCoordinateOfNode (facade env) (Edge.v (fst et))))) /\
           first_value next_node
             (turns_met env (fst et)
                (accumulate (GetUncompressedWeights (facade env)
                               (Edge.forward_packed_geometry_id (fst et)))))
           = Some turn_weight /\
           layer_values (turns_of tile) !! Z.to_nat j
           = Some (turn_value
                     (bearing_value env
                        (GetCoordinateOfNode (facade env) (Edge.v (fst et)))
                        (GetCoordinateOfNode (facade env) next_node))) /\
           layer_values (turns_of tile) !! Z.to_nat k = Some (turn_value turn_weight))
      (marked_turns env (tile_bbox_of env parameters)
         (zip (edges_of env parameters) (all_turn_data st)))
      (layer_features (turns_of tile)).
Proof.
  intros H Hsmall.
  pose proof (tile_writer_Returns _ _ _ H) as (st0 & _ & _ & _ & Htally0 & Hst & _).
  destruct (turns_layer _ _ _ H) as (st & Htally & Hall & Hvalues).
  assert (st0 = st) as -> by congruence.
  exists st. split; [done|]. split; [done|].
  destruct Hst as (_ & _ & _ & _ & Hpoints).
  split; [by eapply table_ok_NoDup|].
  rewrite Hvalues in Hsmall |- *. unfold vec_size in Hsmall.
  rewrite length_map in Hsmall.
  pose proof (marked_turns_described env _ st (tile_bbox_of env parameters) Htally)
    as Hdesc.
  eapply Forall2_impl; [exact (Forall2_and_left _ _ _ _ Hall Hdesc)|].
  intros [edge td] f [Htags Hd]. cbn [fst snd] in *.
  destruct Hd as (Hi & Hj & Hk & Hin & next & weight & Hnext & Hout & Hweight).
  pose proof (lookup_lt_Some _ _ _ Hin) as Li.
  pose proof (lookup_lt_Some _ _ _ Hout) as Lj.
  pose proof (lookup_lt_Some _ _ _ Hweight) as Lk.
  rewrite !uint32_id in Htags by lia.
  exists (detail.in_angle_offset td), (detail.out_angle_offset td),
    (detail.weight_offset td), next, weight.
  rewrite !list_lookup_fmap, Hin, Hout, Hweight. done.
Qed.

(** [turn_attributes_lead_to_values] on the sample network: the segment
    1 -> 2 arrives heading east (90) at node 2, from where one turn leaves
    east (90) to node 4 with weight 50 and one south (180) to node 3 with
    weight 30.  The sample visits the turn to node 4 first, so the values
    are interned in the order 90, 50, 180, 30 and the first point carries
    the indexes 0, 0, 1, the second 0, 2, 3. *)
Lemma turn_attributes_lead_to_values_witness :
  tile_writer Sample.town Sample.request = Returns (Sample.tile Sample.two_segments) /\
  map feature_tags (layer_features (turns_of (Sample.tile Sample.two_segments)))
  = [[0; 0; 1; 0; 2; 1]; [0; 0; 1; 2; 2; 3]] /\
  exists st,
    ofold (tally_edge Sample.town) (edges_of Sample.town Sample.request) initial_locals
    = Returns st /\
    layer_values (turns_of (Sample.tile Sample.two_segments))
    = map turn_value (used_point_ints st) /\
    used_point_ints st = [90; 50; 180; 30].
Proof.
  assert (tile_writer Sample.town Sample.request
          = Returns (Sample.tile Sample.two_segments)) as H
    by (vm_compute; reflexivity).
  assert (vec_size (layer_values (turns_of (Sample.tile Sample.two_segments))) <= 2 ^ 32)
    as Hsmall by (vm_compute; discriminate).
  split; [exact H|]. split; [vm_compute; reflexivity|].
  destruct (turn_attributes_lead_to_values Sample.town Sample.request _ H Hsmall)
    as (st & Htally & Hvalues & _).
  exists st. split; [exact Htally|]. split; [exact Hvalues|].
  assert (ofold (tally_edge Sample.town) (edges_of Sample.town Sample.request)
            initial_locals = Returns (Sample.tally Sample.two_segments)) as Hst
    by (vm_compute; reflexivity).
  rewrite Hst in Htally. injection Htally as <-. vm_compute. reflexivity.
Defined.

(** ** The attribute indexes of a tile *)

Lemma length_line_values env st :
  0 <= max_datasource_id st ->
  vec_size (line_values env st)
  = 130 + max_datasource_id st + 1 + vec_size (used_line_ints st).
Proof.
  intros Hmax. unfold line_values, vec_size.
  rewrite !length_app, !length_map, !length_seq. cbn [length]. lia.
Qed.

(** X9.  Every attribute pair written in a tile can be resolved.  In the
    "speeds" layer a feature carries the pairs of the keys 0 to 3, whose
    value indexes are: a speed between 0 and 127, one of the two booleans
    at 128 and 129, and two indexes below the number of values of the
    layer.  In the "turns" layer a feature carries the pairs of the keys 0
    to 2 with three indexes below the number of values of that layer.  The
    datasource ids are taken to be non-negative, as their C++ type says. *)
Theorem attribute_indexes_in_range env parameters tile :
  tile_writer env parameters = Returns tile ->
  (forall datasource,
     datasource ∈ datasources_met env (edges_of env parameters) -> 0 <= datasource) ->
  Forall
    (fun f =>
       exists speed is_small datasource duration,
         feature_tags f = [0; speed; 1; is_small; 2; datasource; 3; duration] /\
         0 <= speed <= 127 /\
         128 <= is_small <= 129 /\
         0 <= datasource < vec_size (layer_values (speeds_of tile)) /\
         0 <= duration < vec_size (layer_values (speeds_of tile)))
    (layer_features (speeds_of tile)) /\
  Forall
    (fun f =>
       exists i j k,
         feature_tags f = [0; i; 1; j; 2; k] /\
         0 <= i < vec_size (layer_values (turns_of tile)) /\
         0 <= j < vec_size (layer_values (turns_of tile)) /\
         0 <= k < vec_size (layer_values (turns_of tile)))
    (layer_features (turns_of tile)).
Proof.
  intros H Hbytes. split.
  - pose proof (tile_writer_speed _ _ _ H) as Hspeed.
    apply speeds_layer in H as (st & turns & Hst & _ & _ & Hall & ->).
    set (edges := edges_of env parameters) in *.
    set (tile_bbox := tile_bbox_of env parameters) in *.
    pose proof (max_datasource_nonneg env edges) as M0.
    destruct Hst as (_ & Hused & Hmax & _).
    rewrite length_line_values, Hused, Hmax by lia.
    assert (Forall (fun ed => ed ∈ drawn_directions env tile_bbox edges)
              (drawn_directions env tile_bbox edges)) as Hin
      by (by apply Forall_forall).
    apply (Forall2_right _ _ _ _
             (Forall2_and_left _ _ _ _ (Forall2_and_left _ _ _ _ Hall Hspeed) Hin)).
    intros [edge d] f [[Had Hs] Hd]. cbn [fst snd] in *.
    apply elem_of_drawn_directions in Hd as (Hedge & Hweight & _ & _).
    cbn [fst snd] in *.
    destruct (drawn_as_shape _ _ _ _ _ Had) as (_ & _ & Htags). cbn [fst snd] in Htags.
    apply speed_kmh_of_Returns in Hs as [_ Hrange].
    destruct (attributes_of env edge d) as [[weight datasource]|] eqn:E;
      [|exfalso; apply Hweight; unfold weight_of; by rewrite E].
    destruct (elem_of_weights_met _ _ _ _ _ _ Hedge E) as [Hw Hds].
    assert (weight_of env edge d = weight) as Hwe by (unfold weight_of; by rewrite E).
    assert (datasource_of env edge d = datasource) as Hde
      by (unfold datasource_of; by rewrite E).
    rewrite Hwe, Hde in *.
    apply elem_of_first_seen in Hw. destruct (offset_of_elem _ _ Hw) as [_ Hoff].
    pose proof (max_datasource_bound _ _ _ Hds) as Hle. apply Hbytes in Hds.
    rewrite (uint32_id (Z.min _ 127)) in Htags by lia.
    eexists _, _, _, _. split; [exact Htags|].
    pose proof (uint32_le (130 + datasource) ltac:(lia)).
    pose proof (uint32_le
                  (130 + max_datasource env edges + 1
                   + offset_of (first_seen (weights_met env edges)) weight) ltac:(lia)).
    split; [lia|]. split; [destruct (Edge.is_tiny edge); lia|]. lia.
  - pose proof (turns_layer _ _ _ H) as (st & Htally & Hall & ->).
    pose proof (marked_turns_described env _ st (tile_bbox_of env parameters) Htally)
      as Hdesc.
    apply (Forall2_right _ _ _ _ (Forall2_and_left _ _ _ _ Hall Hdesc)).
    intros [edge td] f [Htags Hd]. cbn [fst snd] in *.
    destruct Hd as (Hi & Hj & Hk & Hin & next & weight & _ & Hout & Hweight).
    apply lookup_lt_Some in Hin, Hout, Hweight.
    unfold vec_size. rewrite length_map.
    pose proof (uint32_le _ Hi). pose proof (uint32_le _ Hj). pose proof (uint32_le _ Hk).
    eexists _, _, _. split; [exact Htags|]. lia.
Qed.

(** [attribute_indexes_in_range] on the sample network, whose "speeds"
    layer has 136 values and whose "turns" layer has 4. *)
Lemma attribute_indexes_in_range_witness :
  tile_writer Sample.town Sample.request = Returns (Sample.tile Sample.two_segments) /\
  map feature_tags (layer_features (speeds_of (Sample.tile Sample.two_segments)))
  = [[0; 36; 1; 129; 2; 130; 3; 133]; [0; 72; 1; 129; 2; 131; 3; 134]] /\
  Forall
    (fun f =>
       exists i j k,
         feature_tags f = [0; i; 1; j; 2; k] /\
         0 <= i < vec_size (layer_values (turns_of (Sample.tile Sample.two_segments))) /\
         0 <= j < vec_size (layer_values (turns_of (Sample.tile Sample.two_segments))) /\
         0 <= k < vec_size (layer_values (turns_of (Sample.tile Sample.two_segments))))
    (layer_features (turns_of (Sample.tile Sample.two_segments))).
Proof.
  assert (tile_writer Sample.town Sample.request
          = Returns (Sample.tile Sample.two_segments)) as H
    by (vm_compute; reflexivity).
  assert (forall datasource,
            datasource ∈ datasources_met Sample.town (edges_of Sample.town Sample.request) ->
            0 <= datasource) as Hbytes.
  { clear H. intros datasource Hin. vm_compute in Hin.
    repeat (apply elem_of_cons in Hin as [->|Hin]; [lia|]).
    by apply elem_of_nil in Hin. }
  split; [exact H|]. split; [vm_compute; reflexivity|].
  exact (proj2 (attribute_indexes_in_range Sample.town Sample.request _ H Hbytes)).
Defined.

(** ** The layout of a layer *)

Lemma layer_parts (header features keys values : list pbf_field) :
  Forall (fun f => has_tag vector_tile.FEATURE_TAG f = false
                   /\ has_tag vector_tile.VARIANT_TAG f = false) header ->
  Forall (fun f => has_tag vector_tile.FEATURE_TAG f = true) features ->
  Forall (fun f => has_tag vector_tile.FEATURE_TAG f = false
                   /\ has_tag vector_tile.VARIANT_TAG f = false) keys ->
  Forall (fun f => has_tag vector_tile.VARIANT_TAG f = true) values ->
  layer_features (header ++ features ++ keys ++ values) = features /\
  layer_values (header ++ features ++ keys ++ values) = values.
Proof.
  intros Hh Hf Hk Hv.
  assert (forall f, has_tag vector_tile.FEATURE_TAG f = true ->
                    has_tag vector_tile.VARIANT_TAG f = false) as Hfv.
  { intros [] Ht; try done. cbn in *. apply Z.eqb_eq in Ht. by subst. }
  assert (forall f, has_tag vector_tile.VARIANT_TAG f = true ->
                    has_tag vector_tile.FEATURE_TAG f = false) as Hvf.
  { intros [] Ht; try done. cbn in *. apply Z.eqb_eq in Ht. by subst. }
  unfold layer_features, layer_values. rewrite !List.filter_app.
  rewrite (filter_none (has_tag vector_tile.FEATURE_TAG) header),
    (filter_none (has_tag vector_tile.VARIANT_TAG) header),
    (filter_none (has_tag vector_tile.FEATURE_TAG) keys),
    (filter_none (has_tag vector_tile.VARIANT_TAG) keys),
    (filter_all _ _ Hf), (filter_all _ _ Hv),
    (filter_none (has_tag vector_tile.VARIANT_TAG) features),
    (filter_none (has_tag vector_tile.FEATURE_TAG) values);
    try (eapply Forall_impl; [eassumption|]; cbn beta; intros f Hf'; tauto || auto).
  cbn [app]. by rewrite app_nil_r.
Qed.

Lemma no_keys_in_submessages (tag : Z) (fields : list pbf_field) :
  Forall (fun f => has_tag tag f = true) fields -> layer_keys fields = [].
Proof.
  induction 1 as [|f fields Hf _ IH]; [done|].
  unfold layer_keys in *. cbn [flat_map]. rewrite IH. by destruct f.
Qed.

Lemma layer_keys_app (fields more : list pbf_field) :
  layer_keys (fields ++ more) = layer_keys fields ++ layer_keys more.
Proof. apply flat_map_app. Qed.

(** X10.  The fields of a layer are written in this order: the version 2,
    the name, the extent 4096, then all the features, then the keys, then
    all the values.  The keys of the "speeds" layer are speed, is_small,
    datasource and duration; those of the "turns" layer are bearing_in,
    bearing_out and weight: they are what the key indexes 0, 1, 2, 3 of the
    attribute pairs stand for. *)
Theorem layer_layout env parameters tile :
  tile_writer env parameters = Returns tile ->
  speeds_of tile =
    [ add_uint32 vector_tile.VERSION_TAG 2;
      add_string vector_tile.NAME_TAG "speeds";
      add_uint32 vector_tile.EXTENT_TAG vector_tile.EXTENT ]
    ++ layer_features (speeds_of tile)
    ++ map (add_string vector_tile.KEY_TAG) ["speed"; "is_small"; "datasource"; "duration"]
    ++ layer_values (speeds_of tile) /\
  turns_of tile =
    [ add_uint32 vector_tile.VERSION_TAG 2;
      add_string vector_tile.NAME_TAG "turns";
      add_uint32 vector_tile.EXTENT_TAG vector_tile.EXTENT ]
    ++ layer_features (turns_of tile)
    ++ map (add_string vector_tile.KEY_TAG) ["bearing_in"; "bearing_out"; "weight"]
    ++ layer_values (turns_of tile) /\
  layer_keys (speeds_of tile) = ["speed"; "is_small"; "datasource"; "duration"] /\
  layer_keys (turns_of tile) = ["bearing_in"; "bearing_out"; "weight"].
Proof.
  intros H. apply tile_writer_Returns in H
    as (st & speeds & turns & _ & _ & Hst & Hlines & Hpoints & ->).
  destruct (line_layer_spec _ _ _ _ _ _ Hst Hlines) as [_ (features1 & Hall1 & ->)].
  destruct Hst as (_ & _ & _ & Hlen & _).
  destruct (point_layer_spec _ _ _ _ _ Hlen Hpoints) as (features2 & Hall2 & ->).
  cbn [speeds_of turns_of].
  assert (Forall (fun f => has_tag vector_tile.FEATURE_TAG f = true) features1) as Hf1.
  { apply (Forall2_right _ _ _ _ Hall1). intros ed f Had.
    by destruct (drawn_as_feature _ _ _ _ _ Had). }
  assert (Forall (fun f => has_tag vector_tile.FEATURE_TAG f = true) features2) as Hf2.
  { apply (Forall2_right _ _ _ _ Hall2). intros et f (Hf & Hx & Hy).
    by destruct (marked_as_shape _ _ _ Hx Hy Hf). }
  destruct (line_values_variants env st) as [Hv1 _].
  assert (Forall (fun f => has_tag vector_tile.VARIANT_TAG f = true)
            (map (fun value =>
                    variant (add_uint64 vector_tile.VARIANT_TYPE_UINT64 (Int.uint64 value)))
               (used_point_ints st))) as Hv2
    by (apply Forall_forall; by intros f [x [-> _]]%list_elem_of_fmap).
  match goal with
  | |- ?h1 ++ _ ++ ?k1 ++ _ = _ /\ ?h2 ++ _ ++ ?k2 ++ _ = _ /\ _ =>
      destruct (layer_parts h1 features1 k1 _ ltac:(by repeat constructor) Hf1
                  ltac:(by repeat constructor) Hv1) as [-> ->];
      destruct (layer_parts h2 features2 k2 _ ltac:(by repeat constructor) Hf2
                  ltac:(by repeat constructor) Hv2) as [-> ->]
  end.
  split; [done|]. split; [done|].
  rewrite !layer_keys_app.
  rewrite (no_keys_in_submessages _ _ Hf1), (no_keys_in_submessages _ _ Hf2),
    (no_keys_in_submessages _ _ Hv1), (no_keys_in_submessages _ _ Hv2).
  by split.
Qed.

(** [layer_layout] on the sample network. *)
Lemma layer_layout_witness :
  tile_writer Sample.town Sample.request = Returns (Sample.tile Sample.two_segments) /\
  layer_keys (speeds_of (Sample.tile Sample.two_segments))
  = ["speed"; "is_small"; "datasource"; "duration"] /\
  layer_keys (turns_of (Sample.tile Sample.two_segments))
  = ["bearing_in"; "bearing_out"; "weight"].
Proof.
  assert (tile_writer Sample.town Sample.request
          = Returns (Sample.tile Sample.two_segments)) as H
    by (vm_compute; reflexivity).
  split; [exact H|].
  exact (proj2 (proj2 (layer_layout Sample.town Sample.request _ H))).
Defined.

(** ** The ids of the features *)

Lemma uint32_add_l (a b : Z) : Int.uint32 (Int.uint32 a + b) = Int.uint32 (a + b).
Proof. unfold Int.uint32. by rewrite Z.add_mod_idemp_l by lia. Qed.

Lemma uint32_range (z : Z) : 0 <= Int.uint32 z < 2 ^ 32.
Proof. unfold Int.uint32. apply Z.mod_pos_bound. lia. Qed.

Lemma counted_from_app id features more :
  counted_from id features ->
  counted_from (Int.uint32 (id + Z.of_nat (length features))) more ->
  counted_from id (features ++ more).
Proof.
  intros H1 H2 i f Hi. apply lookup_app_Some in Hi as [Hi|[Hlen Hi]].
  - by apply H1.
  - rewrite (H2 _ _ Hi), uint32_add_l. f_equal. f_equal. lia.
Qed.

Lemma counted_from_nil id : counted_from id [].
Proof. intros i f Hi. by rewrite lookup_nil in Hi. Qed.

Lemma counted_from_singleton id f :
  0 <= id < 2 ^ 32 -> feature_id f = [id] -> counted_from id [f].
Proof.
  intros Hid Hf i f' Hi. apply list_lookup_singleton_Some in Hi as [-> <-].
  by rewrite Z.add_0_r, uint32_id.
Qed.

Lemma draw_id env edges tile_bbox id ed :
  exists f,
    snd (draw env edges tile_bbox (id, []) ed) = [f] /\ feature_id f = [id] /\
    has_tag vector_tile.FEATURE_TAG f = true.
Proof.
  unfold draw. cbn [fst snd]. rewrite encode_tile_line_writes.
  eexists. split; [|split]; reflexivity.
Qed.

(** Nothing written: the counter and the writer are as they were. *)
Lemma counted_none id writer :
  0 <= id < 2 ^ 32 ->
  exists features : list pbf_field,
    (id, writer) = (Int.uint32 (id + Z.of_nat (length features)), writer ++ features) /\
    counted_from id features /\
    Forall (fun f => has_tag vector_tile.FEATURE_TAG f = true) features.
Proof.
  intros Hid. exists []. cbn [length]. rewrite Z.add_0_r, uint32_id, app_nil_r by done.
  split; [done|]. split; [apply counted_from_nil | constructor].
Qed.

(** One feature, then more of them. *)
Lemma counted_cons id writer f features :
  0 <= id < 2 ^ 32 -> feature_id f = [id] ->
  has_tag vector_tile.FEATURE_TAG f = true ->
  counted_from (Int.uint32 (id + 1)) features ->
  Forall (fun f => has_tag vector_tile.FEATURE_TAG f = true) features ->
  (Int.uint32 (Int.uint32 (id + 1) + Z.of_nat (length features)),
   (writer ++ [f]) ++ features)
  = (Int.uint32 (id + Z.of_nat (length (f :: features))), writer ++ f :: features) /\
  counted_from id (f :: features) /\
  Forall (fun f => has_tag vector_tile.FEATURE_TAG f = true) (f :: features).
Proof.
  intros Hid Hf Htag Hids Htags. rewrite <- app_assoc. cbn [app length].
  split; [|split; [|by constructor]].
  - replace (id + Z.of_nat (S (length features)))
      with (id + 1 + Z.of_nat (length features)) by lia.
    by rewrite uint32_add_l.
  - apply (counted_from_app id [f] features); [by apply counted_from_singleton|].
    exact Hids.
Qed.

(** The features of the lines, with the counter. *)
Lemma fold_draw_ids env edges tile_bbox dirs id writer :
  0 <= id < 2 ^ 32 ->
  exists features,
    fold_left (draw env edges tile_bbox) dirs (id, writer)
    = (Int.uint32 (id + Z.of_nat (length features)), writer ++ features) /\
    counted_from id features /\
    Forall (fun f => has_tag vector_tile.FEATURE_TAG f = true) features.
Proof.
  revert id writer. induction dirs as [|ed dirs IH]; intros id writer Hid;
    cbn [fold_left]; [by apply counted_none|].
  destruct (draw_writes env edges tile_bbox id writer ed) as [-> _].
  destruct (draw_id env edges tile_bbox id ed) as (f & -> & Hf & Htag).
  destruct (IH (Int.uint32 (id + 1)) (writer ++ [f]) (uint32_range _))
    as (features & -> & Hids & Htags).
  exists (f :: features). by apply counted_cons.
Qed.

Lemma encode_tile_point_id tile_point td id writer :
  exists f,
    encode_tile_point tile_point td (id, writer) = (Int.uint32 (id + 1), writer ++ [f]) /\
    feature_id f = [id] /\ has_tag vector_tile.FEATURE_TAG f = true.
Proof. rewrite encode_tile_point_writes. eexists. split; [|split]; reflexivity. Qed.

(** The features of the turns of one edge, with the counter. *)
Lemma fold_encode_tile_point_ids tile_point tds id writer :
  0 <= id < 2 ^ 32 ->
  exists features,
    fold_left (fun s td => encode_tile_point tile_point td s) tds (id, writer)
    = (Int.uint32 (id + Z.of_nat (length features)), writer ++ features) /\
    counted_from id features /\
    Forall (fun f => has_tag vector_tile.FEATURE_TAG f = true) features.
Proof.
  revert id writer. induction tds as [|td tds IH]; intros id writer Hid;
    cbn [fold_left]; [by apply counted_none|].
  destruct (encode_tile_point_id tile_point td id writer) as (f & -> & Hf & Htag).
  destruct (IH (Int.uint32 (id + 1)) (writer ++ [f]) (uint32_range _))
    as (features & -> & Hids & Htags).
  exists (f :: features). by apply counted_cons.
Qed.

Lemma point_features_ids env edges tile_bbox st i id writer s' :
  0 <= id < 2 ^ 32 ->
  point_features env edges tile_bbox st i (id, writer) = Returns s' ->
  exists features,
    s' = (Int.uint32 (id + Z.of_nat (length features)), writer ++ features) /\
    counted_from id features /\
    Forall (fun f => has_tag vector_tile.FEATURE_TAG f = true) features.
Proof.
  intros Hid H. pose proof (counted_none id writer Hid) as Hnone.
  unfold point_features in H. obind_inv H. obind_inv H.
  destruct r0 as [|td tds]; [by injection H as <-|].
  destruct (last_segment r _); cbn [negb] in H; [|by injection H as <-].
  obind_inv H. rename r0 into tile_point.
  destruct (within _ _); cbn [negb] in H; [|by injection H as <-].
  destruct (fold_encode_tile_point_ids tile_point (td :: tds) id writer Hid)
    as (features & Hfold & Hids).
  rewrite Hfold in H. injection H as <-. by exists features.
Qed.

Lemma point_loop_ids env edges tile_bbox st indexes id writer s' :
  0 <= id < 2 ^ 32 ->
  ofold (point_features env edges tile_bbox st) indexes (id, writer) = Returns s' ->
  exists features,
    s' = (Int.uint32 (id + Z.of_nat (length features)), writer ++ features) /\
    counted_from id features /\
    Forall (fun f => has_tag vector_tile.FEATURE_TAG f = true) features.
Proof.
  revert id writer. induction indexes as [|i indexes IH]; intros id writer Hid H;
    cbn [ofold] in H.
  - injection H as <-. by apply counted_none.
  - obind_inv H.
    destruct (point_features_ids _ _ _ _ _ _ _ _ Hid E)
      as (features1 & -> & Hids1 & Htags1).
    destruct (IH _ _ (uint32_range _) H) as (features2 & -> & Hids2 & Htags2).
    exists (features1 ++ features2).
    rewrite <- app_assoc, length_app, uint32_add_l, Nat2Z.inj_add, Z.add_assoc.
    split; [done|]. split; [by apply counted_from_app | by apply Forall_app].
Qed.

(** X11.  The features of a layer are numbered in the order in which they
    are written: the counter of each layer starts at 1 and is incremented
    after every feature, in 32 bits.  In a layer of fewer than 2^32
    features the i-th feature (from 0) has the id i + 1, so that no two
    features of the layer have the same id. *)
Theorem feature_ids_count_from_one env parameters tile :
  tile_writer env parameters = Returns tile ->
  counted_from 1 (layer_features (speeds_of tile)) /\
  counted_from 1 (layer_features (turns_of tile)) /\
  (vec_size (layer_features (speeds_of tile)) < 2 ^ 32 ->
   forall i f,
     layer_features (speeds_of tile) !! i = Some f -> feature_id f = [Z.of_nat i + 1]) /\
  (vec_size (layer_features (turns_of tile)) < 2 ^ 32 ->
   forall i f,
     layer_features (turns_of tile) !! i = Some f -> feature_id f = [Z.of_nat i + 1]).
Proof.
  intros H.
  assert (counted_from 1 (layer_features (speeds_of tile)) /\
          counted_from 1 (layer_features (turns_of tile))) as [H1 H2].
  { apply tile_writer_Returns in H
      as (st & speeds & turns & _ & _ & Hst & Hlines & Hpoints & ->).
    cbn [speeds_of turns_of] in *. split.
    - unfold line_layer in Hlines. obind_inv Hlines.
      apply (line_loop_spec env (edges_of env parameters)) in E; [|done|done]. subst r.
      injection Hlines as <-.
      match goal with
      | |- context [fold_left ?f ?l (?i, ?w)] =>
          destruct (fold_draw_ids env (edges_of env parameters)
                      (tile_bbox_of env parameters) l i w ltac:(lia))
            as (features & -> & Hids & Htags)
      end.
      cbn [snd speeds_of]. rewrite <- !app_assoc.
      destruct (line_values_variants env st) as [Hv _].
      match goal with
      | |- context [?h ++ features ++ ?k ++ line_values env st] =>
          destruct (layer_parts h features k _ ltac:(by repeat constructor) Htags
                      ltac:(by repeat constructor) Hv) as [-> _]
      end.
      done.
    - unfold point_layer in Hpoints. obind_inv Hpoints. destruct r as [id writer].
      injection Hpoints as <-.
      destruct (point_loop_ids _ _ _ _ _ 1 _ _ ltac:(lia) E)
        as (features & [= -> ->] & Hids & Htags).
      cbn [turns_of].
      destruct (layer_parts
                  [ add_uint32 vector_tile.VERSION_TAG 2;
                    add_string vector_tile.NAME_TAG "turns";
                    add_uint32 vector_tile.EXTENT_TAG vector_tile.EXTENT ]
                  features
                  [ add_string vector_tile.KEY_TAG "bearing_in";
                    add_string vector_tile.KEY_TAG "bearing_out";
                    add_string vector_tile.KEY_TAG "weight" ]
                  (map turn_value (used_point_ints st))
                  ltac:(by repeat constructor) Htags ltac:(by repeat constructor)
                  ltac:(apply Forall_forall; by intros f [x [-> _]]%list_elem_of_fmap))
        as [Hparts _].
      rewrite <- Hparts in Hids. rewrite <- !app_assoc. exact Hids. }
  split; [done|]. split; [done|].
  split; intros Hsmall i f Hi;
    [rewrite (H1 _ _ Hi) | rewrite (H2 _ _ Hi)];
    apply lookup_lt_Some in Hi; unfold vec_size in Hsmall;
    rewrite uint32_id by lia; f_equal; lia.
Qed.

(** [feature_ids_count_from_one] on the sample network: two lines and two
    turn points. *)
Lemma feature_ids_count_from_one_witness :
  tile_writer Sample.town Sample.request = Returns (Sample.tile Sample.two_segments) /\
  map feature_id (layer_features (speeds_of (Sample.tile Sample.two_segments)))
  = [[1]; [2]] /\
  counted_from 1 (layer_features (speeds_of (Sample.tile Sample.two_segments))) /\
  counted_from 1 (layer_features (turns_of (Sample.tile Sample.two_segments))).
Proof.
  assert (tile_writer Sample.town Sample.request
          = Returns (Sample.tile Sample.two_segments)) as H
    by (vm_compute; reflexivity).
  split; [exact H|]. split; [vm_compute; reflexivity|].
  pose proof (feature_ids_count_from_one Sample.town Sample.request _ H)
    as (H1 & H2 & _).
  split; [exact H1 | exact H2].
Defined.

(** ** The second pass over the edges *)

(** X12.  The block of the line layer goes through the edges a second
    time.  It looks the weight of every drawn direction up with
    [operator[]], which inserts a missing key, and it takes the maximum of
    the datasources again; yet after the first loop it changes none of the
    locals: every weight it looks up was interned and no datasource exceeds
    the maximum, so the values written after the features are those the
    features refer to. *)
Theorem second_pass_keeps_locals env edges tile_bbox st st' layer :
  ofold (tally_edge env) edges initial_locals = Returns st ->
  line_layer env edges tile_bbox st = Returns (st', layer) ->
  st' = st /\
  (forall edge d weight datasource,
     edge ∈ edges -> attributes_of env edge d = Some (weight, datasource) ->
     is_Some (line_int_offsets st !! weight) /\ datasource <= max_datasource_id st).
Proof.
  intros Htally Hlines.
  pose proof (tally_tallied env [] _ _ _ (tallied_initial env) Htally) as Hst.
  cbn [app] in Hst. split.
  - by destruct (line_layer_spec _ _ _ _ _ _ Hst Hlines) as [-> _].
  - intros edge d weight datasource Hin Hd.
    destruct (tallied_direction _ _ _ _ _ _ _ Hst Hin Hd) as [Hoff Hmax].
    split; [by eexists | done].
Qed.

(** [second_pass_keeps_locals] on the sample network. *)
Lemma second_pass_keeps_locals_witness :
  ofold (tally_edge Sample.town) Sample.two_segments initial_locals
  = Returns (Sample.tally Sample.two_segments) /\
  exists layer,
    line_layer Sample.town Sample.two_segments (tile_bbox_of Sample.town Sample.request)
      (Sample.tally Sample.two_segments)
    = Returns (Sample.tally Sample.two_segments, layer).
Proof.
  assert (ofold (tally_edge Sample.town) Sample.two_segments initial_locals
          = Returns (Sample.tally Sample.two_segments)) as H
    by (vm_compute; reflexivity).
  split; [exact H|].
  destruct (line_layer Sample.town Sample.two_segments
              (tile_bbox_of Sample.town Sample.request)
              (Sample.tally Sample.two_segments)) as [[st' layer]| |] eqn:Hlines;
    [|vm_compute in Hlines; discriminate..].
  exists layer.
  by destruct (second_pass_keeps_locals Sample.town Sample.two_segments _ _ _ _
                 H Hlines) as [-> _].
Defined.

(** ** A box without edges *)

(** X13.  When no edge lies in the box of the tile, the request still
    returns [Ok] and appends a tile of two layers: each has its header and
    its keys and no feature.  The "speeds" layer still has 131 values (the
    128 speeds, the two booleans and the name of datasource 0, the running
    maximum being 0); the "turns" layer has no value. *)
Theorem empty_box_tile env parameters pbf_buffer :
  edges_of env parameters = [] ->
  (assertions_enabled env = true -> TileParameters.IsValid parameters = true) ->
  HandleRequest env parameters pbf_buffer
  = Returns
      (Ok,
       pbf_buffer ++
       Wire.pbf_bytes
         [ pbf_writer vector_tile.LAYER_TAG
             ([ add_uint32 vector_tile.VERSION_TAG 2;
                add_string vector_tile.NAME_TAG "speeds";
                add_uint32 vector_tile.EXTENT_TAG vector_tile.EXTENT ]
              ++ map (add_string vector_tile.KEY_TAG)
                   ["speed"; "is_small"; "datasource"; "duration"]
              ++ map (fun i =>
                        variant (add_uint64 vector_tile.VARIANT_TYPE_UINT64 (Z.of_nat i)))
                   (seq 0 128)
              ++ [ variant (add_bool vector_tile.VARIANT_TYPE_BOOL true);
                   variant (add_bool vector_tile.VARIANT_TYPE_BOOL false);
                   variant (add_string vector_tile.VARIANT_TYPE_STRING
                              (GetDatasourceName (facade env) 0)) ]);
           pbf_writer vector_tile.LAYER_TAG
             ([ add_uint32 vector_tile.VERSION_TAG 2;
                add_string vector_tile.NAME_TAG "turns";
                add_uint32 vector_tile.EXTENT_TAG vector_tile.EXTENT ]
              ++ map (add_string vector_tile.KEY_TAG)
                   ["bearing_in"; "bearing_out"; "weight"]) ]).
Proof.
  intros Hedges Hvalid. unfold HandleRequest, tile_writer, BOOST_ASSERT.
  assert (assertions_enabled env && negb (TileParameters.IsValid parameters) = false)
    as ->.
  { destruct (assertions_enabled env); [|done]. by rewrite Hvalid. }
  rewrite Hedges. cbn [ofold obind]. unfold line_layer, point_layer.
  cbn [ofold obind length seq]. unfold line_values. cbn [max_datasource_id initial_locals
    used_line_ints used_point_ints map app].
  reflexivity.
Qed.

(** [empty_box_tile] on the sample network without edges, in a build that
    checks assertions. *)
Lemma empty_box_tile_witness :
  exists tile,
    HandleRequest (Sample.debug []) Sample.request [] = Returns (Ok, Wire.pbf_bytes tile) /\
    map (fun layer => length (layer_features layer)) [speeds_of tile; turns_of tile]
    = [0%nat; 0%nat] /\
    map (fun layer => length (layer_values layer)) [speeds_of tile; turns_of tile]
    = [131%nat; 0%nat].
Proof.
  eexists. split; [|split].
  - exact (empty_box_tile (Sample.debug []) Sample.request []
             ltac:(reflexivity) ltac:(reflexivity)).
  - vm_compute. reflexivity.
  - vm_compute. reflexivity.
Defined.

(** ** Where a request can stop *)

Lemma obind_Aborts {A B : Type} (m : outcome A) (k : A -> outcome B) :
  obind m k = Aborts -> m = Aborts \/ exists a, m = Returns a /\ k a = Aborts.
Proof. destruct m as [a| |]; cbn; [by right; exists a | by left | discriminate]. Qed.

Lemma obind_not_Aborts {A B : Type} (m : outcome A) (k : A -> outcome B) :
  m <> Aborts -> (forall a, k a <> Aborts) -> obind m k <> Aborts.
Proof. intros Hm Hk [H|(a & _ & H)]%obind_Aborts; [done | by apply (Hk a)]. Qed.

Lemma ofold_Aborts {A S : Type} (body : A -> S -> outcome S) (l : list A) (s : S) :
  ofold body l s = Aborts -> exists a t, a ∈ l /\ body a t = Aborts.
Proof.
  revert s. induction l as [|a l IH]; intros s H; cbn [ofold] in H; [discriminate|].
  apply obind_Aborts in H as [H|(s' & _ & H)].
  - exists a, s. split; [by left | done].
  - destruct (IH _ H) as (b & t & Hb & Ht). exists b, t. split; [by right | done].
Qed.

Lemma ofold_not_Aborts {A S : Type} (body : A -> S -> outcome S) (l : list A) (s : S) :
  (forall a t, body a t <> Aborts) -> ofold body l s <> Aborts.
Proof. intros Hbody (a & t & _ & H)%ofold_Aborts. by apply (Hbody a t). Qed.

Lemma otraverse_not_Aborts {A B : Type} (f : A -> outcome B) (l : list A) :
  (forall a, f a <> Aborts) -> otraverse f l <> Aborts.
Proof.
  intros Hf. induction l as [|a l IH]; cbn [otraverse]; [discriminate|].
  apply obind_not_Aborts; [apply Hf|]. intros b.
  apply obind_not_Aborts; [apply IH | discriminate].
Qed.

Lemma vec_at_not_Aborts {A : Type} (v : list A) (i : Z) : vec_at v i <> Aborts.
Proof. unfold vec_at. destruct (i <? 0); [discriminate|]. by destruct (v !! _). Qed.

Lemma vec_front_not_Aborts {A : Type} (v : list A) : vec_front v <> Aborts.
Proof. by destruct v. Qed.

Lemma to_integral_not_Aborts (fits : Z -> bool) (x : double) :
  Double.to_integral fits x <> Aborts.
Proof.
  unfold Double.to_integral. destruct (Double.truncate x) as [z|]; [|discriminate].
  by destruct (fits z).
Qed.

Create HintDb no_abort.

#[local] Hint Resolve vec_at_not_Aborts vec_front_not_Aborts to_integral_not_Aborts
  : no_abort.

(** Decomposes a goal [m <> Aborts] along the structure of [m]; the
    functions already known not to abort are in the database. *)
Ltac not_aborts :=
  repeat first
    [ discriminate
    | solve [auto 1 with no_abort nocore]
    | apply obind_not_Aborts; [|intros ?]
    | match goal with
      | |- (if ?c then _ else _) <> Aborts => destruct c
      | |- match ?x with _ => _ end <> Aborts => destruct x
      end ].

Lemma forward_attributes_not_Aborts env edge : forward_attributes env edge <> Aborts.
Proof. unfold forward_attributes. not_aborts. Qed.

Lemma shortcut_turn_not_Aborts env edge sum_node_weight adj_shortcut c_nodes :
  shortcut_turn env edge sum_node_weight adj_shortcut c_nodes <> Aborts.
Proof. unfold shortcut_turn. not_aborts. Qed.

Lemma turn_record_not_Aborts env coord_b angle_in_offset next s :
  turn_record env coord_b angle_in_offset next s <> Aborts.
Proof. unfold turn_record, Double.to_uint64. not_aborts. Qed.

Lemma intersection_turns_not_Aborts env edge weights nodes st :
  intersection_turns env edge weights nodes st <> Aborts.
Proof.
  unfold intersection_turns, Double.to_uint64. not_aborts.
  - apply ofold_not_Aborts. intros. apply shortcut_turn_not_Aborts.
  - apply ofold_not_Aborts. intros. apply turn_record_not_Aborts.
Qed.

Lemma coordinatesToTileLine_not_Aborts env start target tile_bbox :
  coordinatesToTileLine env start target tile_bbox <> Aborts.
Proof.
  unfold coordinatesToTileLine. not_aborts.
  apply otraverse_not_Aborts. intros p. unfold Double.to_int32. not_aborts.
Qed.

Lemma coordinatesToTilePoint_not_Aborts env point tile_bbox :
  coordinatesToTilePoint env point tile_bbox <> Aborts.
Proof. unfold coordinatesToTilePoint, Double.to_int32. not_aborts. Qed.

#[local] Hint Resolve forward_attributes_not_Aborts intersection_turns_not_Aborts
  coordinatesToTileLine_not_Aborts coordinatesToTilePoint_not_Aborts : no_abort.

Lemma line_direction_not_Aborts env edge tile_bbox length weight datasource segment_id
    from to s :
  line_direction env edge tile_bbox length weight datasource segment_id from to s
  <> Aborts.
Proof. unfold line_direction, speed_kmh_of, Double.to_uint32. not_aborts. Qed.

Lemma point_layer_not_Aborts env edges tile_bbox st :
  point_layer env edges tile_bbox st <> Aborts.
Proof.
  unfold point_layer. not_aborts. apply ofold_not_Aborts. intros i s.
  unfold point_features. not_aborts.
Qed.

#[local] Hint Resolve line_direction_not_Aborts point_layer_not_Aborts : no_abort.

(** The only assertion on an edge is the one on the reverse weights. *)
Lemma reverse_attributes_Aborts env edge :
  reverse_attributes env edge = Aborts ->
  assertions_enabled env = true /\
  Edge.reverse_packed_geometry_id edge <> SPECIAL_EDGEID /\
  vec_size (GetUncompressedWeights (facade env) (Edge.reverse_packed_geometry_id edge))
    <= Edge.fwd_segment_position edge.
Proof.
  unfold reverse_attributes, BOOST_ASSERT. intros H.
  destruct (Z.eqb_spec (Edge.reverse_packed_geometry_id edge) SPECIAL_EDGEID) as [|Hhas];
    [discriminate|].
  destruct (assertions_enabled env).
  - destruct (Z.ltb_spec (Edge.fwd_segment_position edge)
                (vec_size (GetUncompressedWeights (facade env)
                             (Edge.reverse_packed_geometry_id edge)))) as [Hlt|Hge].
    + exfalso. contradict H. cbn [andb negb obind]. not_aborts.
    + split; [done|]. split; [done | lia].
  - exfalso. contradict H. cbn [andb obind]. not_aborts.
Qed.

Lemma tally_edge_Aborts env edge st :
  tally_edge env edge st = Aborts -> reverse_attributes env edge = Aborts.
Proof.
  unfold tally_edge. intros H.
  apply obind_Aborts in H as [H|(forward & _ & H)];
    [by apply forward_attributes_not_Aborts in H|].
  apply obind_Aborts in H as [H|([[forward_datasource st1] tds] & _ & H)].
  - exfalso. contradict H. not_aborts.
  - apply obind_Aborts in H as [H|(reverse & _ & H)]; [done|].
    exfalso. contradict H. not_aborts.
Qed.

Lemma line_features_Aborts env tile_bbox edge s :
  line_features env tile_bbox edge s = Aborts -> reverse_attributes env edge = Aborts.
Proof.
  unfold line_features. destruct s as [[st id] writer]. intros H.
  apply obind_Aborts in H as [H|(forward & _ & H)];
    [by apply forward_attributes_not_Aborts in H|].
  destruct (default (0, 0) forward) as [forward_weight forward_datasource].
  apply obind_Aborts in H as [H|(reverse & _ & H)]; [done|].
  destruct (default (0, 0) reverse) as [reverse_weight reverse_datasource].
  exfalso. contradict H. not_aborts.
Qed.

(** A request that stops at an assertion does so at the assertion on the
    request or while it reads the reverse direction of an edge of the box. *)
Lemma HandleRequest_Aborts env parameters pbf_buffer :
  HandleRequest env parameters pbf_buffer = Aborts ->
  assertions_enabled env = true /\
  (TileParameters.IsValid parameters = false \/
   exists edge,
     edge ∈ edges_of env parameters /\ reverse_attributes env edge = Aborts).
Proof.
  unfold HandleRequest. intros H.
  apply obind_Aborts in H as [H|(tile & _ & H)]; [|discriminate].
  unfold tile_writer in H.
  apply obind_Aborts in H as [H|([] & _ & H)].
  { unfold BOOST_ASSERT in H. destruct (assertions_enabled env); [|discriminate].
    split; [done|]. left. by destruct (TileParameters.IsValid parameters). }
  assert (exists edge, edge ∈ edges_of env parameters /\
                       reverse_attributes env edge = Aborts) as (edge & Hin & Hedge).
  { apply obind_Aborts in H as [H|(st & _ & H)].
    - apply ofold_Aborts in H as (edge & t & Hin & H).
      exists edge. split; [done | by eapply tally_edge_Aborts].
    - apply obind_Aborts in H as [H|([st' speeds] & _ & H)].
      + unfold line_layer in H. apply obind_Aborts in H as [H|([[? ?] ?] & _ & H)];
          [|discriminate].
        apply ofold_Aborts in H as (edge & t & Hin & H).
        exists edge. split; [done | by eapply line_features_Aborts].
      + apply obind_Aborts in H as [H|(turns & _ & H)]; [|discriminate].
        by apply point_layer_not_Aborts in H. }
  split; [by apply reverse_attributes_Aborts in Hedge as (Hen & _)|].
  right. by exists edge.
Qed.

(** X14.  A request stops at a failed assertion only in a build that checks
    assertions, and only at one of the two kinds of assertion the function
    has: the request is not valid, or the reverse weights of some edge of
    the box are not more than the position of the segment.  Nothing else in
    the function aborts; in a build without assertions a request either
    returns or has undefined behaviour. *)
Theorem aborts_only_at_assertions env parameters pbf_buffer :
  HandleRequest env parameters pbf_buffer = Aborts ->
  assertions_enabled env = true /\
  (TileParameters.IsValid parameters = false \/
   exists edge,
     edge ∈ edges_of env parameters /\
     Edge.reverse_packed_geometry_id edge <> SPECIAL_EDGEID /\
     vec_size (GetUncompressedWeights (facade env) (Edge.reverse_packed_geometry_id edge))
       <= Edge.fwd_segment_position edge).
Proof.
  intros H. apply HandleRequest_Aborts in H as [Hen [Hbad|(edge & Hin & Hedge)]].
  - split; [done | by left].
  - apply reverse_attributes_Aborts in Hedge as (_ & Hhas & Hshort).
    split; [done|]. right. by exists edge.
Qed.

(** [aborts_only_at_assertions] at the request for a tile that does not
    exist, in a build that checks assertions. *)
Lemma aborts_only_at_assertions_witness :
  HandleRequest (Sample.debug []) Sample.bad_request [] = Aborts /\
  assertions_enabled (Sample.debug []) = true.
Proof.
  assert (HandleRequest (Sample.debug []) Sample.bad_request [] = Aborts) as H
    by reflexivity.
  split; [exact H|].
  exact (proj1 (aborts_only_at_assertions (Sample.debug []) Sample.bad_request [] H)).
Defined.

(** ** Attribute arrays that are too short *)

(** C3, amended.  [HandleRequest] has no [DataInconsistency] signal:
    whenever it returns, the status is [Ok].  That the weight and datasource
    arrays of a direction are longer than the segment position is a
    precondition on the facade.  Only the reverse weights are asserted; the
    forward weights, the forward datasources and the reverse datasources are
    indexed unchecked.  When an edge of the box breaks the precondition the
    request does not return: it stops at an assertion or indexes outside an
    array, which is undefined behaviour.  In a build without assertions it
    is always the latter.  In a build that checks assertions the request can
    stop only at the assertion on the request or at the one on the reverse
    weights of an edge of the box: reading a reverse direction whose weights
    are too short stops there, while reading a forward direction with a
    short array, or a reverse direction of which only the datasources are
    too short, is undefined in every build. *)
Theorem short_attribute_array env parameters pbf_buffer :
  (forall status buffer,
     HandleRequest env parameters pbf_buffer = Returns (status, buffer) -> status = Ok) /\
  (HandleRequest env parameters pbf_buffer = Aborts ->
   assertions_enabled env = true /\
   (TileParameters.IsValid parameters = false \/
    exists edge,
      edge ∈ edges_of env parameters /\
      Edge.reverse_packed_geometry_id edge <> SPECIAL_EDGEID /\
      vec_size (GetUncompressedWeights (facade env) (Edge.reverse_packed_geometry_id edge))
        <= Edge.fwd_segment_position edge)) /\
  forall edge,
    edge ∈ edges_of env parameters ->
    0 <= Edge.fwd_segment_position edge < 2 ^ 64 ->
    (Edge.forward_packed_geometry_id edge <> SPECIAL_EDGEID /\
     (vec_size (GetUncompressedWeights (facade env)
                  (Edge.forward_packed_geometry_id edge))
      <= Edge.fwd_segment_position edge \/
      vec_size (GetUncompressedDatasources (facade env)
                  (Edge.forward_packed_geometry_id edge))
      <= Edge.fwd_segment_position edge))
    \/
    (Edge.reverse_packed_geometry_id edge <> SPECIAL_EDGEID /\
     (vec_size (GetUncompressedWeights (facade env)
                  (Edge.reverse_packed_geometry_id edge))
      <= Edge.fwd_segment_position edge \/
      vec_size (GetUncompressedDatasources (facade env)
                  (Edge.reverse_packed_geometry_id edge))
      <= Edge.fwd_segment_position edge)) ->
    (HandleRequest env parameters pbf_buffer = Aborts \/
     HandleRequest env parameters pbf_buffer = Undefined) /\
    (assertions_enabled env = false ->
     HandleRequest env parameters pbf_buffer = Undefined) /\
    (Edge.forward_packed_geometry_id edge <> SPECIAL_EDGEID ->
     vec_size (GetUncompressedWeights (facade env)
                 (Edge.forward_packed_geometry_id edge))
     <= Edge.fwd_segment_position edge \/
     vec_size (GetUncompressedDatasources (facade env)
                 (Edge.forward_packed_geometry_id edge))
     <= Edge.fwd_segment_position edge ->
     forward_attributes env edge = Undefined) /\
    (Edge.reverse_packed_geometry_id edge <> SPECIAL_EDGEID ->
     vec_size (GetUncompressedWeights (facade env)
                 (Edge.reverse_packed_geometry_id edge))
     <= Edge.fwd_segment_position edge ->
     reverse_attributes env edge
     = if assertions_enabled env then Aborts else Undefined) /\
    (Edge.reverse_packed_geometry_id edge <> SPECIAL_EDGEID ->
     Edge.fwd_segment_position edge
     < vec_size (GetUncompressedWeights (facade env)
                   (Edge.reverse_packed_geometry_id edge)) ->
     vec_size (GetUncompressedDatasources (facade env)
                 (Edge.reverse_packed_geometry_id edge))
     <= Edge.fwd_segment_position edge ->
     reverse_attributes env edge = Undefined).
Proof.
  split; [intros status buffer; apply HandleRequest_status|].
  split.
  { intros H. apply HandleRequest_Aborts in H as [Hen [Hbad|(edge & Hin & Hedge)]].
    - split; [done | by left].
    - apply reverse_attributes_Aborts in Hedge as (_ & Hhas & Hshort).
      split; [done|]. right. by exists edge. }
  intros edge Hin Hpos Hshort.
  assert (HandleRequest env parameters pbf_buffer = Aborts \/
          HandleRequest env parameters pbf_buffer = Undefined) as Hstops.
  { destruct (HandleRequest env parameters pbf_buffer) as [[status buffer]| |] eqn:H;
      [exfalso | by left | by right].
    apply HandleRequest_Returns in H as (tile & H & _ & _).
    apply tile_writer_Returns in H as (st & _ & _ & _ & Htally & _).
    destruct (ofold_Returns_elem _ _ _ _ _ Htally Hin) as (t & t' & Hedge).
    apply tally_edge_reads in Hedge as [[forward Hf] [reverse Hr]].
    destruct Hshort as [[Hhas Hshort]|[Hhas Hshort]].
    - by apply (forward_attributes_short env edge Hhas Hshort forward).
    - by apply (reverse_attributes_short env edge Hhas Hpos Hshort reverse). }
  split; [exact Hstops|]. split; [|split; [|split]].
  - intros Hoff. destruct Hstops as [H|H]; [|done].
    apply HandleRequest_Aborts in H as [Hen _]. congruence.
  - intros Hhas Hforward.
    pose proof (forward_attributes_short env edge Hhas Hforward) as Hnone.
    pose proof (forward_attributes_not_Aborts env edge) as Hruns.
    by destruct (forward_attributes env edge) as [attributes| |];
      [destruct (Hnone attributes) | |].
  - intros Hhas Hweights.
    destruct (assertions_enabled env) eqn:Hen;
      [by apply reverse_attributes_asserted|].
    pose proof (reverse_attributes_short env edge Hhas Hpos (or_introl Hweights))
      as Hnone.
    destruct (reverse_attributes env edge) as [attributes| |] eqn:H;
      [by destruct (Hnone attributes) | | done].
    apply reverse_attributes_Aborts in H as (Hon & _). congruence.
  - intros Hhas Hweights Hdatasources.
    pose proof (reverse_attributes_short env edge Hhas Hpos (or_intror Hdatasources))
      as Hnone.
    destruct (reverse_attributes env edge) as [attributes| |] eqn:H;
      [by destruct (Hnone attributes) | | done].
    apply reverse_attributes_Aborts in H as (_ & _ & Hshort'). lia.
Qed.

(** [short_attribute_array] at the sample segment without forward weights,
    in a build that checks assertions: the request is valid and no edge of
    the box has a reverse geometry, so no assertion stops the request; it
    reads outside the forward weights. *)
Lemma short_attribute_array_witness :
  Sample.segment_short ∈ edges_of (Sample.debug [Sample.segment_short]) Sample.request /\
  assertions_enabled (Sample.debug [Sample.segment_short]) = true /\
  forward_attributes (Sample.debug [Sample.segment_short]) Sample.segment_short
  = Undefined /\
  HandleRequest (Sample.debug [Sample.segment_short]) Sample.request [] = Undefined.
Proof.
  assert (Sample.segment_short
            ∈ edges_of (Sample.debug [Sample.segment_short]) Sample.request) as Hin
    by (vm_compute; left).
  assert (0 <= Edge.fwd_segment_position Sample.segment_short < 2 ^ 64) as Hpos
    by (vm_compute; split; [discriminate | reflexivity]).
  assert (Edge.forward_packed_geometry_id Sample.segment_short <> SPECIAL_EDGEID)
    as Hhas by (vm_compute; discriminate).
  assert (vec_size (GetUncompressedWeights
                      (facade (Sample.debug [Sample.segment_short]))
                      (Edge.forward_packed_geometry_id Sample.segment_short))
          <= Edge.fwd_segment_position Sample.segment_short \/
          vec_size (GetUncompressedDatasources
                      (facade (Sample.debug [Sample.segment_short]))
                      (Edge.forward_packed_geometry_id Sample.segment_short))
          <= Edge.fwd_segment_position Sample.segment_short) as Hshort
    by (left; vm_compute; discriminate).
  destruct (short_attribute_array (Sample.debug [Sample.segment_short]) Sample.request [])
    as (_ & Hassert & Hedge).
  destruct (Hedge Sample.segment_short Hin Hpos (or_introl (conj Hhas Hshort)))
    as (Hstops & _ & Hforward & _).
  split; [exact Hin|]. split; [reflexivity|].
  split; [exact (Hforward Hhas Hshort)|].
  destruct Hstops as [Habort|Hundefined]; [exfalso | exact Hundefined].
  destruct (Hassert Habort) as [_ [Hbad|(edge & Hedges & Hreverse & _)]].
  - vm_compute in Hbad. discriminate.
  - apply list_elem_of_In in Hedges. vm_compute in Hedges.
    destruct Hedges as [<-|[]]. apply Hreverse. reflexivity.
Defined.

(** ** Builds with and without assertions *)

Lemma ofold_Returns_impl {A S : Type} (body body' : A -> S -> outcome S)
    (l : list A) (s s' : S) :
  (forall a t t', body a t = Returns t' -> body' a t = Returns t') ->
  ofold body l s = Returns s' -> ofold body' l s = Returns s'.
Proof.
  intros Hbody. revert s. induction l as [|a l IH]; intros s H; cbn [ofold] in *;
    [done|].
  obind_inv H. rewrite (Hbody _ _ _ E). cbn [obind]. by apply IH.
Qed.

Lemma reverse_attributes_without_assertions env edge attributes :
  reverse_attributes env edge = Returns attributes ->
  reverse_attributes (without_assertions env) edge = Returns attributes.
Proof.
  unfold reverse_attributes, BOOST_ASSERT. cbn [without_assertions facade assertions_enabled].
  destruct (Edge.reverse_packed_geometry_id edge =? SPECIAL_EDGEID); [done|].
  intros H. obind_inv H. exact H.
Qed.

(** Replaces the computation the goal is bound to by its result [H], up to
    conversion. *)
Ltac obind_step H :=
  match goal with
  | |- obind ?m _ = _ =>
      match type of H with
      | _ = ?r => replace m with r by (symmetry; exact H)
      end
  end;
  cbn [obind].

Lemma tally_edge_without_assertions env edge st st' :
  tally_edge env edge st = Returns st' ->
  tally_edge (without_assertions env) edge st = Returns st'.
Proof.
  unfold tally_edge. intros H. obind_inv H. obind_step E.
  obind_inv H. obind_step E0. destruct r0 as [[forward_datasource st1] tds].
  obind_inv H. rewrite (reverse_attributes_without_assertions _ _ _ E1).
  exact H.
Qed.

Lemma line_features_without_assertions env tile_bbox edge s s' :
  line_features env tile_bbox edge s = Returns s' ->
  line_features (without_assertions env) tile_bbox edge s = Returns s'.
Proof.
  unfold line_features. destruct s as [[st id] writer]. intros H. obind_inv H.
  obind_step E. destruct (default (0, 0) r) as [fw fd].
  obind_inv H. rewrite (reverse_attributes_without_assertions _ _ _ E0). cbn [obind].
  destruct (default (0, 0) r0) as [rw rd]. exact H.
Qed.

(** X15.  Assertions only stop a request: a request that returns in a build
    that checks assertions returns the same status and the same bytes in a
    build that does not. *)
Theorem assertions_do_not_change_the_tile env parameters pbf_buffer result :
  HandleRequest env parameters pbf_buffer = Returns result ->
  HandleRequest (without_assertions env) parameters pbf_buffer = Returns result.
Proof.
  unfold HandleRequest. intros H. obind_inv H. rename r into tile.
  assert (tile_writer (without_assertions env) parameters = Returns tile) as ->;
    [|exact H].
  clear H. unfold tile_writer in *. obind_inv E. obind_inv E. obind_inv E.
  destruct r1 as [st speeds]. obind_inv E.
  unfold BOOST_ASSERT at 1. cbn [without_assertions assertions_enabled andb obind].
  change (edges_of (without_assertions env)) with (edges_of env).
  change (tile_bbox_of (without_assertions env)) with (tile_bbox_of env).
  rewrite (ofold_Returns_impl _ _ _ _ _ (tally_edge_without_assertions env) E1).
  cbn [obind].
  assert (line_layer (without_assertions env) (edges_of env parameters)
            (tile_bbox_of env parameters) r0 = Returns (st, speeds)) as ->.
  { unfold line_layer in *. obind_inv E2. rename E4 into Hloop.
    rewrite (ofold_Returns_impl _ _ _ _ _
               (line_features_without_assertions env (tile_bbox_of env parameters))
               Hloop).
    exact E2. }
  cbn [obind].
  change (point_layer (without_assertions env)) with (point_layer env).
  rewrite E3. exact E.
Qed.

(** [assertions_do_not_change_the_tile] on the sample network. *)
Lemma assertions_do_not_change_the_tile_witness :
  HandleRequest (Sample.debug Sample.two_segments) Sample.request []
  = Returns (Ok, Wire.pbf_bytes (Sample.tile Sample.two_segments)) /\
  HandleRequest (without_assertions (Sample.debug Sample.two_segments)) Sample.request []
  = Returns (Ok, Wire.pbf_bytes (Sample.tile Sample.two_segments)).
Proof.
  assert (HandleRequest (Sample.debug Sample.two_segments) Sample.request []
          = Returns (Ok, Wire.pbf_bytes (Sample.tile Sample.two_segments))) as H
    by (vm_compute; reflexivity).
  split; [exact H|].
  exact (assertions_do_not_change_the_tile _ _ _ _ H).
Defined.

(** ** Requests that return *)
















(** ** The values of the layer of the turns *)

Lemma turn_record_met env coord_b angle_in_offset next st tds st' tds' seen :
  table_ok (used_point_ints st) (point_int_offsets st) ->
  used_point_ints st = first_seen seen ->
  turn_record env coord_b angle_in_offset next (st, tds) = Returns (st', tds') ->
  table_ok (used_point_ints st') (point_int_offsets st') /\
  used_point_ints st' =
    first_seen
      (seen ++ [ bearing_value env coord_b (GetCoordinateOfNode (facade env) (fst next));
                 snd next ]).
Proof.
  intros Hok Hused H. unfold turn_record in H. obind_inv H. rename r into c_bearing.
  destruct (use_point_value_table (Int.int32 c_bearing) seen st Hok Hused)
    as [Hok1 Hused1].
  destruct (use_point_value (Int.int32 c_bearing) st) as [out st1]. cbn [snd] in *.
  destruct (use_point_value_table (snd next) _ st1 Hok1 Hused1) as [Hok2 Hused2].
  destruct (use_point_value (snd next) st1) as [weight st2]. cbn [snd] in *.
  injection H as <- _. split; [done|].
  unfold bearing_value. rewrite E. by rewrite <- app_assoc in Hused2.
Qed.

Lemma turn_loop_met env coord_b angle_in_offset turns st tds st' tds' seen :
  table_ok (used_point_ints st) (point_int_offsets st) ->
  used_point_ints st = first_seen seen ->
  ofold (turn_record env coord_b angle_in_offset) turns (st, tds) = Returns (st', tds') ->
  table_ok (used_point_ints st') (point_int_offsets st') /\
  used_point_ints st' =
    first_seen
      (seen ++
       flat_map
         (fun next =>
            [ bearing_value env coord_b (GetCoordinateOfNode (facade env) (fst next));
              snd next ])
         turns).
Proof.
  revert st tds seen. induction turns as [|next turns IH]; intros st tds seen Hok Hused H;
    cbn [ofold flat_map] in *.
  - injection H as <- _. by rewrite app_nil_r.
  - obind_inv H. destruct r as [st1 tds1].
    destruct (turn_record_met _ _ _ _ _ _ _ _ _ Hok Hused E) as [Hok1 Hused1].
    destruct (IH _ _ _ Hok1 Hused1 H) as [Hok' Hused'].
    split; [done|]. by rewrite <- app_assoc in Hused'.
Qed.

Lemma intersection_turns_met env edge st st' tds seen :
  table_ok (used_point_ints st) (point_int_offsets st) ->
  used_point_ints st = first_seen seen ->
  intersection_turns env edge
    (GetUncompressedWeights (facade env) (Edge.forward_packed_geometry_id edge))
    (GetUncompressedGeometry (facade env) (Edge.forward_packed_geometry_id edge)) st
  = Returns (st', tds) ->
  used_point_ints st' =
    first_seen
      (seen ++
       match iteration_order env edge (c_nodes_of env edge) with
       | [] => []
       | turns =>
           bearing_value env (GetCoordinateOfNode (facade env) (before_node env edge))
             (GetCoordinateOfNode (facade env) (Edge.v edge))
           :: flat_map
                (fun next =>
                   [ bearing_value env (GetCoordinateOfNode (facade env) (Edge.v edge))
                       (GetCoordinateOfNode (facade env) (fst next));
                     snd next ])
                turns
       end).
Proof.
  intros Hok Hused H. unfold intersection_turns in H.
  obind_inv H. rename r into before, E into Hbefore.
  obind_inv H. rename r into c_nodes, E into Hloop.
  obind_inv H. rename r into angle_in, E into Hangle.
  assert (before_node env edge = before) as ->
    by (unfold before_node; by rewrite Hbefore).
  apply shortcut_loop_spec in Hloop.
  assert (c_nodes_of env edge = c_nodes) as -> by (symmetry; exact Hloop).
  clear Hloop. pose proof (iteration_order_entries env edge c_nodes) as Hentries.
  destruct (0 <? Z.of_nat (size c_nodes)) eqn:Hsize.
  - destruct (iteration_order env edge c_nodes) as [|turn turns] eqn:Hturns.
    { symmetry in Hentries. apply Permutation_nil_r, map_to_list_empty_iff in Hentries.
      subst c_nodes. rewrite map_size_empty in Hsize. discriminate. }
    destruct (use_point_value_table (Int.int32 angle_in) seen st Hok Hused)
      as [Hok1 Hused1].
    destruct (use_point_value (Int.int32 angle_in) st) as [angle_in_offset st1].
    cbn [snd] in *.
    destruct (turn_loop_met _ _ _ _ _ _ _ _ _ Hok1 Hused1 H) as [_ Hused'].
    assert (bearing_value env (GetCoordinateOfNode (facade env) before)
              (GetCoordinateOfNode (facade env) (Edge.v edge)) = Int.int32 angle_in)
      as -> by (unfold bearing_value; by rewrite Hangle).
    by rewrite Hused', <- app_assoc.
  - injection H as <- _.
    assert (size c_nodes = 0%nat) as Hempty by (apply Z.ltb_ge in Hsize; lia).
    apply map_size_empty_iff in Hempty. subst c_nodes.
    rewrite map_to_list_empty in Hentries. apply Permutation_nil_r in Hentries.
    by rewrite Hentries, app_nil_r.
Qed.

(** One turn of the first loop interns the integers of the edge. *)
Lemma tally_edge_met env edge st st' seen :
  table_ok (used_point_ints st) (point_int_offsets st) ->
  used_point_ints st = first_seen seen ->
  tally_edge env edge st = Returns st' ->
  used_point_ints st' = first_seen (seen ++ points_met_at env edge).
Proof.
  intros Hok Hused H. unfold tally_edge in H.
  obind_inv H. rename r into forward, E into Ef.
  obind_inv H. destruct r as [[forward_datasource st1] tds]. rename E into Eturn.
  obind_inv H. rename r into reverse, E into Er.
  assert (used_point_ints st' = used_point_ints st1) as ->.
  { destruct reverse as [[reverse_weight rd]|]; cbn in H; injection H as <-; cbn;
      [|done].
    by destruct (use_line_value_point_part reverse_weight st1) as (-> & _). }
  unfold points_met_at, forward_of. rewrite Ef.
  destruct forward as [[forward_weight fd]|];
    [|injection Eturn as <- <- <-; by rewrite app_nil_r].
  destruct (use_line_value_point_part forward_weight st) as (Hu & Ho & _).
  destruct (last_segment _ _);
    [|injection Eturn as <- <- <-; by rewrite Hu, app_nil_r].
  obind_inv Eturn. destruct r as [st2 tds2]. injection Eturn as <- <- <-.
  apply (intersection_turns_met env edge _ _ _ seen) in E; [done| |];
    by rewrite Hu, ?Ho.
Qed.

Lemma tally_met env edges st st' seen :
  table_ok (used_point_ints st) (point_int_offsets st) ->
  used_point_ints st = first_seen seen ->
  ofold (tally_edge env) edges st = Returns st' ->
  used_point_ints st' = first_seen (seen ++ points_met env edges).
Proof.
  revert st seen. induction edges as [|edge edges IH]; intros st seen Hok Hused H;
    cbn [ofold] in H.
  - injection H as <-. unfold points_met. cbn [flat_map]. by rewrite app_nil_r.
  - obind_inv H. rename r into st1.
    pose proof (tally_edge_met _ _ _ _ _ Hok Hused E) as Hused1.
    destruct (tally_edge_turns _ _ _ _ Hok E) as (_ & _ & Hok1 & _).
    rewrite (IH _ _ Hok1 Hused1 H). unfold points_met. cbn [flat_map].
    by rewrite <- app_assoc.
Qed.

(** X17.  The values of the "turns" layer are the distinct integers that
    the first loop interns for the turns, in the order in which they are
    first met.  The edges are gone through in order; an edge contributes
    only if it has a forward geometry, is at its last segment and has at
    least one turn, and then it gives its bearing in followed, for every
    next node, by the bearing out and the weight of the turn.  The next
    nodes of an edge come in the order in which the map of the edge is
    iterated, which C++ does not fix: whatever that order is, it goes
    through the entries of the map once each.  Each value is written as an
    unsigned 64-bit integer, so a negative turn weight w is written as
    w + 2^64. *)
Theorem turns_values env parameters tile :
  tile_writer env parameters = Returns tile ->
  layer_values (turns_of tile)
  = map turn_value (first_seen (points_met env (edges_of env parameters))) /\
  (forall edge,
     iteration_order env edge (c_nodes_of env edge)
     ≡ₚ map_to_list (c_nodes_of env edge)) /\
  NoDup (first_seen (points_met env (edges_of env parameters))) /\
  (forall value,
     value ∈ first_seen (points_met env (edges_of env parameters)) <->
     value ∈ points_met env (edges_of env parameters)) /\
  (forall value, - 2 ^ 63 <= value < 0 ->
     turn_value value
     = variant (add_uint64 vector_tile.VARIANT_TYPE_UINT64 (value + 2 ^ 64))).
Proof.
  intros H. destruct (turns_layer _ _ _ H) as (st & Htally & _ & ->).
  rewrite (tally_met env _ initial_locals st [] table_ok_empty eq_refl Htally).
  cbn [app]. split; [done|].
  split; [intros edge; apply iteration_order_entries|].
  split; [apply NoDup_first_seen|].
  split; [intros value; apply elem_of_first_seen|].
  intros value Hneg. unfold turn_value, variant, Int.uint64. do 3 f_equal.
  symmetry. apply Z.mod_unique_pos with (q := -1); lia.
Qed.

(** [turns_values] on the sample network, which visits the turn to node 4
    before the turn to node 3: the bearing in (east), then the turn to
    node 4 (east again, weight 50) and the turn to node 3 (south, weight
    30); the layer holds 90, 50, 180, 30. *)
Lemma turns_values_witness :
  tile_writer Sample.town Sample.request = Returns (Sample.tile Sample.two_segments) /\
  iteration_order Sample.town Sample.segment_12
    (c_nodes_of Sample.town Sample.segment_12) = [(4, 50); (3, 30)] /\
  points_met Sample.town (edges_of Sample.town Sample.request) = [90; 90; 50; 180; 30] /\
  layer_values (turns_of (Sample.tile Sample.two_segments))
  = map turn_value (first_seen (points_met Sample.town (edges_of Sample.town Sample.request))) /\
  layer_values (turns_of (Sample.tile Sample.two_segments))
  = map turn_value [90; 50; 180; 30].
Proof.
  assert (tile_writer Sample.town Sample.request
          = Returns (Sample.tile Sample.two_segments)) as H
    by (vm_compute; reflexivity).
  split; [exact H|]. split; [vm_compute; reflexivity|].
  split; [vm_compute; reflexivity|].
  split; [exact (proj1 (turns_values Sample.town Sample.request _ H))|].
  vm_compute. reflexivity.
Defined.

(** ** A turn that leads nowhere *)

(** X18.  The first node of the geometry of the edge after a turn is read
    with [front ()], and the geometry is not checked for being empty.  When
    an edge of the box is at its last segment and one of its shortcuts with
    forward travel unpacks to two edges or more, the second of which has an
    empty geometry, the request does not return: its behaviour is undefined
    (or it has stopped at the assertion on the request before). *)
Theorem empty_geometry_after_a_turn env parameters pbf_buffer edge adj_shortcut
    first second rest :
  edge ∈ edges_of env parameters ->
  Edge.forward_packed_geometry_id edge <> SPECIAL_EDGEID ->
  last_segment edge
    (GetUncompressedGeometry (facade env) (Edge.forward_packed_geometry_id edge)) = true ->
  adj_shortcut
    ∈ GetAdjacentEdgeRange (facade env) (SegmentID.id (Edge.forward_segment_id edge)) ->
  EdgeData.forward (GetEdgeData (facade env) adj_shortcut) = true ->
  UnpackEdgeToEdges env (SegmentID.id (Edge.forward_segment_id edge))
    (GetTarget (facade env) adj_shortcut) = first :: second :: rest ->
  GetUncompressedGeometry (facade env)
    (GetGeometryIndexForEdgeID (facade env) (EdgeData.id second)) = [] ->
  HandleRequest env parameters pbf_buffer = Aborts \/
  HandleRequest env parameters pbf_buffer = Undefined.
Proof.
  intros Hin Hhas Hlast Hadj Hforward Hunpack Hempty.
  destruct (HandleRequest env parameters pbf_buffer) as [[status buffer]| |] eqn:H;
    [exfalso | by left | by right].
  apply HandleRequest_Returns in H as (tile & H & _ & _).
  apply tile_writer_Returns in H as (st & _ & _ & _ & Htally & _).
  destruct (ofold_Returns_elem _ _ _ _ _ Htally Hin) as (t & t' & Hedge).
  unfold tally_edge in Hedge. obind_inv Hedge. rename r into forward, E into Ef.
  obind_inv Hedge. rename E into Eturn. clear Hedge.
  unfold forward_attributes in Ef. apply Z.eqb_neq in Hhas. rewrite Hhas in Ef.
  obind_inv Ef. obind_inv Ef. injection Ef as <-.
  rewrite Hlast in Eturn. obind_inv Eturn. clear Eturn. rename E1 into Hturns.
  unfold intersection_turns in Hturns. obind_inv Hturns. obind_inv Hturns.
  rename E2 into Hloop. clear Hturns.
  destruct (ofold_Returns_elem _ _ _ _ _ Hloop Hadj) as (c_nodes & c_nodes' & Hbody).
  unfold shortcut_turn in Hbody. rewrite Hforward, Hunpack in Hbody.
  cbn [negb] in Hbody.
  assert ((vec_size (first :: second :: rest) <? 2) = false) as Hsize
    by (apply Z.ltb_ge; unfold vec_size; cbn [length]; lia).
  rewrite Hsize, vec_at_1, vec_at_0 in Hbody. cbn [obind] in Hbody.
  rewrite Hempty in Hbody. discriminate.
Qed.

(** [empty_geometry_after_a_turn] on the sample network with the facade
    that has no geometry for the edges after the turns. *)
Lemma empty_geometry_after_a_turn_witness :
  HandleRequest Sample.dangling Sample.request [] = Undefined.
Proof.
  destruct (empty_geometry_after_a_turn Sample.dangling Sample.request []
              Sample.segment_12 20
              {| EdgeData.id := 10; EdgeData.distance := 130; EdgeData.forward := true |}
              {| EdgeData.id := 11; EdgeData.distance := 80; EdgeData.forward := true |}
              []
              ltac:(by left) ltac:(vm_compute; discriminate)
              ltac:(vm_compute; reflexivity) ltac:(by left)
              ltac:(vm_compute; reflexivity) ltac:(vm_compute; reflexivity)
              ltac:(vm_compute; reflexivity)) as [H|H];
    [vm_compute in H; discriminate | exact H].
Defined.
